(** * HW07_AddressBook: a shallow embedding of the address book and its
      birthday scheduler, with the properties of its specification.

    The development follows [HW07_AddressBook.py]:
    - [PyStr]   Python strings as sequences of code points, [str.isdigit]
                and the decimal digits the [re] module's [\d] matches;
    - [Py]      exceptions, results and the state-and-exception monad in
                which the methods of a mutable object run;
    - [PyDate]  the part of [datetime.date] the program calls
                (construction, [replace], ordering, subtraction, [weekday],
                adding a [timedelta], [strftime], [strptime]);
    - the classes [Phone], [Birthday], [Record], [AddressBook];
    - [save_address_book] and [load_address_book] on the persisted layout.

    Definitions come first, facts about them afterwards. *)

From stdpp Require Import base option list numbers strings.
From Stdlib Require Import ZArith Lia Ascii.

(** ** Python strings *)

Module PyStr.

(** A [str] is a sequence of Unicode code points; [len] counts code points. *)
Definition pystr : Type := list N.

(** An ASCII literal as a [str]. *)
Definition lit (s : string) : pystr :=
  map Ascii.N_of_ascii (String.list_ascii_of_string s).

(** First code points of the runs of ten characters of Unicode category Nd
    (decimal digits), Unicode 14.0.0, the database of CPython 3.11.  The
    k-th character of a run has decimal value k. *)
Definition DECIMAL_ZEROS : list N :=
  [ 0x30; 0x660; 0x6f0; 0x7c0; 0x966; 0x9e6; 0xa66; 0xae6; 0xb66; 0xbe6;
    0xc66; 0xce6; 0xd66; 0xde6; 0xe50; 0xed0; 0xf20; 0x1040; 0x1090;
    0x17e0; 0x1810; 0x1946; 0x19d0; 0x1a80; 0x1a90; 0x1b50; 0x1bb0;
    0x1c40; 0x1c50; 0xa620; 0xa8d0; 0xa900; 0xa9d0; 0xa9f0; 0xaa50;
    0xabf0; 0xff10; 0x104a0; 0x10d30; 0x11066; 0x110f0; 0x11136; 0x111d0;
    0x112f0; 0x11450; 0x114d0; 0x11650; 0x116c0; 0x11730; 0x118e0;
    0x11950; 0x11c50; 0x11d50; 0x11da0; 0x16a60; 0x16ac0; 0x16b50;
    0x1d7ce; 0x1d7d8; 0x1d7e2; 0x1d7ec; 0x1d7f6; 0x1e140; 0x1e2f0;
    0x1e950; 0x1fbf0 ]%N.

(** Characters with Numeric_Type=Digit that are not decimal (superscripts,
    subscripts, circled digits, ...), as inclusive ranges. *)
Definition DIGIT_EXTRA : list (N * N) :=
  [ (0xb2, 0xb3); (0xb9, 0xb9); (0x1369, 0x1371); (0x19da, 0x19da);
    (0x2070, 0x2070); (0x2074, 0x2079); (0x2080, 0x2089); (0x2460, 0x2468);
    (0x2474, 0x247c); (0x2488, 0x2490); (0x24ea, 0x24ea); (0x24f5, 0x24fd);
    (0x24ff, 0x24ff); (0x2776, 0x277e); (0x2780, 0x2788); (0x278a, 0x2792);
    (0x10a40, 0x10a43); (0x10e60, 0x10e68); (0x11052, 0x1105a);
    (0x1f100, 0x1f10a) ]%N.

Definition in_run (c z : N) : bool := ((z <=? c) && (c <? z + 10))%N.

(** [Py_UNICODE_TODECIMAL]: the decimal value of a character, if any. *)
Definition decimal_value (c : N) : option Z :=
  match find (in_run c) DECIMAL_ZEROS with
  | Some z => Some (Z.of_N (c - z))
  | None => None
  end.

(** [Py_UNICODE_ISDECIMAL], which is also what [\d] matches in a [str]
    pattern. *)
Definition is_decimal (c : N) : bool := existsb (in_run c) DECIMAL_ZEROS.

(** [Py_UNICODE_ISDIGIT]. *)
Definition isdigit_char (c : N) : bool :=
  is_decimal c || existsb (fun r => (fst r <=? c) && (c <=? snd r))%N DIGIT_EXTRA.

(** [str.isdigit]: every character is a digit and there is at least one. *)
Definition isdigit (s : pystr) : bool :=
  match s with
  | [] => false
  | _ => forallb isdigit_char s
  end.

(** The characters [0] to [9] of ASCII. *)
Definition is_ascii_digit (c : N) : bool := ((0x30 <=? c) && (c <=? 0x39))%N.

(** [a == b] on strings. *)
Definition eqb (a b : pystr) : bool := bool_decide (a = b).

Definition SPACE : N := 0x20%N.
Definition DOT : N := 0x2e%N.

(** The ASCII digit of a value in 0..9. *)
Definition digit_char (k : Z) : N := (0x30 + Z.to_N k)%N.
Arguments digit_char : simpl never.

(** [int(s)] for the texts the groups of the date pattern capture: blanks
    around the text are stripped, then all characters must be decimal
    digits, read in base ten. *)
Fixpoint lstrip (s : pystr) : pystr :=
  match s with
  | c :: s' => if (c =? SPACE)%N then lstrip s' else s
  | [] => []
  end.

Definition strip (s : pystr) : pystr := rev (lstrip (rev (lstrip s))).

Fixpoint digits_value (acc : Z) (s : pystr) : option Z :=
  match s with
  | [] => Some acc
  | c :: s' =>
      match decimal_value c with
      | Some k => digits_value (10 * acc + k)%Z s'
      | None => None
      end
  end.

Definition int (s : pystr) : option Z :=
  match strip s with
  | [] => None
  | t => digits_value 0%Z t
  end.

End PyStr.

(** ** Exceptions and the monads of results *)

Module Py.

Inductive exn : Type := ValueError | KeyError | OverflowError.

Inductive result (A : Type) : Type :=
| Ok (a : A)
| Raise (e : exn).
Arguments Ok {A} a.
Arguments Raise {A} e.

Definition bind {A B} (r : result A) (k : A -> result B) : result B :=
  match r with
  | Ok a => k a
  | Raise e => Raise e
  end.

Definition is_ok {A} (r : result A) : bool :=
  match r with Ok _ => true | Raise _ => false end.

(** A method of a mutable object: from the object's state to the state it
    leaves and what the call returns or raises. *)
Definition method (S A : Type) : Type := S -> S * result A.

Definition ret {S A} (a : A) : method S A := fun s => (s, Ok a).
Definition get {S} : method S S := fun s => (s, Ok s).
Definition put {S} (s' : S) : method S unit := fun _ => (s', Ok tt).
Definition lift {S A} (r : result A) : method S A := fun s => (s, r).

Definition mbind {S A B} (m : method S A) (k : A -> method S B) : method S B :=
  fun s =>
    match m s with
    | (s', Ok a) => k a s'
    | (s', Raise e) => (s', Raise e)
    end.

(** [try: m  except ValueError: pass], the call's value dropped. *)
Definition try_except_ValueError {S A} (m : method S A) : method S unit :=
  fun s =>
    match m s with
    | (s', Ok _) => (s', Ok tt)
    | (s', Raise ValueError) => (s', Ok tt)
    | (s', Raise e) => (s', Raise e)
    end.

End Py.

Declare Scope py_scope.
Delimit Scope py_scope with py.
Notation "x <-? r ;; k" := (Py.bind r (fun x => k))
  (at level 100, r at next level, k at level 200,
   right associativity) : py_scope.
Notation "x <- m ;; k" := (Py.mbind m (fun x => k))
  (at level 100, m at next level, k at level 200,
   right associativity) : py_scope.
Notation "m ;; k" := (Py.mbind m (fun _ => k))
  (at level 100, k at level 200, right associativity) : py_scope.

Import Py.
Import PyStr.

(** ** The calendar of [datetime.date]

    [datetime] is the interpreter's library; the functions below follow its
    Python implementation (proleptic Gregorian ordinals, day 1 being
    0001-01-01). *)

Module PyDate.
Local Open Scope Z_scope.

Definition MINYEAR : Z := 1.
Definition MAXYEAR : Z := 9999.
Definition MAXORDINAL : Z := 3652059.

Definition DAYS_IN_MONTH : list Z :=
  [-1; 31; 28; 31; 30; 31; 30; 31; 31; 30; 31; 30; 31].
Definition DAYS_BEFORE_MONTH : list Z :=
  [-1; 0; 31; 59; 90; 120; 151; 181; 212; 243; 273; 304; 334].

(** [table[i]] for an index inside the table. *)
Definition index (table : list Z) (i : Z) : Z := nth (Z.to_nat i) table (-1).

Definition is_leap (year : Z) : bool :=
  (year mod 4 =? 0) && (negb (year mod 100 =? 0) || (year mod 400 =? 0)).

Definition days_before_year (year : Z) : Z :=
  let y := year - 1 in
  y * 365 + y / 4 - y / 100 + y / 400.

Definition days_in_month (year month : Z) : Z :=
  if (month =? 2) && is_leap year then 29 else index DAYS_IN_MONTH month.

Definition days_before_month (year month : Z) : Z :=
  index DAYS_BEFORE_MONTH month + Z.b2z ((2 <? month) && is_leap year).

Definition ymd2ord (year month day : Z) : Z :=
  days_before_year year + days_before_month year month + day.

Definition DI400Y : Z := Eval cbv in days_before_year 401.
Definition DI100Y : Z := Eval cbv in days_before_year 101.
Definition DI4Y : Z := Eval cbv in days_before_year 5.

Definition ord2ymd (n : Z) : Z * Z * Z :=
  let n := n - 1 in
  let n400 := n / DI400Y in
  let n := n mod DI400Y in
  let year := n400 * 400 + 1 in
  let n100 := n / DI100Y in
  let n := n mod DI100Y in
  let n4 := n / DI4Y in
  let n := n mod DI4Y in
  let n1 := n / 365 in
  let n := n mod 365 in
  let year := year + n100 * 100 + n4 * 4 + n1 in
  if (n1 =? 4) || (n100 =? 4) then (year - 1, 12, 31)
  else
    let leapyear := (n1 =? 3) && (negb (n4 =? 24) || (n100 =? 3)) in
    let month := Z.shiftr (n + 50) 5 in
    let preceding :=
      index DAYS_BEFORE_MONTH month + Z.b2z ((2 <? month) && leapyear) in
    let '(month, preceding) :=
      if n <? preceding
      then (month - 1,
            preceding - (index DAYS_IN_MONTH (month - 1)
                         + Z.b2z ((month - 1 =? 2) && leapyear)))
      else (month, preceding) in
    (year, month, n - preceding + 1).

Record date : Type := mkDate { year : Z; month : Z; day : Z }.

(** The field check of the constructor. *)
Definition valid (year month day : Z) : bool :=
  (MINYEAR <=? year) && (year <=? MAXYEAR)
  && (1 <=? month) && (month <=? 12)
  && (1 <=? day) && (day <=? days_in_month year month).

(** [date(year, month, day)]. *)
Definition new (year month day : Z) : result date :=
  if valid year month day then Ok (mkDate year month day)
  else Raise ValueError.

Definition wf (d : date) : bool := valid (year d) (month d) (day d).

(** [d.replace(year=y)]. *)
Definition replace_year (d : date) (y : Z) : result date :=
  new y (month d) (day d).

Definition toordinal (d : date) : Z := ymd2ord (year d) (month d) (day d).

Definition fromordinal (n : Z) : result date :=
  let '(y, m, d) := ord2ymd n in new y m d.

(** [a < b]: the comparison of the (year, month, day) triples. *)
Definition lt (a b : date) : bool :=
  match year a ?= year b with
  | Lt => true
  | Gt => false
  | Eq =>
      match month a ?= month b with
      | Lt => true
      | Gt => false
      | Eq => day a <? day b
      end
  end.

(** [(a - b).days]. *)
Definition sub_days (a b : date) : Z := toordinal a - toordinal b.

(** [d.weekday()]: Monday is 0, Sunday is 6. *)
Definition weekday (d : date) : Z := (toordinal d + 6) mod 7.

(** [d + timedelta(days=k)]. *)
Definition add_days (d : date) (k : Z) : result date :=
  let o := toordinal d + k in
  if (0 <? o) && (o <=? MAXORDINAL) then fromordinal o
  else Raise OverflowError.

(** *** Formatting *)

(** A number as [w] ASCII digits, padded with zeros ([%d] and [%m] write
    two). *)
Fixpoint zfill (w : nat) (n : Z) : pystr :=
  match w with
  | O => []
  | S w' => zfill w' (n / 10) ++ [digit_char (n mod 10)]
  end.

(** [strftime] hands [%Y] to the C library.  The library documents four
    digits (0001 ... 9999); glibc writes a year below 1000 without the
    leading zeros.  Both are modelled; they agree from year 1000 on. *)
Inductive year_style : Type := Padded | Unpadded.

Definition format_Y (libc : year_style) (y : Z) : pystr :=
  match libc with
  | Padded => zfill 4 y
  | Unpadded =>
      if y <? 10 then zfill 1 y
      else if y <? 100 then zfill 2 y
      else if y <? 1000 then zfill 3 y
      else zfill 4 y
  end.

(** [d.strftime("%d.%m.%Y")]. *)
Definition strftime_dmY (libc : year_style) (d : date) : pystr :=
  zfill 2 (day d) ++ [DOT] ++ zfill 2 (month d) ++ [DOT]
  ++ format_Y libc (year d).

(** [d.strftime("%Y.%m.%d")]. *)
Definition strftime_Ymd (libc : year_style) (d : date) : pystr :=
  format_Y libc (year d) ++ [DOT] ++ zfill 2 (month d) ++ [DOT]
  ++ zfill 2 (day d).

(** *** Parsing

    [strptime] turns the format into a regular expression and matches it
    at the start of the text.  A matcher lists the ways a pattern matches
    a prefix, in the order the backtracking engine tries them, each as the
    matched text and what follows it. *)

Definition matcher : Type := pystr -> list (pystr * pystr).

Definition re_char (p : N -> bool) : matcher := fun s =>
  match s with
  | c :: r => if p c then [([c], r)] else []
  | [] => []
  end.

Definition re_seq (a b : matcher) : matcher := fun s =>
  flat_map (fun '(x, r) => map (fun '(y, r') => (x ++ y, r')) (b r)) (a s).

Definition re_alt (a b : matcher) : matcher := fun s => a s ++ b s.

Definition chr (a : Ascii.ascii) : N := Ascii.N_of_ascii a.

Definition re_lit (a : Ascii.ascii) : matcher := re_char (N.eqb (chr a)).

Definition re_range (lo hi : Ascii.ascii) : matcher :=
  re_char (fun c => (chr lo <=? c)%N && (c <=? chr hi)%N).

Arguments re_lit a%_char.
Arguments re_range (lo hi)%_char.

Definition re_decimal : matcher := re_char is_decimal.

(** [%d]: [3[0-1]|[1-2]\d|0[1-9]|[1-9]| [1-9]]. *)
Definition RE_d : matcher :=
  re_alt (re_seq (re_lit "3") (re_range "0" "1"))
  (re_alt (re_seq (re_range "1" "2") re_decimal)
  (re_alt (re_seq (re_lit "0") (re_range "1" "9"))
  (re_alt (re_range "1" "9")
          (re_seq (re_lit " ") (re_range "1" "9"))))).

(** [%m]: [1[0-2]|0[1-9]|[1-9]]. *)
Definition RE_m : matcher :=
  re_alt (re_seq (re_lit "1") (re_range "0" "2"))
  (re_alt (re_seq (re_lit "0") (re_range "1" "9"))
          (re_range "1" "9")).

(** [%Y]: [\d\d\d\d]. *)
Definition RE_Y : matcher :=
  re_seq re_decimal (re_seq re_decimal (re_seq re_decimal re_decimal)).

(** A matcher followed by what comes after it in the pattern: every way
    the matcher matches is continued, in order. *)
Definition re_then {T} (m : matcher) (k : pystr -> pystr -> list T)
  : pystr -> list T :=
  fun s => flat_map (fun '(x, r) => k x r) (m s).

(** The first match of [%d\.%m\.%Y]: the three groups and the text after
    the match. *)
Definition re_match_dmY (s : pystr) : option (pystr * pystr * pystr * pystr) :=
  head
    (re_then RE_d (fun d r1 =>
     re_then (re_lit ".") (fun _ r2 =>
     re_then RE_m (fun m r3 =>
     re_then (re_lit ".") (fun _ r4 =>
     re_then RE_Y (fun y r5 => [(d, m, y, r5)]) r4) r3) r2) r1) s).

(** [datetime.strptime(data_string, "%d.%m.%Y").date()]. *)
Definition strptime_dmY (data_string : pystr) : result date :=
  match re_match_dmY data_string with
  | None => Raise ValueError
  | Some (d, m, y, rest) =>
      match rest with
      | _ :: _ => Raise ValueError
      | [] =>
          match int y, int m, int d with
          | Some year, Some month, Some day => new year month day
          | _, _, _ => Raise ValueError
          end
      end
  end.

End PyDate.

(** ** Insertion-ordered dictionaries with string keys

    A [dict] keeps its items in insertion order; assigning to a key that is
    present replaces the value where it stands. *)

Module PyDict.
Abbreviation dict V := (list (pystr * V)) (only parsing).

Section dict.
Context {V : Type}.

(** [d.get(k)]. *)
Fixpoint get (k : pystr) (d : dict V) : option V :=
  match d with
  | [] => None
  | (k', v) :: d' => if eqb k' k then Some v else get k d'
  end.

(** [d[k] = v]. *)
Fixpoint set (k : pystr) (v : V) (d : dict V) : dict V :=
  match d with
  | [] => [(k, v)]
  | (k', v') :: d' =>
      if eqb k' k then (k', v) :: d' else (k', v') :: set k v d'
  end.

(** [del d[k]]. *)
Fixpoint del (k : pystr) (d : dict V) : dict V :=
  match d with
  | [] => []
  | (k', v') :: d' => if eqb k' k then d' else (k', v') :: del k d'
  end.

(** [k in d]. *)
Definition contains (k : pystr) (d : dict V) : bool :=
  match get k d with Some _ => true | None => false end.

Definition keys (d : dict V) : list pystr := fst <$> d.
Definition values (d : dict V) : list V := snd <$> d.
End dict.
End PyDict.

(** ** The fields *)

Record Name : Type := mkName { Name_value : pystr }.
Record Phone : Type := mkPhone { Phone_value : pystr }.
Record Birthday : Type := mkBirthday { Birthday_value : PyDate.date }.

(** [Phone.__init__]; the argument is a [str] by its type. *)
Definition Phone_init (value : pystr) : result Phone :=
  if negb (isdigit value && (length value =? 10)%nat) then Raise ValueError
  else Ok (mkPhone value).

(** [Field.__str__] on a phone: what is displayed. *)
Definition Phone_str (p : Phone) : pystr := Phone_value p.

(** [Birthday.__init__]: a [ValueError] of the parser is raised again as
    the class's own [ValueError]. *)
Definition Birthday_init (value : pystr) : result Birthday :=
  match PyDate.strptime_dmY value with
  | Ok parsed => Ok (mkBirthday parsed)
  | Raise ValueError => Raise ValueError
  | Raise e => Raise e
  end.

(** [Birthday.__str__]. *)
Definition Birthday_str (libc : PyDate.year_style) (b : Birthday) : pystr :=
  PyDate.strftime_dmY libc (Birthday_value b).

(** ** Records *)

Record record : Type := mkRecord {
  name : Name;
  phones : list Phone;
  birthday : option Birthday
}.

Definition set_phones (ps : list Phone) (self : record) : record :=
  mkRecord (name self) ps (birthday self).
Definition set_birthday (b : option Birthday) (self : record) : record :=
  mkRecord (name self) (phones self) b.

(** [Record.__init__]. *)
Definition Record_init (name : pystr) : result record :=
  Ok (mkRecord (mkName name) [] None).

Local Open Scope py_scope.

(** [Record.add_phone]. *)
Definition add_phone (phone_str : pystr) : method record unit :=
  phone_obj <- lift (Phone_init phone_str) ;;
  self <- get ;;
  if negb (existsb (fun p => eqb (Phone_value p) (Phone_value phone_obj))
             (phones self))
  then put (set_phones (phones self ++ [phone_obj]) self)
  else ret tt.

(** [Record.remove_phone]: the loop stops at the first phone whose value
    is [phone_str] and removes that object from the list. *)
Definition remove_phone (phone_str : pystr) : method record unit :=
  self <- get ;;
  match list_find (fun ph => Phone_value ph = phone_str) (phones self) with
  | Some (idx, _) => put (set_phones (delete idx (phones self)) self)
  | None => ret tt
  end.

(** [Record.edit_phone]: the loop stops at the first phone whose value is
    [old_phone]; the new number is validated there, inside the loop. *)
Definition edit_phone (old_phone new_phone : pystr) : method record bool :=
  self <- get ;;
  match list_find (fun ph => Phone_value ph = old_phone) (phones self) with
  | Some (idx, _) =>
      new_phone_obj <- lift (Phone_init new_phone) ;;
      put (set_phones (<[idx := new_phone_obj]> (phones self)) self) ;;
      ret true
  | None => ret false
  end.

(** [Record.add_birthday]. *)
Definition add_birthday (bday_str : pystr) : method record unit :=
  b <- lift (Birthday_init bday_str) ;;
  self <- get ;;
  put (set_birthday (Some b) self).

(** ** The address book *)

(** [AddressBook.data]: name to record. *)
Abbreviation AddressBook := (PyDict.dict record) (only parsing).

(** [AddressBook.add_record]. *)
Definition add_record (rec : record) : method AddressBook unit :=
  fun data => (PyDict.set (Name_value (name rec)) rec data, Ok tt).

(** [AddressBook.find]. *)
Definition find (name : pystr) (data : AddressBook) : result record :=
  match PyDict.get name data with
  | Some rec => Ok rec
  | None => Raise KeyError
  end.

(** [AddressBook.delete]. *)
Definition delete (name : pystr) : method AddressBook bool :=
  fun data =>
    if PyDict.contains name data then (PyDict.del name data, Ok true)
    else (data, Ok false).

(** [book.find(name).m(...)]: [find] hands out the record object the book
    holds, so what the method does to it is seen through the book, under
    the same key and at the same place. *)
Definition on_record {A} (name : pystr) (m : method record A)
  : method AddressBook A :=
  fun data =>
    match find name data with
    | Ok rec => let '(rec', r) := m rec in (PyDict.set name rec' data, r)
    | Raise e => (data, Raise e)
    end.

(** One entry of the list [get_upcoming_birthdays] returns. *)
Record greeting : Type := mkGreeting {
  greeting_name : pystr;
  congratulation_date : pystr
}.

(** The body of the loop of [get_upcoming_birthdays] for one record:
    [None] when the record is skipped, the entry to append otherwise. *)
Definition upcoming_body (libc : PyDate.year_style) (today : PyDate.date)
    (rec : record) : result (option greeting) :=
  match birthday rec with
  | None => Ok None
  | Some b =>
      let bday := Birthday_value b in
      birthday_this_year <-? PyDate.replace_year bday (PyDate.year today) ;;
      birthday_this_year <-?
        (if PyDate.lt birthday_this_year today
         then PyDate.replace_year birthday_this_year (PyDate.year today + 1)
         else Ok birthday_this_year) ;;
      let days_ahead := PyDate.sub_days birthday_this_year today in
      if ((0 <=? days_ahead) && (days_ahead <=? 6))%Z then
        congratulation_date <-?
          (if (PyDate.weekday birthday_this_year =? 5)%Z
           then PyDate.add_days birthday_this_year 2
           else if (PyDate.weekday birthday_this_year =? 6)%Z
           then PyDate.add_days birthday_this_year 1
           else Ok birthday_this_year) ;;
        Ok (Some (mkGreeting (Name_value (name rec))
                    (PyDate.strftime_Ymd libc congratulation_date)))
      else Ok None
  end.

Fixpoint upcoming_loop (libc : PyDate.year_style) (today : PyDate.date)
    (records : list record) (upcoming : list greeting)
  : result (list greeting) :=
  match records with
  | [] => Ok upcoming
  | rec :: rest =>
      entry <-? upcoming_body libc today rec ;;
      match entry with
      | Some g => upcoming_loop libc today rest (upcoming ++ [g])
      | None => upcoming_loop libc today rest upcoming
      end
  end.

(** [AddressBook.get_upcoming_birthdays]; [today] is what [date.today()]
    returns. *)
Definition get_upcoming_birthdays (libc : PyDate.year_style)
    (today : PyDate.date) (data : AddressBook) : result (list greeting) :=
  upcoming_loop libc today (PyDict.values data) [].

(** ** Saving and loading

    The persisted layout is the dictionary [save_address_book] hands to
    [json.dump] and [load_address_book] gets back from [json.load]: name to
    the list of phone strings and the birthday string, if any. *)

Record info : Type := mkInfo {
  info_phones : list pystr;
  info_birthday : option pystr
}.

Abbreviation layout := (PyDict.dict info) (only parsing).

Definition save_loop (libc : PyDate.year_style)
    (items : list (pystr * record)) (data_to_save : layout) : layout :=
  fold_left
    (fun data_to_save '(name, rec) =>
       let phones_list := Phone_value <$> phones rec in
       let birthday_str :=
         match birthday rec with
         | Some b => Some (PyDate.strftime_dmY libc (Birthday_value b))
         | None => None
         end in
       PyDict.set name (mkInfo phones_list birthday_str) data_to_save)
    items data_to_save.

(** [save_address_book], up to the file. *)
Definition save_address_book (libc : PyDate.year_style) (book : AddressBook)
  : layout :=
  save_loop libc book [].

(** The phones of one item: a number [Phone] rejects is logged and
    skipped. *)
Fixpoint load_phones (phone_strs : list pystr) : method record unit :=
  match phone_strs with
  | [] => ret tt
  | phone_str :: rest =>
      try_except_ValueError (add_phone phone_str) ;;
      load_phones rest
  end.

(** One item of the loop of [load_address_book]. *)
Definition load_item (name : pystr) (i : info) : method AddressBook unit :=
  fun book =>
    match Record_init name with
    | Raise e => (book, Raise e)
    | Ok rec =>
        let m : method record unit :=
          load_phones (info_phones i) ;;
          match info_birthday i with
          | Some ((_ :: _) as birthday_str) =>
              try_except_ValueError (add_birthday birthday_str)
          | _ => ret tt
          end in
        match m rec with
        | (rec, Ok _) => add_record rec book
        | (_, Raise e) => (book, Raise e)
        end
    end.

Fixpoint load_loop (raw_data : layout) : method AddressBook unit :=
  match raw_data with
  | [] => ret tt
  | (name, i) :: rest => load_item name i ;; load_loop rest
  end.

(** [load_address_book], from what was read from the file. *)
Definition load_address_book (raw_data : layout) : AddressBook * result unit :=
  load_loop raw_data [].

(** ** Sequences of operations on a book *)

Inductive record_op : Type :=
| AddPhone (phone_str : pystr)
| RemovePhone (phone_str : pystr)
| EditPhone (old_phone new_phone : pystr)
| AddBirthday (bday_str : pystr).

Inductive op : Type :=
| AddRecord (rec : record)
| Delete (name : pystr)
| OnRecord (name : pystr) (o : record_op).

Definition run_record_op (o : record_op) : method record unit :=
  match o with
  | AddPhone p => add_phone p
  | RemovePhone p => remove_phone p
  | EditPhone a b => edit_phone a b ;; ret tt
  | AddBirthday s => add_birthday s
  end.

(** The book an operation leaves, whether it returns or raises. *)
Definition run_op (o : op) (book : AddressBook) : AddressBook :=
  match o with
  | AddRecord rec => fst (add_record rec book)
  | Delete name => fst (delete name book)
  | OnRecord name ro => fst (on_record name (run_record_op ro) book)
  end.

Definition run_ops (os : list op) (book : AddressBook) : AddressBook :=
  fold_left (fun b o => run_op o b) os book.

Local Close Scope py_scope.

(** ** Predicates of the specification *)

(** The phones of a record are pairwise different as numbers. *)
Definition phones_unique (rec : record) : Prop :=
  NoDup (Phone_value <$> phones rec).

(** Every phone of a record is one [Phone] accepts. *)
Definition phones_valid (rec : record) : Prop :=
  Forall (fun ph => Phone_init (Phone_value ph) = Ok ph) (phones rec).

(** [idx] is the place of the first phone whose value is [value]. *)
Definition first_phone (value : pystr) (ps : list Phone) (idx : nat) : Prop :=
  (exists ph, ps !! idx = Some ph /\ Phone_value ph = value)
  /\ (forall j ph, ps !! j = Some ph -> j < idx -> Phone_value ph <> value).

(** A book holds at most one record per name, each under its own name. *)
Definition book_wf (book : AddressBook) : Prop :=
  NoDup (PyDict.keys book)
  /\ Forall (fun '(k, rec) => k = Name_value (name rec)) book.

(** The entry the loop of [get_upcoming_birthdays] appends for a record,
    if it appends one. *)
Definition entry_of (libc : PyDate.year_style) (today : PyDate.date)
    (rec : record) : option greeting :=
  match upcoming_body libc today rec with
  | Ok e => e
  | Raise _ => None
  end.

(** The birthday [bday] projected onto the year of [today], and onto the
    next year if that date is before [today]. *)
Definition projected (bday today : PyDate.date) : result PyDate.date :=
  match PyDate.replace_year bday (PyDate.year today) with
  | Ok this_year =>
      if PyDate.lt this_year today
      then PyDate.replace_year bday (PyDate.year today + 1)
      else Ok this_year
  | Raise e => Raise e
  end.

(** The day of the greeting: the Monday after a Saturday or a Sunday, the
    day itself otherwise. *)
Definition greeting_date (d : PyDate.date) : result PyDate.date :=
  if (PyDate.weekday d =? 5)%Z then PyDate.add_days d 2
  else if (PyDate.weekday d =? 6)%Z then PyDate.add_days d 1
  else Ok d.

(** [days] is within the week that starts today. *)
Definition in_window (days : Z) : Prop := (0 <= days <= 6)%Z.

(** The birthday of a record, if any, is a date of the calendar that the C
    library writes with a four-digit year. *)
Definition birthday_valid (libc : PyDate.year_style) (rec : record) : Prop :=
  match birthday rec with
  | Some b =>
      PyDate.wf (Birthday_value b) = true
      /\ (libc = PyDate.Padded \/ (1000 <= PyDate.year (Birthday_value b))%Z)
  | None => True
  end.

(** What [save_address_book] stores for a record. *)
Definition info_of (libc : PyDate.year_style) (rec : record) : info :=
  mkInfo (Phone_value <$> phones rec)
    (match birthday rec with
     | Some b => Some (PyDate.strftime_dmY libc (Birthday_value b))
     | None => None
     end).

(** A record that saving and loading give back: valid phones, pairwise
    different, and a valid birthday if any. *)
Definition storable (libc : PyDate.year_style) (rec : record) : Prop :=
  phones_valid rec /\ phones_unique rec /\ birthday_valid libc rec.

(** Every way a matcher matches splits the text into the match and the
    rest, and the match has the property [P]. *)
Definition splits (m : PyDate.matcher) (P : pystr -> Prop) : Prop :=
  forall s x r, In (x, r) (m s) -> s = x ++ r /\ P x.

(** ** Sample data *)

Module Sample.

Definition contact (n : string) (ps : list string) (b : option (Z * Z * Z))
  : record :=
  mkRecord (mkName (lit n)) ((fun p => mkPhone (lit p)) <$> ps)
    (match b with
     | Some (d, m, y) => Some (mkBirthday (PyDate.mkDate y m d))
     | None => None
     end).

Definition book_of (rs : list record) : AddressBook :=
  run_ops (AddRecord <$> rs) [].

(** Ten times ARABIC-INDIC DIGIT TWO. *)
Definition arabic_twos : pystr := repeat 0x662%N 10.

End Sample.

(** ** The rest of the record and the command handlers *)

(** "День народження не задано", what [show_birthday] returns for a record
    without a birthday. *)
Definition NOT_SET : pystr :=
  [ 0x414; 0x435; 0x43d; 0x44c; 0x20; 0x43d; 0x430; 0x440; 0x43e; 0x434;
    0x436; 0x435; 0x43d; 0x43d; 0x44f; 0x20; 0x43d; 0x435; 0x20; 0x437;
    0x430; 0x434; 0x430; 0x43d; 0x43e ]%N.

(** [Record.show_birthday]; a [Birthday] object is always true. *)
Definition show_birthday (libc : PyDate.year_style) (self : record) : pystr :=
  match birthday self with
  | Some b => Birthday_str libc b
  | None => NOT_SET
  end.

(** The handlers, as they are before [input_error] wraps them: what they
    do to the book and what they return or raise.  [args[i]] raises
    [IndexError] when the list is too short. *)
Module Handlers.

Inductive outcome : Type :=
| Returns (text : pystr)
| Raises (e : exn)
| RaisesIndexError.

(** "Для контакту " *)
Definition ADDED_1 : pystr :=
  [ 0x414; 0x43b; 0x44f; 0x20; 0x43a; 0x43e; 0x43d; 0x442; 0x430; 0x43a;
    0x442; 0x443; 0x20 ]%N.
(** " додано номер " *)
Definition ADDED_2 : pystr :=
  [ 0x20; 0x434; 0x43e; 0x434; 0x430; 0x43d; 0x43e; 0x20; 0x43d; 0x43e;
    0x43c; 0x435; 0x440; 0x20 ]%N.
(** "Створено новий контакт: " *)
Definition CREATED_1 : pystr :=
  [ 0x421; 0x442; 0x432; 0x43e; 0x440; 0x435; 0x43d; 0x43e; 0x20; 0x43d;
    0x43e; 0x432; 0x438; 0x439; 0x20; 0x43a; 0x43e; 0x43d; 0x442; 0x430;
    0x43a; 0x442; 0x3a; 0x20 ]%N.
(** " з номером " *)
Definition CREATED_2 : pystr :=
  [ 0x20; 0x437; 0x20; 0x43d; 0x43e; 0x43c; 0x435; 0x440; 0x43e; 0x43c;
    0x20 ]%N.
(** "У " *)
Definition AT : pystr := [ 0x423; 0x20 ]%N.
(** " замінено номер " *)
Definition CHANGED_2 : pystr :=
  [ 0x20; 0x437; 0x430; 0x43c; 0x456; 0x43d; 0x435; 0x43d; 0x43e; 0x20;
    0x43d; 0x43e; 0x43c; 0x435; 0x440; 0x20 ]%N.
(** " на " *)
Definition CHANGED_3 : pystr := [ 0x20; 0x43d; 0x430; 0x20 ]%N.
(** " не знайдено номер " *)
Definition NO_PHONE_2 : pystr :=
  [ 0x20; 0x43d; 0x435; 0x20; 0x437; 0x43d; 0x430; 0x439; 0x434; 0x435;
    0x43d; 0x43e; 0x20; 0x43d; 0x43e; 0x43c; 0x435; 0x440; 0x20 ]%N.
(** "Для " *)
Definition FOR : pystr := [ 0x414; 0x43b; 0x44f; 0x20 ]%N.
(** " встановлено день народження: " *)
Definition BIRTHDAY_SET_2 : pystr :=
  [ 0x20; 0x432; 0x441; 0x442; 0x430; 0x43d; 0x43e; 0x432; 0x43b; 0x435;
    0x43d; 0x43e; 0x20; 0x434; 0x435; 0x43d; 0x44c; 0x20; 0x43d; 0x430;
    0x440; 0x43e; 0x434; 0x436; 0x435; 0x43d; 0x43d; 0x44f; 0x3a; 0x20 ]%N.
(** " день народження не вказано." *)
Definition NO_BIRTHDAY_2 : pystr :=
  [ 0x20; 0x434; 0x435; 0x43d; 0x44c; 0x20; 0x43d; 0x430; 0x440; 0x43e;
    0x434; 0x436; 0x435; 0x43d; 0x43d; 0x44f; 0x20; 0x43d; 0x435; 0x20;
    0x432; 0x43a; 0x430; 0x437; 0x430; 0x43d; 0x43e; 0x2e ]%N.
(** "День народження " *)
Definition BIRTHDAY_IS_1 : pystr :=
  [ 0x414; 0x435; 0x43d; 0x44c; 0x20; 0x43d; 0x430; 0x440; 0x43e; 0x434;
    0x436; 0x435; 0x43d; 0x43d; 0x44f; 0x20 ]%N.

(** The [except KeyError] branch of [add_contact]: a new record with the
    phone is added to the book; if the phone is rejected the record is
    dropped before it reaches the book. *)
Definition add_contact_new (name phone : pystr) (book : AddressBook)
  : AddressBook * outcome :=
  match Record_init name with
  | Raise e => (book, Raises e)
  | Ok rec =>
      match add_phone phone rec with
      | (_, Raise e) => (book, Raises e)
      | (rec, Ok _) =>
          match add_record rec book with
          | (book, Raise e) => (book, Raises e)
          | (book, Ok _) =>
              (book, Returns (CREATED_1 ++ name ++ CREATED_2 ++ phone
                              ++ [DOT]))
          end
      end
  end.

(** [add_contact]. *)
Definition add_contact (args : list pystr) (book : AddressBook)
  : AddressBook * outcome :=
  match args with
  | name :: phone :: _ =>
      match on_record name (add_phone phone) book with
      | (book, Ok _) =>
          (book, Returns (ADDED_1 ++ name ++ ADDED_2 ++ phone ++ [DOT]))
      | (book, Raise KeyError) => add_contact_new name phone book
      | (book, Raise e) => (book, Raises e)
      end
  | _ => (book, RaisesIndexError)
  end.

(** [change_phone]. *)
Definition change_phone (args : list pystr) (book : AddressBook)
  : AddressBook * outcome :=
  match args with
  | name :: old_phone :: new_phone :: _ =>
      match on_record name (edit_phone old_phone new_phone) book with
      | (book, Ok true) =>
          (book, Returns (AT ++ name ++ CHANGED_2 ++ old_phone ++ CHANGED_3
                          ++ new_phone ++ [DOT]))
      | (book, Ok false) =>
          (book, Returns (AT ++ name ++ NO_PHONE_2 ++ old_phone ++ [DOT]))
      | (book, Raise e) => (book, Raises e)
      end
  | _ => (book, RaisesIndexError)
  end.

(** [add_birthday], the handler. *)
Definition add_birthday (args : list pystr) (book : AddressBook)
  : AddressBook * outcome :=
  match args with
  | name :: bday_str :: _ =>
      match on_record name (add_birthday bday_str) book with
      | (book, Ok _) =>
          (book, Returns (FOR ++ name ++ BIRTHDAY_SET_2 ++ bday_str))
      | (book, Raise e) => (book, Raises e)
      end
  | _ => (book, RaisesIndexError)
  end.

(** [show_birthday], the handler; it reads the book only. *)
Definition show_birthday (libc : PyDate.year_style) (args : list pystr)
    (book : AddressBook) : outcome :=
  match args with
  | name :: _ =>
      match find name book with
      | Raise e => Raises e
      | Ok rec =>
          let bday_str := show_birthday libc rec in
          if eqb bday_str NOT_SET
          then Returns (AT ++ name ++ NO_BIRTHDAY_2)
          else Returns (BIRTHDAY_IS_1 ++ name ++ [0x3a; 0x20]%N ++ bday_str)
      end
  | [] => RaisesIndexError
  end.

End Handlers.

(** ** The command loop

    What the loop of [main] does to the book.  An input line is taken as it
    is after [split] and [lower]: the command word and its arguments.  Of
    the handlers in [COMMANDS] only [add_contact], [change_phone] and
    [add_birthday] write to the book; [input_error] catches what a handler
    raises, so the loop goes on with the book as the handler left it. *)
Definition dispatch (command : pystr) (args : list pystr)
    (address_book : AddressBook) : AddressBook :=
  if eqb command (lit "add")
  then fst (Handlers.add_contact args address_book)
  else if eqb command (lit "change")
  then fst (Handlers.change_phone args address_book)
  else if eqb command (lit "add-birthday")
  then fst (Handlers.add_birthday args address_book)
  else address_book.

(** The loop of [main] on the lines typed: the book handed to
    [save_address_book] at the first [close] or [exit], and [None] if
    neither was typed. *)
Fixpoint main_loop (inputs : list (pystr * list pystr))
    (address_book : AddressBook) : option AddressBook :=
  match inputs with
  | [] => None
  | (command, args) :: inputs =>
      if eqb command (lit "close") || eqb command (lit "exit")
      then Some address_book
      else main_loop inputs (dispatch command args address_book)
  end.

(** ** Notions used by the facts below *)

(** What holds of every record of a book throughout a session: its phones
    are ones [Phone] accepts and its birthday, if any, is a date of the
    calendar. *)
Definition record_ok (rec : record) : Prop :=
  phones_valid rec
  /\ (forall b, birthday rec = Some b -> PyDate.wf (Birthday_value b) = true).

Definition session_inv (book : AddressBook) : Prop :=
  book_wf book /\ Forall (fun kr => record_ok kr.2) book.

(** The 29th of February. *)
Definition leap_day (d : PyDate.date) : Prop :=
  PyDate.month d = 2%Z /\ PyDate.day d = 29%Z.

(** Monday to Friday. *)
Definition working_day (d : PyDate.date) : Prop :=
  (0 <= PyDate.weekday d <= 4)%Z.

(** A text of ten ASCII digits and full stops, as DD.MM.YYYY has. *)
Definition strict_text (s : pystr) : Prop :=
  length s = 10
  /\ Forall (fun c => is_ascii_digit c = true \/ c = DOT) s.

(** The birthdays of a book are dates of the calendar. *)
Definition birthdays_wf (book : AddressBook) : Prop :=
  Forall (fun rec => forall b, birthday rec = Some b ->
                               PyDate.wf (Birthday_value b) = true)
    (PyDict.values book).

(** The month and the day of the [n]-th day of a year, the way the end of
    [ord2ymd] finds them. *)
Definition month_day (leapyear : bool) (n : Z) : Z * Z :=
  (let month := Z.shiftr (n + 50) 5 in
   let preceding :=
     PyDate.index PyDate.DAYS_BEFORE_MONTH month
     + Z.b2z ((2 <? month) && leapyear) in
   let '(month, preceding) :=
     if n <? preceding
     then (month - 1,
           preceding - (PyDate.index PyDate.DAYS_IN_MONTH (month - 1)
                        + Z.b2z ((month - 1 =? 2) && leapyear)))
     else (month, preceding) in
   (month, n - preceding + 1))%Z.

(** Checks run over the days of a year and its months. *)
Definition month_day_check (leapyear : bool) (n : Z) : bool :=
  (let '(m, d) := month_day leapyear n in
   (1 <=? m) && (m <=? 12) && (1 <=? d)
   && (d <=? (if (m =? 2) && leapyear then 29
              else PyDate.index PyDate.DAYS_IN_MONTH m))
   && (PyDate.index PyDate.DAYS_BEFORE_MONTH m
       + Z.b2z ((2 <? m) && leapyear) + d =? n + 1))%Z.

Definition day_of_year_check (leap : bool) (m : Z) : bool :=
  (let dbm := PyDate.index PyDate.DAYS_BEFORE_MONTH m
              + Z.b2z ((2 <? m) && leap) in
   let dim := if (m =? 2) && leap then 29
              else PyDate.index PyDate.DAYS_IN_MONTH m in
   (0 <=? dbm) && (dbm + dim <=? 365 + Z.b2z leap)
   && ((m =? 12)
       || (PyDate.index PyDate.DAYS_BEFORE_MONTH (m + 1)
           + Z.b2z ((2 <? m + 1) && leap) =? dbm + dim)))%Z.

Definition month_order_check (leap : bool) (m : Z) : bool :=
  forallb (fun i =>
    let m' := (1 + Z.of_nat i)%Z in
    (m' <=? m)
    || (PyDate.index PyDate.DAYS_BEFORE_MONTH m + Z.b2z ((2 <? m) && leap)
        + (if (m =? 2) && leap then 29 else PyDate.index PyDate.DAYS_IN_MONTH m)
        <=? PyDate.index PyDate.DAYS_BEFORE_MONTH m'
            + Z.b2z ((2 <? m') && leap)))%Z
    (seq 0 12).

(** * Facts *)

(** ** Strings *)

Lemma eqb_eq (a b : pystr) : eqb a b = true <-> a = b.
Proof. unfold eqb. apply bool_decide_eq_true. Qed.

Lemma eqb_neq (a b : pystr) : eqb a b = false <-> a <> b.
Proof. unfold eqb. apply bool_decide_eq_false. Qed.

Lemma eqb_refl (a : pystr) : eqb a a = true.
Proof. by apply eqb_eq. Qed.

Lemma ascii_digit_is_decimal (c : N) :
  is_ascii_digit c = true -> is_decimal c = true.
Proof.
  unfold is_ascii_digit, is_decimal. intros H.
  apply existsb_exists. exists 0x30%N. split; [by left |].
  unfold in_run. apply andb_true_iff in H as [H1 H2].
  apply andb_true_iff. split; [done |].
  apply N.ltb_lt. apply N.leb_le in H2. lia.
Qed.

Lemma ascii_digit_isdigit_char (c : N) :
  is_ascii_digit c = true -> isdigit_char c = true.
Proof.
  intros H. unfold isdigit_char. by rewrite ascii_digit_is_decimal.
Qed.

Lemma isdigit_spec (s : pystr) :
  isdigit s = true <-> s <> [] /\ Forall (fun c => isdigit_char c = true) s.
Proof.
  unfold isdigit. destruct s as [| c s].
  - split; [done | by intros [? _]].
  - rewrite forallb_forall, Forall_forall. split.
    + intros H. split; [done |]. intros x Hx. apply H. by apply list_elem_of_In.
    + intros [_ H] x Hx. apply H. by apply list_elem_of_In.
Qed.

(** ** Phones *)

Lemma Phone_init_ok_iff (raw : pystr) (p : Phone) :
  Phone_init raw = Ok p <->
  length raw = 10 /\ Forall (fun c => isdigit_char c = true) raw
  /\ p = mkPhone raw.
Proof.
  unfold Phone_init.
  destruct (isdigit raw) eqn:Hd; destruct (length raw =? 10) eqn:Hl; simpl.
  - apply Nat.eqb_eq in Hl. apply isdigit_spec in Hd as [_ Hd].
    split; [by intros [= <-] | by intros (_ & _ & ->)].
  - apply Nat.eqb_neq in Hl. split; [done | by intros (? & _)].
  - split; [done |]. intros (Hl' & Hall & _).
    assert (isdigit raw = true) as Hd'; [| congruence].
    apply isdigit_spec. split; [by destruct raw | done].
  - apply Nat.eqb_neq in Hl. split; [done | by intros (? & _)].
Qed.

Lemma Phone_init_raises (raw : pystr) :
  is_ok (Phone_init raw) = false -> Phone_init raw = Raise ValueError.
Proof. unfold Phone_init. by destruct (negb _). Qed.

Lemma Phone_init_inv (raw : pystr) (p : Phone) :
  Phone_init raw = Ok p -> p = mkPhone raw.
Proof. intros H. by apply Phone_init_ok_iff in H as (_ & _ & ->). Qed.

(** C3, as the code has it: [Phone(raw)] succeeds exactly when [raw] has ten
    characters that [str.isdigit] counts as digits, which every string of
    ten ASCII digits does but not only those; a phone that was accepted
    displays the very string it was made from, and every rejection is a
    [ValueError]. *)
Theorem Phone_init_spec (raw : pystr) :
  (is_ok (Phone_init raw) = true <->
   length raw = 10 /\ Forall (fun c => isdigit_char c = true) raw)
  /\ (length raw = 10 -> forallb is_ascii_digit raw = true ->
      Phone_init raw = Ok (mkPhone raw))
  /\ (forall p, Phone_init raw = Ok p -> Phone_str p = raw)
  /\ (is_ok (Phone_init raw) = false -> Phone_init raw = Raise ValueError).
Proof.
  split; [split |]; [| | split; [| split]].
  - destruct (Phone_init raw) as [p |] eqn:H; [| done].
    intros _. by apply Phone_init_ok_iff in H as (? & ? & _).
  - intros [Hl Hall]. by rewrite (proj2 (Phone_init_ok_iff raw (mkPhone raw))).
  - intros Hl Hall. apply Phone_init_ok_iff. repeat split; [done |].
    rewrite forallb_forall in Hall. apply Forall_forall. intros c Hc.
    apply ascii_digit_isdigit_char, Hall. by apply list_elem_of_In.
  - intros p H. apply Phone_init_inv in H. by subst.
  - apply Phone_init_raises.
Qed.

Lemma Phone_init_spec_witness :
  Phone_init (lit "0501234567") = Ok (mkPhone (lit "0501234567"))
  /\ Phone_init (lit "050-123-45") = Raise ValueError.
Proof.
  split.
  - apply (Phone_init_spec (lit "0501234567")); reflexivity.
  - apply (Phone_init_spec (lit "050-123-45")); reflexivity.
Defined.

(** C3 as stated fails: ten Arabic-Indic digits are accepted, and none of
    them is an ASCII digit. *)
Lemma Phone_init_accepts_non_ascii_digits :
  Phone_init Sample.arabic_twos = Ok (mkPhone Sample.arabic_twos)
  /\ length Sample.arabic_twos = 10
  /\ existsb is_ascii_digit Sample.arabic_twos = false.
Proof. by vm_compute. Qed.

(** ** Records *)

(** C5, as the code has it: [Record(name)] succeeds for every string, the
    empty one and blank ones included, and holds that name, no phone and
    no birthday. *)
Theorem Record_init_total (n : pystr) :
  Record_init n = Ok (mkRecord (mkName n) [] None).
Proof. reflexivity. Qed.

(** C5 as stated fails: the empty name and a name of three blanks are
    accepted. *)
Lemma Record_init_accepts_blank_names :
  is_ok (Record_init []) = true /\ is_ok (Record_init (lit "   ")) = true
  /\ (forall e, Record_init [] <> Raise e)
  /\ (forall e, Record_init (lit "   ") <> Raise e).
Proof. repeat split; done. Qed.

Lemma edit_phone_found (self : record) (old_phone new_phone : pystr) idx :
  first_phone old_phone (phones self) idx ->
  edit_phone old_phone new_phone self =
  match Phone_init new_phone with
  | Ok p => (set_phones (<[idx := p]> (phones self)) self, Ok true)
  | Raise e => (self, Raise e)
  end.
Proof.
  intros [(ph & Hph & Hv) Hfirst].
  assert (list_find (fun ph => Phone_value ph = old_phone) (phones self)
          = Some (idx, ph)) as Hfind.
  { apply list_find_Some. repeat split; [done | done |].
    intros j y Hy Hj. by apply (Hfirst j y). }
  unfold edit_phone, mbind, get, lift, put, ret. rewrite Hfind.
  by destruct (Phone_init new_phone).
Qed.

Lemma edit_phone_not_found (self : record) (old_phone new_phone : pystr) :
  Forall (fun ph => Phone_value ph <> old_phone) (phones self) ->
  edit_phone old_phone new_phone self = (self, Ok false).
Proof.
  intros Hall.
  assert (list_find (fun ph => Phone_value ph = old_phone) (phones self)
          = None) as Hfind by by apply list_find_None.
  unfold edit_phone, mbind, get, ret. by rewrite Hfind.
Qed.

(** C2, as the code has it: the new number is validated only once a stored
    phone equal to the old one is found.  Then an invalid new number raises
    [ValueError] and nothing is changed, and a valid one replaces the first
    such phone where it stands, with [True] returned; when no stored phone
    equals the old number the record is unchanged and [False] is returned,
    whatever the new number is. *)
Theorem edit_phone_spec (self : record) (old_phone new_phone : pystr) :
  (forall idx, first_phone old_phone (phones self) idx ->
     is_ok (Phone_init new_phone) = false ->
     edit_phone old_phone new_phone self = (self, Raise ValueError))
  /\ (forall idx, first_phone old_phone (phones self) idx ->
        is_ok (Phone_init new_phone) = true ->
        edit_phone old_phone new_phone self =
        (set_phones (<[idx := mkPhone new_phone]> (phones self)) self,
         Ok true))
  /\ (Forall (fun ph => Phone_value ph <> old_phone) (phones self) ->
      edit_phone old_phone new_phone self = (self, Ok false)).
Proof.
  split; [| split].
  - intros idx Hidx Hnew. rewrite (edit_phone_found _ _ _ idx Hidx).
    by rewrite (Phone_init_raises _ Hnew).
  - intros idx Hidx Hnew. rewrite (edit_phone_found _ _ _ idx Hidx).
    destruct (Phone_init new_phone) as [p |] eqn:Hp; [| done].
    by rewrite (Phone_init_inv _ _ Hp).
  - apply edit_phone_not_found.
Qed.

Lemma first_phone_sample :
  first_phone (lit "2222222222")
    (phones (Sample.contact "Ann" ["1111111111"; "2222222222"] None)) 1.
Proof.
  split.
  - by eexists.
  - intros j ph Hj Hlt. assert (j = 0) as -> by lia.
    injection Hj as <-. by vm_compute.
Qed.

Lemma edit_phone_spec_witness :
  let ann := Sample.contact "Ann" ["1111111111"; "2222222222"] None in
  edit_phone (lit "2222222222") (lit "33") ann = (ann, Raise ValueError)
  /\ edit_phone (lit "2222222222") (lit "3333333333") ann =
     (Sample.contact "Ann" ["1111111111"; "3333333333"] None, Ok true)
  /\ edit_phone (lit "4444444444") (lit "33") ann = (ann, Ok false).
Proof.
  intros ann.
  pose proof (edit_phone_spec ann (lit "2222222222") (lit "33")) as (H1 & _ & _).
  pose proof (edit_phone_spec ann (lit "2222222222") (lit "3333333333"))
    as (_ & H2 & _).
  pose proof (edit_phone_spec ann (lit "4444444444") (lit "33")) as (_ & _ & H3).
  split; [| split].
  - apply (H1 1); [apply first_phone_sample | reflexivity].
  - apply (H2 1); [apply first_phone_sample | reflexivity].
  - apply H3. repeat constructor; by vm_compute.
Defined.

(** C2 as stated fails: with no stored phone equal to the old number, an
    invalid new number raises nothing and [False] is returned. *)
Lemma edit_phone_unmatched_old_invalid_new :
  let ann := Sample.contact "Ann" ["1111111111"] None in
  is_ok (Phone_init (lit "33")) = false
  /\ edit_phone (lit "2222222222") (lit "33") ann = (ann, Ok false)
  /\ snd (edit_phone (lit "2222222222") (lit "33") ann) <> Raise ValueError.
Proof. by vm_compute. Qed.

Lemma existsb_phone_value (v : pystr) (ps : list Phone) :
  existsb (fun p => eqb (Phone_value p) v) ps = true
  <-> v ∈ Phone_value <$> ps.
Proof.
  rewrite existsb_exists, list_elem_of_fmap. split.
  - intros (p & Hin & Heq). exists p. apply eqb_eq in Heq.
    split; [done | by apply list_elem_of_In].
  - intros (p & -> & Hin). exists p.
    split; [by apply list_elem_of_In | apply eqb_refl].
Qed.

Lemma add_phone_invalid (s : pystr) (self : record) :
  is_ok (Phone_init s) = false -> add_phone s self = (self, Raise ValueError).
Proof.
  intros H. unfold add_phone, mbind, lift.
  by rewrite (Phone_init_raises _ H).
Qed.

Lemma add_phone_present (s : pystr) (self : record) :
  is_ok (Phone_init s) = true -> s ∈ Phone_value <$> phones self ->
  add_phone s self = (self, Ok tt).
Proof.
  intros Hok Hin. unfold add_phone, mbind, lift, get.
  destruct (Phone_init s) as [p |] eqn:Hp; [| done].
  apply Phone_init_inv in Hp as ->. simpl.
  by rewrite (proj2 (existsb_phone_value s (phones self)) Hin).
Qed.

Lemma add_phone_absent (s : pystr) (self : record) :
  is_ok (Phone_init s) = true -> s ∉ Phone_value <$> phones self ->
  add_phone s self = (set_phones (phones self ++ [mkPhone s]) self, Ok tt).
Proof.
  intros Hok Hin. unfold add_phone, mbind, lift, get.
  destruct (Phone_init s) as [p |] eqn:Hp; [| done].
  apply Phone_init_inv in Hp as ->. simpl.
  destruct (existsb _ _) eqn:He; [| done].
  by apply existsb_phone_value in He.
Qed.

Lemma add_phone_cases (s : pystr) (self : record) :
  fst (add_phone s self) = self
  \/ ((s ∉ Phone_value <$> phones self)
      /\ Phone_init s = Ok (mkPhone s)
      /\ fst (add_phone s self) = set_phones (phones self ++ [mkPhone s]) self).
Proof.
  destruct (Phone_init s) as [p |] eqn:Hp.
  - destruct (decide (s ∈ Phone_value <$> phones self)) as [Hin | Hin].
    + left. rewrite add_phone_present; [done | by rewrite Hp | done].
    + right. rewrite add_phone_absent; [| by rewrite Hp | done].
      by rewrite (Phone_init_inv _ _ Hp) in *.
  - left. rewrite add_phone_invalid; [done | by rewrite Hp].
Qed.

(** [add_phone] keeps the numbers of a record pairwise different. *)
Lemma add_phone_unique (s : pystr) (self : record) :
  phones_unique self -> phones_unique (fst (add_phone s self)).
Proof.
  intros Hu. destruct (add_phone_cases s self) as [-> | (Hin & _ & ->)].
  - done.
  - unfold phones_unique in *. simpl. rewrite fmap_app. apply NoDup_app.
    repeat split; [done | | apply NoDup_singleton].
    intros x Hx Hx'. apply list_elem_of_singleton in Hx'. by subst.
Qed.

(** Adding a valid number that is stored already changes nothing: adding a
    number twice stores it once. *)
Lemma add_phone_twice (s : pystr) (self : record) :
  add_phone s (fst (add_phone s self)) =
  (fst (add_phone s self), snd (add_phone s self)).
Proof.
  destruct (is_ok (Phone_init s)) eqn:Hok.
  - destruct (decide (s ∈ Phone_value <$> phones self)) as [Hin | Hin].
    + rewrite (add_phone_present s self Hok Hin). simpl.
      by apply add_phone_present.
    + rewrite (add_phone_absent s self Hok Hin). simpl.
      apply add_phone_present; [done |]. simpl.
      rewrite fmap_app. apply elem_of_app. right. by left.
  - rewrite (add_phone_invalid s self Hok). simpl.
    by apply add_phone_invalid.
Qed.

(** [remove_phone] keeps the numbers of a record pairwise different. *)
Lemma remove_phone_unique (s : pystr) (self : record) :
  phones_unique self -> phones_unique (fst (remove_phone s self)).
Proof.
  intros Hu. unfold remove_phone, mbind, get.
  destruct (list_find _ _) as [[idx ph] |]; [| done].
  unfold phones_unique in *. simpl. rewrite list_fmap_delete.
  eapply sublist_NoDup; [done | apply sublist_delete].
Qed.

(** C4 fails on [edit_phone]: unlike [add_phone], it does not look whether
    the new number is stored already.  A record built by two [add_phone]
    calls holds two different valid numbers; editing the second into the
    first succeeds and leaves the first number stored twice. *)
Theorem edit_phone_breaks_uniqueness :
  let ann := Sample.contact "Ann" ["1111111111"; "2222222222"] None in
  let ann' := Sample.contact "Ann" ["1111111111"; "1111111111"] None in
  (r0 <-? Record_init (lit "Ann") ;;
   Ok (fst (add_phone (lit "2222222222")
              (fst (add_phone (lit "1111111111") r0)))))%py = Ok ann
  /\ phones_unique ann
  /\ edit_phone (lit "2222222222") (lit "1111111111") ann = (ann', Ok true)
  /\ ~ phones_unique ann'.
Proof.
  intros ann ann'. split; [by vm_compute |]. split; [| split].
  - unfold phones_unique. apply (bool_decide_unpack _). by vm_compute.
  - by vm_compute.
  - unfold phones_unique. intros H. apply NoDup_cons in H as [H _].
    apply H. by left.
Qed.

(** ** Dictionaries *)

Section dict_facts.
Context {V : Type}.
Implicit Types (k : pystr) (v : V) (d : PyDict.dict V).

Lemma get_set_eq k v d : PyDict.get k (PyDict.set k v d) = Some v.
Proof.
  induction d as [| [k' v'] d IH]; simpl.
  - by rewrite eqb_refl.
  - destruct (eqb k' k) eqn:E; simpl; by rewrite E.
Qed.

Lemma get_set_ne k k' v d :
  k <> k' -> PyDict.get k' (PyDict.set k v d) = PyDict.get k' d.
Proof.
  intros Hne. induction d as [| [k0 v0] d IH]; simpl.
  - by rewrite (proj2 (eqb_neq k k')).
  - destruct (eqb k0 k) eqn:E; simpl; [| by rewrite IH].
    apply eqb_eq in E as ->. by rewrite (proj2 (eqb_neq k k')).
Qed.

Lemma set_fresh k v d :
  k ∉ PyDict.keys d -> PyDict.set k v d = d ++ [(k, v)].
Proof.
  induction d as [| [k' v'] d IH]; simpl; [done |].
  intros [Hne Hin]%not_elem_of_cons.
  rewrite (proj2 (eqb_neq k' k)); [| done]. by rewrite IH.
Qed.

Lemma keys_set_present k v d :
  k ∈ PyDict.keys d -> PyDict.keys (PyDict.set k v d) = PyDict.keys d.
Proof.
  induction d as [| [k' v'] d IH]; simpl.
  - by intros ?%elem_of_nil.
  - intros Hin. destruct (eqb k' k) eqn:E; [done |].
    apply eqb_neq in E. apply elem_of_cons in Hin as [-> | Hin]; [done |].
    change (k' :: PyDict.keys (PyDict.set k v d) = k' :: PyDict.keys d).
    by rewrite IH.
Qed.

Lemma keys_set k v d :
  PyDict.keys (PyDict.set k v d) =
  if decide (k ∈ PyDict.keys d) then PyDict.keys d
  else PyDict.keys d ++ [k].
Proof.
  destruct (decide _) as [Hin | Hin].
  - by apply keys_set_present.
  - rewrite set_fresh by done. unfold PyDict.keys. by rewrite fmap_app.
Qed.

Lemma NoDup_keys_set k v d :
  NoDup (PyDict.keys d) -> NoDup (PyDict.keys (PyDict.set k v d)).
Proof.
  intros Hd. rewrite keys_set. destruct (decide _) as [Hin | Hin]; [done |].
  apply NoDup_app. repeat split; [done | | apply NoDup_singleton].
  intros x Hx ?%list_elem_of_singleton. by subst.
Qed.

Lemma keys_del_sublist k d :
  PyDict.keys (PyDict.del k d) `sublist_of` PyDict.keys d.
Proof.
  induction d as [| [k' v'] d IH]; simpl; [done |].
  destruct (eqb k' k); simpl.
  - by apply sublist_cons.
  - by apply sublist_skip.
Qed.

Lemma Forall_set (P : pystr * V -> Prop) k v d :
  P (k, v) -> Forall P d -> Forall P (PyDict.set k v d).
Proof.
  intros Hkv. induction 1 as [| [k' v'] d Hx Hd IH]; simpl.
  - by repeat constructor.
  - destruct (eqb k' k) eqn:E.
    + apply eqb_eq in E as ->. by constructor.
    + by constructor.
Qed.

Lemma Forall_del (P : pystr * V -> Prop) k d :
  Forall P d -> Forall P (PyDict.del k d).
Proof.
  induction 1 as [| [k' v'] d Hx Hd IH]; simpl; [done |].
  destruct (eqb k' k); [done | by constructor].
Qed.

Lemma get_Some_elem k v d : PyDict.get k d = Some v -> (k, v) ∈ d.
Proof.
  induction d as [| [k' v'] d IH]; simpl; [done |].
  destruct (eqb k' k) eqn:E.
  - apply eqb_eq in E as ->. intros [= ->]. by left.
  - intros H. right. by apply IH.
Qed.

Lemma get_None_keys k d : PyDict.get k d = None <-> k ∉ PyDict.keys d.
Proof.
  induction d as [| [k' v'] d IH]; simpl.
  - split; [intros _ ?%elem_of_nil; done | done].
  - rewrite not_elem_of_cons. destruct (eqb k' k) eqn:E.
    + apply eqb_eq in E as ->. split; [done | by intros [? _]].
    + apply eqb_neq in E. rewrite IH. split; [by intros ? | by intros [_ ?]].
Qed.

(** What is stored under [k] after [d[k] = v] is [v] alone. *)
Lemma filter_key_set k v d :
  NoDup (PyDict.keys d) ->
  filter (fun kv => kv.1 = k) (PyDict.set k v d) = [(k, v)].
Proof.
  assert (forall d', k ∉ PyDict.keys d' ->
                     filter (fun kv : pystr * V => kv.1 = k) d' = []) as Hnone.
  { intros d'. induction d' as [| [k' v'] d' IH]; [done |].
    unfold PyDict.keys. rewrite fmap_cons.
    intros [Hne Hin]%not_elem_of_cons.
    rewrite filter_cons_False by (simpl; intros ?; by subst). by apply IH. }
  induction d as [| [k' v'] d IH]; cbn [PyDict.set].
  - intros _. by rewrite filter_cons_True.
  - unfold PyDict.keys. rewrite fmap_cons.
    intros [Hk' Hd]%NoDup_cons. destruct (eqb k' k) eqn:E.
    + apply eqb_eq in E as ->. rewrite filter_cons_True by done.
      by rewrite Hnone.
    + apply eqb_neq in E. rewrite filter_cons_False by done. by apply IH.
Qed.
End dict_facts.

(** ** The book *)

Lemma record_op_name (o : record_op) (self : record) :
  name (fst (run_record_op o self)) = name self.
Proof.
  destruct o as [p | p | a b | s]; simpl.
  - by destruct (add_phone_cases p self) as [-> | (_ & _ & ->)].
  - unfold remove_phone, mbind, get. by destruct (list_find _ _) as [[? ?] |].
  - unfold edit_phone, mbind, get, lift.
    destruct (list_find _ _) as [[? ?] |]; [| done].
    by destruct (Phone_init b).
  - unfold add_birthday, mbind, lift. by destruct (Birthday_init s).
Qed.

Lemma book_wf_nil : book_wf [].
Proof. split; [apply NoDup_nil_2 | done]. Qed.

Lemma add_record_wf (rec : record) (book : AddressBook) :
  book_wf book -> book_wf (fst (add_record rec book)).
Proof.
  intros [Hk Hn]. split; simpl.
  - by apply NoDup_keys_set.
  - by apply Forall_set.
Qed.

Lemma delete_wf (n : pystr) (book : AddressBook) :
  book_wf book -> book_wf (fst (delete n book)).
Proof.
  intros [Hk Hn]. unfold delete. destruct (PyDict.contains n book); [| done].
  split; simpl.
  - eapply sublist_NoDup; [done | apply keys_del_sublist].
  - by apply Forall_del.
Qed.

Lemma on_record_wf (n : pystr) (o : record_op) (book : AddressBook) :
  book_wf book -> book_wf (fst (on_record n (run_record_op o) book)).
Proof.
  intros [Hk Hn]. unfold on_record, find.
  destruct (PyDict.get n book) as [rec |] eqn:Hget; [| done].
  pose proof (record_op_name o rec) as Hname.
  destruct (run_record_op o rec) as [rec' r]. simpl in *.
  split.
  - by apply NoDup_keys_set.
  - apply Forall_set; [| done]. rewrite Hname.
    apply get_Some_elem in Hget. rewrite Forall_forall in Hn.
    apply (Hn _ Hget).
Qed.

Lemma run_op_wf (o : op) (book : AddressBook) :
  book_wf book -> book_wf (run_op o book).
Proof.
  intros Hwf. destruct o as [rec | n | n ro]; simpl.
  - by apply add_record_wf.
  - by apply delete_wf.
  - by apply on_record_wf.
Qed.

Lemma run_ops_wf (os : list op) (book : AddressBook) :
  book_wf book -> book_wf (run_ops os book).
Proof.
  revert book. induction os as [| o os IH]; intros book Hwf; [done |].
  apply IH. by apply run_op_wf.
Qed.

(** C8: on every book reached from the empty one by operations of the
    interface, [add_record] returns [None] and never raises; afterwards the
    record's name leads to exactly that record, which is all that is stored
    under the name; other names are untouched; and the book holds at most
    one record per name, before and after. *)
Theorem add_record_spec (os : list op) (rec : record) :
  let book := run_ops os [] in
  let book' := fst (add_record rec book) in
  let key := Name_value (name rec) in
  snd (add_record rec book) = Ok tt
  /\ find key book' = Ok rec
  /\ filter (fun kv => kv.1 = key) book' = [(key, rec)]
  /\ (forall other, other <> key -> find other book' = find other book)
  /\ book_wf book /\ book_wf book'.
Proof.
  intros book book' key.
  assert (book_wf book) as Hwf by apply run_ops_wf, book_wf_nil.
  split; [done |]. split; [| split; [| split; [| split]]].
  - unfold find, book', add_record; simpl. by rewrite get_set_eq.
  - apply filter_key_set, Hwf.
  - intros other Hne. unfold find, book', add_record; simpl.
    by rewrite get_set_ne.
  - done.
  - by apply add_record_wf.
Qed.

Lemma add_record_spec_witness :
  let ann := Sample.contact "Ann" ["1111111111"] None in
  let ann' := Sample.contact "Ann" ["2222222222"] (Some (1, 2, 1990)%Z) in
  let bob := Sample.contact "Bob" [] None in
  let book := run_ops [AddRecord ann; AddRecord bob] [] in
  find (lit "Ann") (fst (add_record ann' book)) = Ok ann'
  /\ find (lit "Bob") (fst (add_record ann' book)) = Ok bob.
Proof.
  intros ann ann' bob book.
  pose proof (add_record_spec [AddRecord ann; AddRecord bob] ann')
    as (_ & H1 & _ & H2 & _).
  split; [exact H1 |].
  transitivity (find (lit "Bob") book); [| reflexivity].
  apply (H2 (lit "Bob")). by vm_compute.
Defined.

(** ** Upcoming birthdays *)

Lemma upcoming_loop_ok (libc : PyDate.year_style) (today : PyDate.date)
    (records : list record) (acc out : list greeting) :
  upcoming_loop libc today records acc = Ok out <->
  Forall (fun rec => is_ok (upcoming_body libc today rec) = true) records
  /\ out = acc ++ omap (entry_of libc today) records.
Proof.
  revert acc. induction records as [| rec rest IH]; intros acc; simpl.
  - rewrite app_nil_r. split; [by intros [= ->] | by intros [_ ->]].
  - unfold entry_of at 1, bind.
    destruct (upcoming_body libc today rec) as [[g |] |] eqn:Hb.
    + rewrite IH, Forall_cons, <- app_assoc, Hb. simpl.
      split; [by intros [? ?] | by intros [[_ ?] ?]].
    + rewrite IH, Forall_cons, Hb. simpl.
      split; [by intros [? ?] | by intros [[_ ?] ?]].
    + rewrite Forall_cons, Hb. split; [done | by intros [[? _] _]].
Qed.

Lemma upcoming_loop_raises (libc : PyDate.year_style) (today : PyDate.date)
    (records : list record) (acc : list greeting) (rec : record) :
  rec ∈ records -> upcoming_body libc today rec = Raise ValueError ->
  (forall r e, r ∈ records -> upcoming_body libc today r = Raise e ->
               e = ValueError) ->
  upcoming_loop libc today records acc = Raise ValueError.
Proof.
  intros Hin Hrec Hall.
  destruct (upcoming_loop libc today records acc) as [out | e] eqn:Hloop.
  - apply upcoming_loop_ok in Hloop as [Hok _].
    rewrite Forall_forall in Hok. specialize (Hok rec Hin). by rewrite Hrec in Hok.
  - clear Hin Hrec rec. f_equal. revert acc Hloop Hall.
    induction records as [| r rest IH]; intros acc Hloop Hall; [done |].
    simpl in Hloop. unfold bind in Hloop.
    destruct (upcoming_body libc today r) as [[g |] |] eqn:Hb.
    + apply (IH _ Hloop). intros r' e' Hr'. apply Hall. by right.
    + apply (IH _ Hloop). intros r' e' Hr'. apply Hall. by right.
    + injection Hloop as <-. apply (Hall r); [by left | done].
Qed.

Lemma entry_of_name (libc : PyDate.year_style) (today : PyDate.date)
    (rec : record) (g : greeting) :
  entry_of libc today rec = Some g -> greeting_name g = Name_value (name rec).
Proof.
  unfold entry_of, upcoming_body, bind. destruct (birthday rec) as [b |]; [| done].
  destruct (PyDate.replace_year _ _) as [d1 |]; [| done].
  destruct (if PyDate.lt d1 today then _ else _) as [d2 |]; [| done].
  destruct (_ && _); [| done].
  destruct (if (PyDate.weekday d2 =? 5)%Z then _ else _) as [d3 |]; [| done].
  by intros [= <-].
Qed.

(** C10: when [get_upcoming_birthdays] returns, its list holds the entries
    of the included records one after the other as the book's values come,
    so the names listed are a subsequence of the names of the book in
    iteration order; nothing is sorted. *)
Theorem upcoming_in_book_order (libc : PyDate.year_style)
    (today : PyDate.date) (book : AddressBook) (out : list greeting) :
  get_upcoming_birthdays libc today book = Ok out ->
  out = omap (entry_of libc today) (PyDict.values book)
  /\ (greeting_name <$> out)
     `sublist_of` ((fun rec => Name_value (name rec)) <$> PyDict.values book).
Proof.
  unfold get_upcoming_birthdays. intros [_ ->]%upcoming_loop_ok. simpl.
  split; [done |].
  induction (PyDict.values book) as [| rec rest IH]; simpl; [done |].
  destruct (entry_of libc today rec) as [g |] eqn:Hg; simpl.
  - rewrite (entry_of_name _ _ _ _ Hg). by apply sublist_skip.
  - by apply sublist_cons.
Qed.

Lemma upcoming_in_book_order_witness :
  let today := PyDate.mkDate 2024 6 10 in
  let book := Sample.book_of
    [ Sample.contact "Zed" [] (Some (14, 6, 1990)%Z);
      Sample.contact "Kim" [] (Some (20, 6, 1990)%Z);
      Sample.contact "Amy" [] (Some (11, 6, 1990)%Z) ] in
  let out := [ mkGreeting (lit "Zed") (lit "2024.06.14");
               mkGreeting (lit "Amy") (lit "2024.06.11") ] in
  get_upcoming_birthdays PyDate.Padded today book = Ok out
  /\ (greeting_name <$> out)
     `sublist_of` ((fun rec => Name_value (name rec)) <$> PyDict.values book).
Proof.
  intros today book out.
  assert (get_upcoming_birthdays PyDate.Padded today book = Ok out) as H
    by reflexivity.
  split; [exact H |].
  exact (proj2 (upcoming_in_book_order PyDate.Padded today book out H)).
Defined.

(** The examples of the specification: on Monday 2024-06-10 a birthday on
    Thursday the 13th is greeted that day, one on Saturday the 15th on
    Monday the 17th, and one on the 20th is not listed. *)
Example upcoming_examples :
  let today := PyDate.mkDate 2024 6 10 in
  let book := Sample.book_of
    [ Sample.contact "Thu" [] (Some (13, 6, 1990)%Z);
      Sample.contact "Sat" [] (Some (15, 6, 1990)%Z);
      Sample.contact "Far" [] (Some (20, 6, 1990)%Z) ] in
  PyDate.weekday today = 0%Z
  /\ get_upcoming_birthdays PyDate.Padded today book
     = Ok [ mkGreeting (lit "Thu") (lit "2024.06.13");
            mkGreeting (lit "Sat") (lit "2024.06.17") ].
Proof. by vm_compute. Qed.

(** A 29th of February has no place in a year that is not a leap year. *)
Lemma replace_year_leap_day (d : PyDate.date) (y : Z) :
  PyDate.is_leap y = false -> PyDate.month d = 2%Z -> PyDate.day d = 29%Z ->
  PyDate.replace_year d y = Raise ValueError.
Proof.
  intros Hleap Hm Hd.
  unfold PyDate.replace_year, PyDate.new, PyDate.valid, PyDate.days_in_month.
  rewrite Hm, Hd, Hleap. simpl. by rewrite !andb_false_r.
Qed.

Lemma upcoming_body_leap_day (libc : PyDate.year_style) (today : PyDate.date)
    (rec : record) (b : Birthday) :
  birthday rec = Some b ->
  PyDate.month (Birthday_value b) = 2%Z ->
  PyDate.day (Birthday_value b) = 29%Z ->
  PyDate.is_leap (PyDate.year today) = false ->
  upcoming_body libc today rec = Raise ValueError.
Proof.
  intros Hb Hm Hd Hleap. unfold upcoming_body. rewrite Hb.
  by rewrite replace_year_leap_day.
Qed.

(** One record born on a 29th of February makes the whole call raise in
    every year that is not a leap year, whatever else the book holds. *)
Lemma leap_day_aborts (libc : PyDate.year_style) (today : PyDate.date)
    (book : AddressBook) (rec : record) (b : Birthday) :
  rec ∈ PyDict.values book -> birthday rec = Some b ->
  PyDate.month (Birthday_value b) = 2%Z ->
  PyDate.day (Birthday_value b) = 29%Z ->
  PyDate.is_leap (PyDate.year today) = false ->
  is_ok (get_upcoming_birthdays libc today book) = false.
Proof.
  intros Hin Hb Hm Hd Hleap.
  destruct (get_upcoming_birthdays libc today book) as [out |] eqn:Hout;
    [| done].
  apply upcoming_loop_ok in Hout as [Hok _]. rewrite Forall_forall in Hok.
  specialize (Hok rec Hin).
  by rewrite (upcoming_body_leap_day _ _ _ _ Hb Hm Hd Hleap) in Hok.
Qed.

(** C7: there are a day of a year that is not a leap year and a book with a
    contact born on a 29th of February, a birthday [Birthday] accepts, for
    which projecting the birthday onto the year raises [ValueError] and
    [get_upcoming_birthdays] raises it too instead of returning a list. *)
Theorem leap_day_birthday_raises :
  exists (today : PyDate.date) (book : AddressBook) (rec : record)
         (b : Birthday),
    PyDate.wf today = true
    /\ PyDate.is_leap (PyDate.year today) = false
    /\ rec ∈ PyDict.values book
    /\ birthday rec = Some b
    /\ Birthday_init (lit "29.02.2000") = Ok b
    /\ PyDate.replace_year (Birthday_value b) (PyDate.year today)
       = Raise ValueError
    /\ forall libc, get_upcoming_birthdays libc today book = Raise ValueError.
Proof.
  exists (PyDate.mkDate 2023 6 10),
         (Sample.book_of [Sample.contact "Bob" [] (Some (29, 2, 2000)%Z)]),
         (Sample.contact "Bob" [] (Some (29, 2, 2000)%Z)),
         (mkBirthday (PyDate.mkDate 2000 2 29)).
  split; [done |]. split; [done |]. split; [by left |]. split; [done |].
  split; [by vm_compute |]. split; [by apply replace_year_leap_day |].
  intros libc. by destruct libc; vm_compute.
Qed.

Lemma new_inv (y m d : Z) (dt : PyDate.date) :
  PyDate.new y m d = Ok dt -> dt = PyDate.mkDate y m d.
Proof. unfold PyDate.new. destruct (PyDate.valid y m d); by intros [= <-]. Qed.

(** The loop's body, through the two notions of the specification. *)
Lemma upcoming_body_projected (libc : PyDate.year_style)
    (today : PyDate.date) (rec : record) (b : Birthday) :
  birthday rec = Some b ->
  upcoming_body libc today rec =
  match projected (Birthday_value b) today with
  | Raise e => Raise e
  | Ok this_year =>
      if ((0 <=? PyDate.sub_days this_year today)
          && (PyDate.sub_days this_year today <=? 6))%Z
      then
        match greeting_date this_year with
        | Ok g =>
            Ok (Some (mkGreeting (Name_value (name rec))
                        (PyDate.strftime_Ymd libc g)))
        | Raise e => Raise e
        end
      else Ok None
  end.
Proof.
  intros Hb. unfold upcoming_body, projected, greeting_date, bind. rewrite Hb.
  destruct (PyDate.replace_year (Birthday_value b) (PyDate.year today))
    as [d1 |] eqn:H1; [| done].
  apply new_inv in H1 as ->. unfold PyDate.replace_year at 1. simpl.
  fold (PyDate.replace_year (Birthday_value b) (PyDate.year today + 1)).
  done.
Qed.

Lemma NoDup_fmap_eq {A B} (f : A -> B) (l : list A) (x y : A) :
  NoDup (f <$> l) -> x ∈ l -> y ∈ l -> f x = f y -> x = y.
Proof.
  induction l as [| a l IH]; [by intros _ ?%elem_of_nil |].
  rewrite fmap_cons. intros [Ha Hl]%NoDup_cons Hx Hy Hf.
  apply elem_of_cons in Hx as [-> | Hx]; apply elem_of_cons in Hy as [-> | Hy].
  - done.
  - exfalso. apply Ha. rewrite Hf. by apply list_elem_of_fmap_2.
  - exfalso. apply Ha. rewrite <- Hf. by apply list_elem_of_fmap_2.
  - by apply IH.
Qed.

Lemma book_wf_names (book : AddressBook) :
  book_wf book ->
  NoDup ((fun rec => Name_value (name rec)) <$> PyDict.values book).
Proof.
  intros [Hk Hn]. unfold PyDict.keys, PyDict.values in *.
  rewrite <- list_fmap_compose.
  erewrite (list_fmap_ext _ fst); [exact Hk |].
  intros i [k rec] Hi. simpl. rewrite Forall_forall in Hn.
  symmetry. apply (Hn (k, rec)). by apply list_elem_of_lookup_2 in Hi.
Qed.

(** What the code does for C1 wherever it returns: on a book with one
    record per name, a contact with a birthday is listed exactly when its
    projected birthday is at most six days ahead, and then with the
    greeting day of that date, written year.month.day. *)
Theorem upcoming_birthdays_when_returned (libc : PyDate.year_style)
    (today : PyDate.date) (book : AddressBook) (out : list greeting)
    (rec : record) (b : Birthday) :
  book_wf book ->
  get_upcoming_birthdays libc today book = Ok out ->
  rec ∈ PyDict.values book -> birthday rec = Some b ->
  exists this_year,
    projected (Birthday_value b) today = Ok this_year
    /\ ((exists g, g ∈ out /\ greeting_name g = Name_value (name rec))
        <-> in_window (PyDate.sub_days this_year today))
    /\ (forall g, g ∈ out -> greeting_name g = Name_value (name rec) ->
        exists gd, greeting_date this_year = Ok gd
                   /\ congratulation_date g = PyDate.strftime_Ymd libc gd).
Proof.
  intros Hwf Hout Hin Hb.
  apply upcoming_loop_ok in Hout as [Hok ->]. simpl.
  rewrite Forall_forall in Hok. pose proof (Hok rec Hin) as Hrec.
  pose proof (upcoming_body_projected libc today rec b Hb) as Hbody.
  destruct (projected (Birthday_value b) today) as [this_year |] eqn:Hp;
    [| by rewrite Hbody in Hrec].
  exists this_year. split; [done |].
  assert (forall g, g ∈ omap (entry_of libc today) (PyDict.values book) ->
                    greeting_name g = Name_value (name rec) ->
                    entry_of libc today rec = Some g) as Hmine.
  { intros g (rec' & Hin' & Hg)%list_elem_of_omap Hname.
    rewrite (entry_of_name _ _ _ _ Hg) in Hname.
    by rewrite <- (NoDup_fmap_eq _ _ rec' rec (book_wf_names _ Hwf) Hin' Hin Hname). }
  unfold in_window. unfold entry_of in Hmine. rewrite Hbody in Hmine, Hrec.
  destruct (_ && _) eqn:Hw.
  - apply andb_true_iff in Hw as [H0 H6]. apply Z.leb_le in H0, H6.
    destruct (greeting_date this_year) as [gd |] eqn:Hgd; [| done].
    split.
    + split; [intros _; lia |]. intros _.
      exists (mkGreeting (Name_value (name rec)) (PyDate.strftime_Ymd libc gd)).
      split; [| done]. apply list_elem_of_omap. exists rec. split; [done |].
      unfold entry_of. by rewrite Hbody.
    + intros g Hg Hname. apply Hmine in Hg as [= <-]; [| done]. by exists gd.
  - split.
    + split; [| intros [H0 H6]].
      * intros (g & Hg & Hname). by apply Hmine in Hg.
      * apply Z.leb_le in H0, H6. by rewrite H0, H6 in Hw.
    + intros g Hg Hname. by apply Hmine in Hg.
Qed.

Lemma upcoming_birthdays_when_returned_witness :
  let today := PyDate.mkDate 2024 6 10 in
  let amy := Sample.contact "Amy" [] (Some (15, 6, 1990)%Z) in
  let book := Sample.book_of [amy; Sample.contact "Kim" [] (Some (20, 6, 1990)%Z)] in
  exists this_year,
    projected (PyDate.mkDate 1990 6 15) today = Ok this_year
    /\ ((exists g, g ∈ [mkGreeting (lit "Amy") (lit "2024.06.17")]
                   /\ greeting_name g = lit "Amy")
        <-> in_window (PyDate.sub_days this_year today)).
Proof.
  intros today amy book.
  destruct (upcoming_birthdays_when_returned PyDate.Padded today book
              [mkGreeting (lit "Amy") (lit "2024.06.17")] amy
              (mkBirthday (PyDate.mkDate 1990 6 15)))
    as (ty & H1 & H2 & _).
  - apply (run_ops_wf _ []), book_wf_nil.
  - reflexivity.
  - by left.
  - reflexivity.
  - by exists ty.
Defined.

(** C1 fails where the code raises: a contact whose projected birthday is
    three days ahead is listed when alone in the book, but once the book
    also holds a contact born on a 29th of February the call raises
    [ValueError] in a year that is not a leap year and lists nobody.  In a
    leap year the projection of such a birthday is defined, and from the
    1st of March on it is re-projected onto the next year, which raises
    as well. *)
Theorem upcoming_birthdays_aborted_by_leap_day :
  let alice := Sample.contact "Alice" [] (Some (13, 6, 1990)%Z) in
  let bob := Sample.contact "Bob" [] (Some (29, 2, 2000)%Z) in
  let today := PyDate.mkDate 2023 6 10 in
  let march := PyDate.mkDate 2024 3 1 in
  projected (PyDate.mkDate 1990 6 13) today = Ok (PyDate.mkDate 2023 6 13)
  /\ PyDate.sub_days (PyDate.mkDate 2023 6 13) today = 3%Z
  /\ (forall libc,
        get_upcoming_birthdays libc today (Sample.book_of [alice])
        = Ok [mkGreeting (lit "Alice") (lit "2023.06.13")])
  /\ (forall libc,
        get_upcoming_birthdays libc today (Sample.book_of [alice; bob])
        = Raise ValueError)
  /\ PyDate.replace_year (PyDate.mkDate 2000 2 29) (PyDate.year march)
     = Ok (PyDate.mkDate 2024 2 29)
  /\ (forall libc,
        get_upcoming_birthdays libc march (Sample.book_of [bob])
        = Raise ValueError).
Proof.
  intros alice bob today march.
  split; [by vm_compute |]. split; [by vm_compute |].
  split; [by intros []; vm_compute |]. split; [by intros []; vm_compute |].
  split; [by vm_compute |]. by intros []; vm_compute.
Qed.

(** ** Parsing a birthday *)

Lemma re_char_splits (p : N -> bool) :
  splits (PyDate.re_char p) (fun x => exists c, x = [c] /\ p c = true).
Proof.
  intros [| c s] x r; simpl; [done |].
  destruct (p c) eqn:Hp; simpl; [| done].
  intros [[= <- <-] | []]. split; [done | by exists c].
Qed.

Lemma re_seq_splits (a b : PyDate.matcher) (P Q : pystr -> Prop) :
  splits a P -> splits b Q ->
  splits (PyDate.re_seq a b)
    (fun x => exists x1 x2, x = x1 ++ x2 /\ P x1 /\ Q x2).
Proof.
  intros Ha Hb s x r. unfold PyDate.re_seq.
  rewrite in_flat_map. intros ([x1 r1] & H1 & H2).
  apply in_map_iff in H2 as ([x2 r2] & [= <- <-] & H2).
  apply Ha in H1 as [-> HP]. apply Hb in H2 as [-> HQ].
  split; [by rewrite app_assoc | by exists x1, x2].
Qed.

Lemma re_alt_splits (a b : PyDate.matcher) (P Q : pystr -> Prop) :
  splits a P -> splits b Q ->
  splits (PyDate.re_alt a b) (fun x => P x \/ Q x).
Proof.
  intros Ha Hb s x r. unfold PyDate.re_alt. rewrite in_app_iff.
  intros [H | H]; [apply Ha in H | apply Hb in H]; destruct H; auto.
Qed.

Lemma splits_weaken (m : PyDate.matcher) (P Q : pystr -> Prop) :
  splits m P -> (forall x, P x -> Q x) -> splits m Q.
Proof. intros Hm HPQ s x r H. apply Hm in H as [-> HP]. auto. Qed.

Lemma re_one_splits (p : N -> bool) :
  splits (PyDate.re_char p) (fun x => length x = 1).
Proof.
  eapply splits_weaken; [apply re_char_splits |]. by intros x (c & -> & _).
Qed.

Lemma re_two_splits (p q : N -> bool) :
  splits (PyDate.re_seq (PyDate.re_char p) (PyDate.re_char q))
    (fun x => length x = 2).
Proof.
  eapply splits_weaken;
    [apply re_seq_splits; apply re_char_splits |].
  by intros x (x1 & x2 & -> & (c1 & -> & _) & (c2 & -> & _)).
Qed.

Lemma RE_d_splits :
  splits PyDate.RE_d (fun x => length x = 1 \/ length x = 2).
Proof.
  unfold PyDate.RE_d.
  eapply splits_weaken.
  - apply re_alt_splits; [apply re_two_splits |].
    apply re_alt_splits; [apply re_two_splits |].
    apply re_alt_splits; [apply re_two_splits |].
    apply re_alt_splits; [apply re_one_splits | apply re_two_splits].
  - simpl. tauto.
Qed.

Lemma RE_m_splits :
  splits PyDate.RE_m (fun x => length x = 1 \/ length x = 2).
Proof.
  unfold PyDate.RE_m.
  eapply splits_weaken.
  - apply re_alt_splits; [apply re_two_splits |].
    apply re_alt_splits; [apply re_two_splits | apply re_one_splits].
  - simpl. tauto.
Qed.

Lemma RE_Y_splits :
  splits PyDate.RE_Y
    (fun x => length x = 4 /\ Forall (fun c => is_decimal c = true) x).
Proof.
  unfold PyDate.RE_Y, PyDate.re_decimal.
  eapply splits_weaken.
  - apply re_seq_splits; [apply re_char_splits |].
    apply re_seq_splits; [apply re_char_splits |].
    apply re_seq_splits; apply re_char_splits.
  - intros x (x1 & x' & -> & (c1 & -> & H1) & x2 & x'' & -> &
              (c2 & -> & H2) & x3 & x4 & -> & (c3 & -> & H3) & c4 & -> & H4).
    split; [done |]. by repeat constructor.
Qed.

Lemma re_dot_splits : splits (PyDate.re_lit ".") (fun x => x = [DOT]).
Proof.
  eapply splits_weaken; [apply re_char_splits |].
  intros x (c & -> & Hc). apply N.eqb_eq in Hc. by rewrite <- Hc.
Qed.

Lemma re_match_dmY_Some (s d m y rest : pystr) :
  PyDate.re_match_dmY s = Some (d, m, y, rest) ->
  s = d ++ [DOT] ++ m ++ [DOT] ++ y ++ rest
  /\ (length d = 1 \/ length d = 2)
  /\ (length m = 1 \/ length m = 2)
  /\ length y = 4 /\ Forall (fun c => is_decimal c = true) y.
Proof.
  unfold PyDate.re_match_dmY, PyDate.re_then. intros H.
  apply head_Some_elem_of, list_elem_of_In in H.
  apply in_flat_map in H as ([d' r1] & Hd & H).
  apply in_flat_map in H as ([x1 r2] & H1 & H).
  apply in_flat_map in H as ([m' r3] & Hm & H).
  apply in_flat_map in H as ([x2 r4] & H2 & H).
  apply in_flat_map in H as ([y' r5] & Hy & [[= -> -> -> ->] | []]).
  apply RE_d_splits in Hd as [-> Hd]. apply re_dot_splits in H1 as [-> ->].
  apply RE_m_splits in Hm as [-> Hm]. apply re_dot_splits in H2 as [-> ->].
  apply RE_Y_splits in Hy as [-> [Hy1 Hy2]].
  by repeat split.
Qed.

Lemma strptime_raises (s : pystr) :
  is_ok (PyDate.strptime_dmY s) = false ->
  PyDate.strptime_dmY s = Raise ValueError.
Proof.
  unfold PyDate.strptime_dmY, PyDate.new.
  destruct (PyDate.re_match_dmY s) as [[[[d m] y] [| c rest]] |]; try done.
  destruct (int y), (int m), (int d); try done.
  by destruct (PyDate.valid _ _ _).
Qed.

(** What [strptime] accepts: day, month and year separated by full stops,
    the day and the month of one or two characters, the year of four
    decimal digits, naming a date the calendar has. *)
Lemma strptime_Ok (s : pystr) (dt : PyDate.date) :
  PyDate.strptime_dmY s = Ok dt ->
  exists d m y,
    s = d ++ [DOT] ++ m ++ [DOT] ++ y
    /\ (length d = 1 \/ length d = 2)
    /\ (length m = 1 \/ length m = 2)
    /\ length y = 4 /\ Forall (fun c => is_decimal c = true) y
    /\ int d = Some (PyDate.day dt)
    /\ int m = Some (PyDate.month dt)
    /\ int y = Some (PyDate.year dt)
    /\ PyDate.wf dt = true.
Proof.
  unfold PyDate.strptime_dmY.
  destruct (PyDate.re_match_dmY s) as [[[[d m] y] rest] |] eqn:Hm; [| done].
  apply re_match_dmY_Some in Hm as (-> & Hd & Hmo & Hy & Hdec).
  destruct rest as [| c rest]; [| done]. rewrite app_nil_r.
  destruct (int y) as [yy |] eqn:Hyy; [| done].
  destruct (int m) as [mm |] eqn:Hmm; [| done].
  destruct (int d) as [dd |] eqn:Hdd; [| done].
  unfold PyDate.new. destruct (PyDate.valid yy mm dd) eqn:Hv; [| done].
  intros [= <-]. by exists d, m, y.
Qed.

(** *** Formatting, then parsing *)

Lemma Z_range_cases (P : Z -> Prop) (lo : Z) (n : nat) :
  (forall i : nat, i < n -> P (lo + Z.of_nat i)%Z) ->
  forall z, (lo <= z < lo + Z.of_nat n)%Z -> P z.
Proof.
  intros H z Hz.
  replace z with (lo + Z.of_nat (Z.to_nat (z - lo)))%Z by lia.
  apply H. lia.
Qed.

Lemma digit_char_facts (k : Z) :
  (0 <= k <= 9)%Z ->
  is_decimal (digit_char k) = true
  /\ decimal_value (digit_char k) = Some k
  /\ is_ascii_digit (digit_char k) = true
  /\ (digit_char k =? SPACE)%N = false.
Proof.
  intros Hk.
  apply (Z_range_cases
           (fun k => is_decimal (digit_char k) = true
                     /\ decimal_value (digit_char k) = Some k
                     /\ is_ascii_digit (digit_char k) = true
                     /\ (digit_char k =? SPACE)%N = false) 0 10); [| lia].
  intros i Hi. do 10 (destruct i as [| i]; [by vm_compute |]). lia.
Qed.

Lemma zfill_2 (n : Z) :
  PyDate.zfill 2 n = [digit_char (n / 10 mod 10); digit_char (n mod 10)].
Proof. reflexivity. Qed.

Lemma zfill_4 (n : Z) :
  PyDate.zfill 4 n =
  [digit_char (n / 10 / 10 / 10 mod 10); digit_char (n / 10 / 10 mod 10);
   digit_char (n / 10 mod 10); digit_char (n mod 10)].
Proof. reflexivity. Qed.

Lemma mod_10_digit (n : Z) : (0 <= n mod 10 <= 9)%Z.
Proof. pose proof (Z.mod_pos_bound n 10). lia. Qed.

Lemma app_nils {T} (l : list T) : (l ++ []) ++ [] = l.
Proof. by rewrite !app_nil_r. Qed.

(** The text of a day written with two digits, followed by a full stop, is
    matched as a whole by [%d\.]. *)
Lemma day_step {T} (k : pystr -> pystr -> list T) (D : Z) (rest : pystr) :
  (1 <= D <= 31)%Z ->
  PyDate.re_then PyDate.RE_d
    (fun d r1 => PyDate.re_then (PyDate.re_lit ".") (fun _ r2 => k d r2) r1)
    (PyDate.zfill 2 D ++ DOT :: rest)
  = k (PyDate.zfill 2 D) rest.
Proof.
  intros HD. revert k rest.
  apply (Z_range_cases
           (fun D => forall k rest,
              PyDate.re_then PyDate.RE_d
                (fun d r1 =>
                   PyDate.re_then (PyDate.re_lit ".") (fun _ r2 => k d r2) r1)
                (PyDate.zfill 2 D ++ DOT :: rest)
              = k (PyDate.zfill 2 D) rest) 1 31); [| lia].
  intros i Hi k rest.
  do 31 (destruct i as [| i]; [vm_compute; apply app_nils |]).
  lia.
Qed.

Lemma month_step {T} (k : pystr -> pystr -> list T) (M : Z) (rest : pystr) :
  (1 <= M <= 12)%Z ->
  PyDate.re_then PyDate.RE_m
    (fun m r3 => PyDate.re_then (PyDate.re_lit ".") (fun _ r4 => k m r4) r3)
    (PyDate.zfill 2 M ++ DOT :: rest)
  = k (PyDate.zfill 2 M) rest.
Proof.
  intros HM. revert k rest.
  apply (Z_range_cases
           (fun M => forall k rest,
              PyDate.re_then PyDate.RE_m
                (fun m r3 =>
                   PyDate.re_then (PyDate.re_lit ".") (fun _ r4 => k m r4) r3)
                (PyDate.zfill 2 M ++ DOT :: rest)
              = k (PyDate.zfill 2 M) rest) 1 12); [| lia].
  intros i Hi k rest.
  do 12 (destruct i as [| i]; [vm_compute; apply app_nils |]).
  lia.
Qed.

Lemma year_step {T} (k : pystr -> pystr -> list T) (Y : Z) :
  PyDate.re_then PyDate.RE_Y k (PyDate.zfill 4 Y) = k (PyDate.zfill 4 Y) [].
Proof.
  rewrite zfill_4.
  unfold PyDate.re_then, PyDate.RE_Y, PyDate.re_seq, PyDate.re_decimal,
    PyDate.re_char.
  rewrite !(proj1 (digit_char_facts _ (mod_10_digit _))). simpl.
  rewrite !(proj1 (digit_char_facts _ (mod_10_digit _))). simpl.
  rewrite !(proj1 (digit_char_facts _ (mod_10_digit _))). simpl.
  rewrite !(proj1 (digit_char_facts _ (mod_10_digit _))). simpl.
  by rewrite app_nil_r.
Qed.

Lemma int_zfill_2 (n : Z) : (0 <= n <= 99)%Z -> int (PyDate.zfill 2 n) = Some n.
Proof.
  intros Hn. rewrite zfill_2.
  destruct (digit_char_facts _ (mod_10_digit (n / 10))) as (_ & Hv1 & _ & Hs1).
  destruct (digit_char_facts _ (mod_10_digit n)) as (_ & Hv2 & _ & Hs2).
  unfold int, strip. simpl. rewrite Hs1. simpl. rewrite Hs2. simpl.
  rewrite Hv1, Hv2. f_equal. clear -Hn. Z.div_mod_to_equations. lia.
Qed.

Lemma int_zfill_4 (n : Z) :
  (0 <= n <= 9999)%Z -> int (PyDate.zfill 4 n) = Some n.
Proof.
  intros Hn. rewrite zfill_4.
  destruct (digit_char_facts _ (mod_10_digit (n / 10 / 10 / 10)))
    as (_ & Hv1 & _ & Hs1).
  destruct (digit_char_facts _ (mod_10_digit (n / 10 / 10))) as (_ & Hv2 & _).
  destruct (digit_char_facts _ (mod_10_digit (n / 10))) as (_ & Hv3 & _).
  destruct (digit_char_facts _ (mod_10_digit n)) as (_ & Hv4 & _ & Hs4).
  unfold int, strip. simpl. rewrite Hs1. simpl. rewrite Hs4. simpl.
  rewrite Hv1, Hv2, Hv3, Hv4. f_equal. clear -Hn.
  Z.div_mod_to_equations. lia.
Qed.

Lemma days_in_month_le (y m : Z) :
  (1 <= m <= 12)%Z -> (28 <= PyDate.days_in_month y m <= 31)%Z.
Proof.
  intros Hm. unfold PyDate.days_in_month.
  apply (Z_range_cases
           (fun m => 28 <= (if (m =? 2) && PyDate.is_leap y then 29
                            else PyDate.index PyDate.DAYS_IN_MONTH m) <= 31)%Z
           1 12); [| lia].
  intros i Hi.
  do 12 (destruct i as [| i];
         [destruct (PyDate.is_leap y); by vm_compute |]).
  lia.
Qed.

Lemma wf_bounds (dt : PyDate.date) :
  PyDate.wf dt = true ->
  (1 <= PyDate.year dt <= 9999 /\ 1 <= PyDate.month dt <= 12
   /\ 1 <= PyDate.day dt <= 31)%Z.
Proof.
  unfold PyDate.wf, PyDate.valid, PyDate.MINYEAR, PyDate.MAXYEAR.
  rewrite !andb_true_iff, !Z.leb_le.
  intros [[[[[? ?] ?] ?] ?] ?].
  pose proof (days_in_month_le (PyDate.year dt) (PyDate.month dt)). lia.
Qed.

(** A date written as two digits, two digits and four digits parses back
    to itself. *)
Lemma strptime_strftime (dt : PyDate.date) :
  PyDate.wf dt = true ->
  PyDate.strptime_dmY (PyDate.strftime_dmY PyDate.Padded dt) = Ok dt.
Proof.
  intros Hwf. pose proof (wf_bounds dt Hwf) as (HY & HM & HD).
  unfold PyDate.strptime_dmY, PyDate.strftime_dmY, PyDate.re_match_dmY.
  cbn [PyDate.format_Y app].
  rewrite day_step by done. rewrite month_step by done. rewrite year_step.
  cbn [head].
  rewrite int_zfill_4, !int_zfill_2 by lia.
  unfold PyDate.new. unfold PyDate.wf in Hwf. rewrite Hwf. by destruct dt.
Qed.

(** From the year 1000 on the C library's two ways of writing a year
    agree. *)
Lemma format_Y_from_1000 (libc : PyDate.year_style) (y : Z) :
  (1000 <= y)%Z -> PyDate.format_Y libc y = PyDate.zfill 4 y.
Proof.
  intros Hy. destruct libc; [done |]. unfold PyDate.format_Y.
  by rewrite !(proj2 (Z.ltb_ge _ _)) by lia.
Qed.

Lemma strptime_strftime_libc (libc : PyDate.year_style) (dt : PyDate.date) :
  PyDate.wf dt = true -> libc = PyDate.Padded \/ (1000 <= PyDate.year dt)%Z ->
  PyDate.strptime_dmY (PyDate.strftime_dmY libc dt) = Ok dt.
Proof.
  intros Hwf [-> | Hy]; [by apply strptime_strftime |].
  assert (PyDate.strftime_dmY libc dt = PyDate.strftime_dmY PyDate.Padded dt)
    as -> by (unfold PyDate.strftime_dmY; by rewrite !format_Y_from_1000).
  by apply strptime_strftime.
Qed.

(** What the code does for C6.  If [Birthday(raw)] succeeds then [raw] is
    a day of one or two characters, a month of one or two characters and a
    year of exactly four decimal digits, separated by full stops, that name
    a date of the calendar, leap years respected (a necessary condition:
    the parser's own patterns for day and month are narrower still); every
    date of the calendar written as two digits, two digits and four digits
    is accepted; every rejection is a [ValueError]; 29.02.2024 is accepted
    and 31.04.2023 is rejected. *)
Theorem Birthday_init_spec (raw : pystr) :
  (forall b, Birthday_init raw = Ok b ->
     exists d m y,
       raw = d ++ [DOT] ++ m ++ [DOT] ++ y
       /\ (length d = 1 \/ length d = 2)
       /\ (length m = 1 \/ length m = 2)
       /\ length y = 4 /\ Forall (fun c => is_decimal c = true) y
       /\ int d = Some (PyDate.day (Birthday_value b))
       /\ int m = Some (PyDate.month (Birthday_value b))
       /\ int y = Some (PyDate.year (Birthday_value b))
       /\ PyDate.wf (Birthday_value b) = true)
  /\ (forall dt, PyDate.wf dt = true ->
        raw = PyDate.strftime_dmY PyDate.Padded dt ->
        Birthday_init raw = Ok (mkBirthday dt))
  /\ (is_ok (Birthday_init raw) = false -> Birthday_init raw = Raise ValueError)
  /\ Birthday_init (lit "29.02.2024")
     = Ok (mkBirthday (PyDate.mkDate 2024 2 29))
  /\ Birthday_init (lit "31.04.2023") = Raise ValueError.
Proof.
  split; [| split; [| split; [| split]]].
  - intros b. unfold Birthday_init.
    destruct (PyDate.strptime_dmY raw) as [dt | e] eqn:Hp; [| by destruct e].
    intros [= <-]. by apply strptime_Ok.
  - intros dt Hwf ->. unfold Birthday_init. by rewrite strptime_strftime.
  - unfold Birthday_init. intros H.
    destruct (PyDate.strptime_dmY raw) as [dt | e] eqn:Hp; [done |].
    rewrite strptime_raises in Hp by (by rewrite Hp). by injection Hp as <-.
  - by vm_compute.
  - by vm_compute.
Qed.

Lemma Birthday_init_spec_witness :
  Birthday_init (lit "09.11.1987") = Ok (mkBirthday (PyDate.mkDate 1987 11 9))
  /\ Birthday_init (lit "30.02.2024") = Raise ValueError.
Proof.
  split.
  - apply (Birthday_init_spec (lit "09.11.1987")); reflexivity.
  - apply (Birthday_init_spec (lit "30.02.2024")); reflexivity.
Defined.

(** C6 fails on the code.  The docstring of [Birthday] and the message
    of its [ValueError] promise that a text which is not DD.MM.YYYY is
    rejected, and so does the claim; yet a day and a month of one digit
    are accepted, and so is a day written as a blank and a digit, because
    [strptime] reads [%d] and [%m] more loosely than two digits and the
    code does not check the text itself. *)
Lemma Birthday_init_accepts_short_day_and_month :
  Birthday_init (lit "1.2.2024") = Ok (mkBirthday (PyDate.mkDate 2024 2 1))
  /\ Birthday_init (lit " 1.2.2024") = Ok (mkBirthday (PyDate.mkDate 2024 2 1))
  /\ Birthday_init (lit "01.2.2024") = Ok (mkBirthday (PyDate.mkDate 2024 2 1)).
Proof. by vm_compute. Qed.

(** ** Saving and loading *)

Lemma save_loop_cons (libc : PyDate.year_style) (k : pystr) (rec : record)
    (items : list (pystr * record)) (acc : list (pystr * info)) :
  save_loop libc ((k, rec) :: items) acc
  = save_loop libc items (PyDict.set k (info_of libc rec) acc).
Proof. reflexivity. Qed.

Lemma save_loop_fresh (libc : PyDate.year_style)
    (items : list (pystr * record)) (acc : list (pystr * info)) :
  NoDup (PyDict.keys acc ++ PyDict.keys items) ->
  save_loop libc items acc =
  acc ++ ((fun kr => (kr.1, info_of libc kr.2)) <$> items).
Proof.
  revert acc. induction items as [| [k rec] items IH]; intros acc Hnd.
  - by rewrite app_nil_r.
  - rewrite save_loop_cons.
    unfold PyDict.keys in Hnd. rewrite fmap_cons in Hnd. simpl in Hnd.
    assert (k ∉ PyDict.keys acc) as Hk.
    { apply NoDup_app in Hnd as (_ & Hdis & _). intros Hin.
      apply (Hdis k Hin). by left. }
    rewrite set_fresh by done. rewrite IH.
    + by rewrite <- app_assoc.
    + unfold PyDict.keys. rewrite fmap_app, <- app_assoc. done.
Qed.

Lemma load_phones_storable (ps : list Phone) (self : record) :
  Forall (fun ph => Phone_init (Phone_value ph) = Ok ph) ps ->
  NoDup (Phone_value <$> (phones self ++ ps)) ->
  load_phones (Phone_value <$> ps) self
  = (set_phones (phones self ++ ps) self, Ok tt).
Proof.
  revert self. induction ps as [| ph ps IH]; intros self Hv Hnd.
  - rewrite app_nil_r. by destruct self.
  - apply Forall_cons in Hv as [Hph Hv]. rewrite fmap_cons.
    cbn [load_phones]. unfold mbind, try_except_ValueError.
    rewrite add_phone_absent.
    + rewrite <- (Phone_init_inv _ _ Hph).
      rewrite IH; [| done |]; simpl.
      * by rewrite <- app_assoc.
      * by rewrite <- app_assoc.
    + by rewrite Hph.
    + rewrite fmap_app, fmap_cons in Hnd.
      apply NoDup_app in Hnd as (_ & Hdis & _). intros Hin.
      apply (Hdis _ Hin). by left.
Qed.

Lemma strftime_dmY_cons (libc : PyDate.year_style) (dt : PyDate.date) :
  exists c s, PyDate.strftime_dmY libc dt = c :: s.
Proof. unfold PyDate.strftime_dmY. rewrite zfill_2. by eexists _, _. Qed.

Lemma load_item_storable (libc : PyDate.year_style) (rec : record)
    (book : AddressBook) :
  storable libc rec ->
  load_item (Name_value (name rec)) (info_of libc rec) book
  = add_record rec book.
Proof.
  intros (Hv & Hu & Hb). unfold load_item, Record_init, mbind.
  cbn [info_of info_phones info_birthday].
  rewrite load_phones_storable; [| done | done]. cbn [phones app].
  unfold birthday_valid in Hb.
  destruct rec as [[n] ps [[dt] |]]; cbn [birthday Birthday_value] in *.
  - destruct Hb as [Hwf Hy].
    destruct (strftime_dmY_cons libc dt) as (c & s & Heq).
    rewrite Heq, <- Heq.
    unfold try_except_ValueError, add_birthday, mbind, lift, Birthday_init.
    by rewrite strptime_strftime_libc.
  - done.
Qed.

Lemma load_loop_storable (libc : PyDate.year_style)
    (items : list (pystr * record)) (acc : AddressBook) :
  NoDup (PyDict.keys acc ++ PyDict.keys items) ->
  Forall (fun kr => kr.1 = Name_value (name kr.2) /\ storable libc kr.2) items ->
  load_loop ((fun kr => (kr.1, info_of libc kr.2)) <$> items) acc
  = (acc ++ items, Ok tt).
Proof.
  revert acc. induction items as [| [k rec] items IH]; intros acc Hnd Hall.
  - by rewrite app_nil_r.
  - apply Forall_cons in Hall as [[Hk Hs] Hall]. simpl in Hk. subst k.
    rewrite fmap_cons. cbn [load_loop fst snd]. unfold mbind.
    rewrite load_item_storable by done. unfold add_record.
    unfold PyDict.keys in Hnd. rewrite fmap_cons in Hnd. simpl in Hnd.
    rewrite set_fresh.
    + rewrite IH; [by rewrite <- app_assoc | | done].
      unfold PyDict.keys. by rewrite fmap_app, <- app_assoc.
    + apply NoDup_app in Hnd as (_ & Hdis & _). intros Hin.
      apply (Hdis _ Hin). by left.
Qed.

(** What the code does for C9: a book with one record per name whose records
    hold valid phones, pairwise different, and valid birthdays is given
    back by loading what was saved, records and phones in their order. *)
Theorem save_load_roundtrip (libc : PyDate.year_style) (book : AddressBook) :
  book_wf book ->
  Forall (fun kr => storable libc kr.2) book ->
  load_address_book (save_address_book libc book) = (book, Ok tt).
Proof.
  intros [Hk Hn] Hall. unfold load_address_book, save_address_book.
  rewrite save_loop_fresh by done. simpl.
  rewrite load_loop_storable; [done | done |].
  rewrite Forall_forall in Hn, Hall. apply Forall_forall. intros [k rec] Hin.
  split; [apply (Hn _ Hin) | apply (Hall _ Hin)].
Qed.

Lemma save_load_roundtrip_witness :
  let ann := Sample.contact "Ann" ["1111111111"; "2222222222"]
               (Some (29, 2, 2000)%Z) in
  let bob := Sample.contact "Bob" [] None in
  let book := [(lit "Ann", ann); (lit "Bob", bob)] in
  load_address_book (save_address_book PyDate.Unpadded book) = (book, Ok tt).
Proof.
  intros ann bob book. apply save_load_roundtrip.
  - split.
    + apply (bool_decide_unpack _). by vm_compute.
    + by repeat constructor.
  - apply Forall_cons. split; [| apply Forall_cons; split; [| done]].
    + split; [by repeat constructor |]. split.
      * unfold phones_unique. apply (bool_decide_unpack _). by vm_compute.
      * split; [reflexivity | right; by vm_compute].
    + split; [by constructor |]. split; [apply NoDup_nil_2 | exact I].
Defined.

(** C9 fails on a book [edit_phone] has left with a number stored twice:
    [save_address_book] writes both, [load_address_book] adds them with
    [add_phone], which skips the second, and the record comes back with
    one phone instead of two. *)
Theorem load_drops_duplicate_phone :
  let ann := Sample.contact "Ann" [] None in
  let ann2 := Sample.contact "Ann" ["1111111111"; "1111111111"] None in
  let ann1 := Sample.contact "Ann" ["1111111111"] None in
  let book := run_ops
    [ AddRecord ann;
      OnRecord (lit "Ann") (AddPhone (lit "1111111111"));
      OnRecord (lit "Ann") (AddPhone (lit "2222222222"));
      OnRecord (lit "Ann") (EditPhone (lit "2222222222") (lit "1111111111")) ]
    [] in
  book = [(lit "Ann", ann2)]
  /\ phones_valid ann2
  /\ (forall libc,
        load_address_book (save_address_book libc book)
        = ([(lit "Ann", ann1)], Ok tt))
  /\ ann1 <> ann2.
Proof.
  intros ann ann2 ann1 book.
  split; [by vm_compute |]. split; [| split].
  - repeat constructor.
  - by intros []; vm_compute.
  - by vm_compute.
Qed.

(** Where the C library writes years below 1000 without leading zeros, a
    birthday of such a year is saved with a three-digit year, which
    [Birthday] rejects on loading: the birthday is lost. *)
Lemma load_drops_early_birthday_unpadded :
  let old := Sample.contact "Old" [] (Some (1, 2, 999)%Z) in
  Birthday_init (lit "01.02.0999") = Ok (mkBirthday (PyDate.mkDate 999 2 1))
  /\ load_address_book (save_address_book PyDate.Unpadded [(lit "Old", old)])
     = ([(lit "Old", Sample.contact "Old" [] None)], Ok tt)
  /\ load_address_book (save_address_book PyDate.Padded [(lit "Old", old)])
     = ([(lit "Old", old)], Ok tt).
Proof. by vm_compute. Qed.

(** * Further properties

    ** The calendar *)

Section calendar.
Local Open Scope Z_scope.

Lemma Z_range_forallb (f : Z -> bool) (lo : Z) (n : nat) :
  forallb (fun i => f (lo + Z.of_nat i)%Z) (seq 0 n) = true ->
  forall z, (lo <= z < lo + Z.of_nat n)%Z -> f z = true.
Proof.
  intros H z Hz. rewrite forallb_forall in H.
  replace z with (lo + Z.of_nat (Z.to_nat (z - lo)))%Z by lia.
  apply H. apply in_seq. lia.
Qed.

Lemma month_day_ok (leapyear : bool) (n : Z) :
  0 <= n <= 364 + Z.b2z leapyear -> month_day_check leapyear n = true.
Proof.
  intros Hn. destruct leapyear.
  - apply (Z_range_forallb (month_day_check true) 0 366); [by vm_compute | simpl in Hn; lia].
  - apply (Z_range_forallb (month_day_check false) 0 365); [by vm_compute | simpl in Hn; lia].
Qed.

Lemma ord2ymd_unfold (n : Z) :
  PyDate.ord2ymd n =
  let n0 := n - 1 in
  let a := n0 / 146097 in
  let r1 := n0 mod 146097 in
  let b := r1 / 36524 in
  let r2 := r1 mod 36524 in
  let c := r2 / 1461 in
  let r3 := r2 mod 1461 in
  let d := r3 / 365 in
  let r := r3 mod 365 in
  let year := a * 400 + 1 + b * 100 + c * 4 + d in
  if (d =? 4) || (b =? 4) then (year - 1, 12, 31)
  else
    let '(m, day) := month_day ((d =? 3) && (negb (c =? 24) || (b =? 3))) r in
    (year, m, day).
Proof.
  unfold PyDate.ord2ymd, month_day, PyDate.DI400Y, PyDate.DI100Y, PyDate.DI4Y.
  cbv zeta.
  destruct (_ || _); [done |].
  by destruct (_ <? _).
Qed.

Lemma cycles (n0 : Z) :
  0 <= n0 ->
  let a := n0 / 146097 in
  let r1 := n0 mod 146097 in
  let b := r1 / 36524 in
  let r2 := r1 mod 36524 in
  let c := r2 / 1461 in
  let r3 := r2 mod 1461 in
  let d := r3 / 365 in
  let r := r3 mod 365 in
  n0 = 146097 * a + 36524 * b + 1461 * c + 365 * d + r
  /\ 0 <= a /\ 0 <= b <= 4 /\ 0 <= c <= 24 /\ 0 <= d <= 4 /\ 0 <= r <= 364
  /\ (b = 4 -> c = 0 /\ d = 0 /\ r = 0)
  /\ (d = 4 -> r = 0 /\ c <= 23 \/ b = 4).
Proof.
  intros Hn. cbv zeta. Z.div_mod_to_equations. lia.
Qed.

Lemma days_before_year_cycles (a b c d : Z) :
  0 <= a -> 0 <= b <= 3 -> 0 <= c <= 24 -> 0 <= d <= 3 ->
  PyDate.days_before_year (400 * a + 100 * b + 4 * c + d + 1)
  = 146097 * a + 36524 * b + 1461 * c + 365 * d.
Proof.
  intros Ha Hb Hc Hd. unfold PyDate.days_before_year. cbv zeta.
  Z.div_mod_to_equations. lia.
Qed.

Lemma is_leap_cycles (a b c d : Z) :
  0 <= a -> 0 <= b <= 3 -> 0 <= c <= 24 -> 0 <= d <= 3 ->
  PyDate.is_leap (400 * a + 100 * b + 4 * c + d + 1)
  = (d =? 3) && (negb (c =? 24) || (b =? 3)).
Proof.
  intros Ha Hb Hc Hd. unfold PyDate.is_leap.
  destruct (d =? 3) eqn:E3; destruct (c =? 24) eqn:E24;
    destruct (b =? 3) eqn:Eb; simpl;
    repeat match goal with
           | H : (_ =? _) = true |- _ => apply Z.eqb_eq in H
           | H : (_ =? _) = false |- _ => apply Z.eqb_neq in H
           end;
    repeat match goal with
           | |- context [?x mod ?k =? 0] =>
               let E := fresh "E" in
               destruct (x mod k =? 0) eqn:E;
               [apply Z.eqb_eq in E | apply Z.eqb_neq in E]
           end; simpl; try reflexivity; exfalso;
    Z.div_mod_to_equations; lia.
Qed.

Lemma ord2ymd_correct (n : Z) :
  1 <= n <= PyDate.MAXORDINAL ->
  let '(y, m, d) := PyDate.ord2ymd n in
  PyDate.valid y m d = true /\ PyDate.ymd2ord y m d = n.
Proof.
  unfold PyDate.MAXORDINAL. intros Hn. rewrite ord2ymd_unfold. cbv zeta.
  pose proof (cycles (n - 1)) as Hc. cbv zeta in Hc.
  set (a := (n - 1) / 146097) in *.
  set (b := (n - 1) mod 146097 / 36524) in *.
  set (c := (n - 1) mod 146097 mod 36524 / 1461) in *.
  set (d := (n - 1) mod 146097 mod 36524 mod 1461 / 365) in *.
  set (r := (n - 1) mod 146097 mod 36524 mod 1461 mod 365) in *.
  destruct Hc as (Hsum & Ha & Hb & Hc & Hd & Hr & Hb4 & Hd4); [lia |].
  destruct ((d =? 4) || (b =? 4)) eqn:Hspecial.
  - (* the last day of a leap year *)
    assert (exists b' c', 0 <= b' <= 3 /\ 0 <= c' <= 24
              /\ negb (c' =? 24) || (b' =? 3) = true
              /\ a * 400 + 1 + b * 100 + c * 4 + d - 1
                 = 400 * a + 100 * b' + 4 * c' + 3 + 1
              /\ n = 146097 * a + 36524 * b' + 1461 * c' + 365 * 3 + 366)
      as (b' & c' & Hb' & Hc' & Hflag & Hy & Hn').
    { apply orb_true_iff in Hspecial as [Hs | Hs]; apply Z.eqb_eq in Hs.
      - destruct (Z.eq_dec b 4) as [Hb44 | Hb44].
        + exists 3, 24. destruct (Hb4 Hb44) as (? & ? & ?). lia.
        + exists b, c. destruct (Hd4 Hs) as [[? ?] | ?]; [| lia].
          rewrite (proj2 (Z.eqb_neq c 24)) by lia.
          repeat split; lia.
      - exists 3, 24. destruct (Hb4 Hs) as (? & ? & ?).
        repeat split; lia. }
    rewrite Hy. unfold PyDate.valid, PyDate.ymd2ord, PyDate.days_in_month,
      PyDate.days_before_month.
    rewrite is_leap_cycles, days_before_year_cycles by lia.
    rewrite Hflag. simpl.
    unfold PyDate.MINYEAR, PyDate.MAXYEAR, PyDate.index. simpl.
    split; [| lia].
    rewrite !andb_true_iff, !Z.leb_le. lia.
  - apply orb_false_iff in Hspecial as [Hd' Hb'].
    apply Z.eqb_neq in Hd', Hb'.
    pose proof (is_leap_cycles a b c d) as Hleap.
    set (leapyear := (d =? 3) && (negb (c =? 24) || (b =? 3))) in *.
    pose proof (month_day_ok leapyear r) as Hmd.
    unfold month_day_check in Hmd.
    destruct (month_day leapyear r) as [m day].
    rewrite !andb_true_iff, !Z.leb_le, Z.eqb_eq in Hmd.
    destruct Hmd as ((((Hm1 & Hm2) & Hd1) & Hd2) & Hdoy);
      [destruct leapyear; simpl; lia |].
    replace (a * 400 + 1 + b * 100 + c * 4 + d)
      with (400 * a + 100 * b + 4 * c + d + 1) by lia.
    unfold PyDate.valid, PyDate.ymd2ord, PyDate.days_in_month,
      PyDate.days_before_month.
    rewrite Hleap, days_before_year_cycles by lia.
    unfold PyDate.MINYEAR, PyDate.MAXYEAR.
    split; [| lia].
    rewrite !andb_true_iff, !Z.leb_le. lia.
Qed.

Lemma fromordinal_ok (n : Z) :
  1 <= n <= PyDate.MAXORDINAL ->
  exists dt, PyDate.fromordinal n = Ok dt /\ PyDate.wf dt = true
             /\ PyDate.toordinal dt = n.
Proof.
  intros Hn. pose proof (ord2ymd_correct n Hn) as H.
  unfold PyDate.fromordinal, PyDate.new.
  destruct (PyDate.ord2ymd n) as [[y m] d]. destruct H as [Hv Ho].
  rewrite Hv. by exists (PyDate.mkDate y m d).
Qed.

Lemma add_days_Ok (d d' : PyDate.date) (k : Z) :
  PyDate.add_days d k = Ok d' ->
  PyDate.wf d' = true /\ PyDate.toordinal d' = PyDate.toordinal d + k.
Proof.
  unfold PyDate.add_days.
  destruct (_ && _) eqn:Hr; [| done].
  apply andb_true_iff in Hr as [H0 H1].
  apply Z.ltb_lt in H0. apply Z.leb_le in H1.
  destruct (fromordinal_ok (PyDate.toordinal d + k)) as (dt & -> & Hwf & Ho);
    [lia |].
  by intros [= <-].
Qed.

Lemma add_days_in_range (d : PyDate.date) (k : Z) :
  0 < PyDate.toordinal d + k <= PyDate.MAXORDINAL ->
  is_ok (PyDate.add_days d k) = true.
Proof.
  intros Hr. unfold PyDate.add_days.
  rewrite (proj2 (Z.ltb_lt _ _)), (proj2 (Z.leb_le _ _)) by lia. simpl.
  destruct (fromordinal_ok (PyDate.toordinal d + k)) as (dt & -> & _); [lia |].
  done.
Qed.

Lemma days_before_year_succ (y : Z) :
  PyDate.days_before_year (y + 1)
  = PyDate.days_before_year y + 365 + Z.b2z (PyDate.is_leap y).
Proof.
  unfold PyDate.days_before_year, PyDate.is_leap. cbv zeta.
  repeat match goal with
         | |- context [?x mod ?k =? 0] =>
             let E := fresh "E" in
             destruct (x mod k =? 0) eqn:E;
             [apply Z.eqb_eq in E | apply Z.eqb_neq in E]
         end; simpl; Z.div_mod_to_equations; lia.
Qed.

Lemma days_before_year_mono (y y' : Z) :
  y <= y' -> PyDate.days_before_year y + 365 * (y' - y)
             <= PyDate.days_before_year y'.
Proof.
  intros Hy. replace y' with (y + Z.of_nat (Z.to_nat (y' - y))) by lia.
  generalize (Z.to_nat (y' - y)) as k. clear y' Hy. intros k.
  induction k as [| k IH]; [rewrite Z.add_0_r; lia |].
  rewrite Nat2Z.inj_succ.
  replace (y + Z.succ (Z.of_nat k)) with (y + Z.of_nat k + 1) by lia.
  rewrite days_before_year_succ.
  destruct (PyDate.is_leap (y + Z.of_nat k)); simpl; lia.
Qed.

Lemma day_of_year_ok (leap : bool) (m : Z) :
  1 <= m <= 12 -> day_of_year_check leap m = true.
Proof.
  intros Hm. destruct leap.
  - apply (Z_range_forallb (day_of_year_check true) 1 12); [by vm_compute | lia].
  - apply (Z_range_forallb (day_of_year_check false) 1 12); [by vm_compute | lia].
Qed.

Lemma month_order_ok (leap : bool) (m : Z) :
  1 <= m <= 12 -> month_order_check leap m = true.
Proof.
  intros Hm. destruct leap.
  - apply (Z_range_forallb (month_order_check true) 1 12); [by vm_compute | lia].
  - apply (Z_range_forallb (month_order_check false) 1 12); [by vm_compute | lia].
Qed.

Lemma valid_inv (y m d : Z) :
  PyDate.valid y m d = true ->
  1 <= y <= 9999 /\ 1 <= m <= 12 /\ 1 <= d <= PyDate.days_in_month y m.
Proof.
  unfold PyDate.valid, PyDate.MINYEAR, PyDate.MAXYEAR.
  rewrite !andb_true_iff, !Z.leb_le. lia.
Qed.

(** The place of a date within its year. *)
Lemma day_of_year_bounds (y m d : Z) :
  PyDate.valid y m d = true ->
  1 <= PyDate.days_before_month y m + d <= 365 + Z.b2z (PyDate.is_leap y).
Proof.
  intros (Hy & Hm & Hd)%valid_inv.
  pose proof (day_of_year_ok (PyDate.is_leap y) m Hm) as H.
  unfold day_of_year_check in H. cbv zeta in H.
  unfold PyDate.days_in_month in Hd. unfold PyDate.days_before_month.
  rewrite !andb_true_iff, !Z.leb_le in H. lia.
Qed.

Lemma days_before_month_order (y m m' : Z) :
  1 <= m <= 12 -> 1 <= m' <= 12 -> m < m' ->
  PyDate.days_before_month y m + PyDate.days_in_month y m
  <= PyDate.days_before_month y m'.
Proof.
  intros Hm Hm' Hlt.
  pose proof (month_order_ok (PyDate.is_leap y) m Hm) as H.
  unfold month_order_check in H. rewrite forallb_forall in H.
  specialize (H (Z.to_nat (m' - 1))).
  replace (1 + Z.of_nat (Z.to_nat (m' - 1))) with m' in H by lia.
  unfold PyDate.days_before_month, PyDate.days_in_month.
  rewrite orb_true_iff, !Z.leb_le in H.
  destruct H as [H | H]; [apply in_seq; lia | lia | lia].
Qed.

Lemma toordinal_bounds (d : PyDate.date) :
  PyDate.wf d = true -> 1 <= PyDate.toordinal d <= PyDate.MAXORDINAL.
Proof.
  unfold PyDate.wf, PyDate.toordinal, PyDate.ymd2ord, PyDate.MAXORDINAL.
  intros Hv. pose proof (day_of_year_bounds _ _ _ Hv) as Hdoy.
  apply valid_inv in Hv as (Hy & _ & _).
  pose proof (days_before_year_mono 1 (PyDate.year d)) as H1.
  pose proof (days_before_year_mono (PyDate.year d + 1) 10000) as H2.
  rewrite days_before_year_succ in H2.
  change (PyDate.days_before_year 1) with 0 in H1.
  change (PyDate.days_before_year 10000) with 3652059 in H2.
  lia.
Qed.

Lemma lt_toordinal (a b : PyDate.date) :
  PyDate.wf a = true -> PyDate.wf b = true ->
  PyDate.lt a b = true -> PyDate.toordinal a < PyDate.toordinal b.
Proof.
  unfold PyDate.wf, PyDate.lt, PyDate.toordinal, PyDate.ymd2ord.
  destruct a as [ya ma da], b as [yb mb db]. simpl. intros Ha Hb.
  pose proof (day_of_year_bounds _ _ _ Ha) as Hdoya.
  pose proof (day_of_year_bounds _ _ _ Hb) as Hdoyb.
  pose proof (valid_inv _ _ _ Ha) as (Hya & Hma & Hda).
  pose proof (valid_inv _ _ _ Hb) as (Hyb & Hmb & Hdb).
  destruct (ya ?= yb) eqn:Hy.
  - apply Z.compare_eq in Hy as ->. destruct (ma ?= mb) eqn:Hm.
    + apply Z.compare_eq in Hm as ->. intros ?%Z.ltb_lt. lia.
    + intros _. rewrite Z.compare_lt_iff in Hm.
      pose proof (days_before_month_order yb ma mb Hma Hmb Hm). lia.
    + done.
  - intros _. rewrite Z.compare_lt_iff in Hy.
    pose proof (days_before_year_mono (ya + 1) yb) as H.
    rewrite days_before_year_succ in H. lia.
  - done.
Qed.

Lemma lt_trichotomy (a b : PyDate.date) :
  PyDate.lt a b = false -> PyDate.lt b a = false -> a = b.
Proof.
  unfold PyDate.lt. destruct a as [ya ma da], b as [yb mb db]. simpl.
  rewrite (Z.compare_antisym ya yb), (Z.compare_antisym ma mb).
  destruct (ya ?= yb) eqn:Hy; simpl; try done.
  destruct (ma ?= mb) eqn:Hm; simpl; try done.
  apply Z.compare_eq in Hy, Hm. intros ?%Z.ltb_ge ?%Z.ltb_ge.
  f_equal; lia.
Qed.

Lemma lt_false_toordinal (a b : PyDate.date) :
  PyDate.wf a = true -> PyDate.wf b = true ->
  PyDate.lt a b = false -> PyDate.toordinal b <= PyDate.toordinal a.
Proof.
  intros Ha Hb Hab. destruct (PyDate.lt b a) eqn:Hba.
  - pose proof (lt_toordinal b a Hb Ha Hba). lia.
  - by rewrite (lt_trichotomy a b Hab Hba).
Qed.

Lemma is_leap_next (y : Z) :
  PyDate.is_leap y = true -> PyDate.is_leap (y + 1) = false.
Proof.
  unfold PyDate.is_leap.
  repeat match goal with
         | |- context [?x mod ?k =? 0] =>
             let E := fresh "E" in
             destruct (x mod k =? 0) eqn:E;
             [apply Z.eqb_eq in E | apply Z.eqb_neq in E]
         end; simpl; try done; exfalso; Z.div_mod_to_equations; lia.
Qed.

End calendar.

(** ** More on upcoming birthdays *)

Lemma upcoming_loop_raise_kind (libc : PyDate.year_style)
    (today : PyDate.date) (records : list record) (acc : list greeting)
    (e : exn) :
  (forall r e', r ∈ records -> upcoming_body libc today r = Raise e' ->
                e' = ValueError) ->
  upcoming_loop libc today records acc = Raise e -> e = ValueError.
Proof.
  revert acc. induction records as [| r rest IH]; intros acc Hall; [done |].
  simpl. unfold bind.
  destruct (upcoming_body libc today r) as [[g |] |] eqn:Hb.
  - apply IH. intros r' e' Hr'. apply Hall. by right.
  - apply IH. intros r' e' Hr'. apply Hall. by right.
  - intros [= <-]. apply (Hall r); [by left | done].
Qed.

Lemma upcoming_in_book_order_aux (libc : PyDate.year_style)
    (today : PyDate.date) (book : AddressBook) (out : list greeting) :
  get_upcoming_birthdays libc today book = Ok out ->
  out = omap (entry_of libc today) (PyDict.values book).
Proof.
  unfold get_upcoming_birthdays. by intros [_ ->]%upcoming_loop_ok.
Qed.

Section upcoming_facts.
Local Open Scope Z_scope.

Lemma projected_Ok (bday today ty : PyDate.date) :
  projected bday today = Ok ty ->
  PyDate.wf ty = true
  /\ PyDate.month ty = PyDate.month bday /\ PyDate.day ty = PyDate.day bday
  /\ ((PyDate.year ty = PyDate.year today /\ PyDate.lt ty today = false)
      \/ (PyDate.year ty = PyDate.year today + 1
          /\ PyDate.valid (PyDate.year today) (PyDate.month bday)
               (PyDate.day bday) = true
          /\ PyDate.lt (PyDate.mkDate (PyDate.year today) (PyDate.month bday)
                          (PyDate.day bday)) today = true)).
Proof.
  unfold projected, PyDate.replace_year, PyDate.new, PyDate.wf.
  destruct (PyDate.valid (PyDate.year today) _ _) eqn:Hv; [| done].
  destruct (PyDate.lt _ today) eqn:Hlt.
  - destruct (PyDate.valid (PyDate.year today + 1) _ _) eqn:Hv'; [| done].
    intros [= <-]. simpl. repeat split; try done. by right.
  - intros [= <-]. simpl. repeat split; try done. by left.
Qed.

Lemma year_step_ordinal (y m d : Z) :
  PyDate.valid y m d = true -> PyDate.valid (y + 1) m d = true ->
  365 <= PyDate.ymd2ord (y + 1) m d - PyDate.ymd2ord y m d <= 366.
Proof.
  intros Hv Hv'. unfold PyDate.ymd2ord, PyDate.days_before_month.
  rewrite days_before_year_succ.
  pose proof (is_leap_next y) as Hnext.
  destruct (PyDate.is_leap y), (PyDate.is_leap (y + 1)), (2 <? m);
    simpl; try lia; by specialize (Hnext eq_refl).
Qed.

(** The projected birthday is today or one of the next 365 days: the
    lower bound of the test on [days_ahead] never excludes anybody. *)
Theorem projected_days_ahead (bday today ty : PyDate.date) :
  PyDate.wf today = true ->
  projected bday today = Ok ty ->
  PyDate.wf ty = true
  /\ PyDate.month ty = PyDate.month bday /\ PyDate.day ty = PyDate.day bday
  /\ 0 <= PyDate.sub_days ty today <= 365.
Proof.
  intros Hwf (Hty & Hm & Hd & Hcase)%projected_Ok.
  split; [done |]. split; [done |]. split; [done |].
  unfold PyDate.sub_days.
  pose proof (day_of_year_bounds _ _ _ Hwf) as Hdoy.
  pose proof (day_of_year_bounds _ _ _ Hty) as Hdoy'.
  destruct Hcase as [[Hy Hlt] | (Hy & Hv & Hlt)].
  - pose proof (lt_false_toordinal ty today Hty Hwf Hlt) as Hle.
    unfold PyDate.toordinal, PyDate.ymd2ord in *. rewrite Hy in *.
    destruct (PyDate.is_leap (PyDate.year today)); simpl in *; lia.
  - pose proof (lt_toordinal
                  (PyDate.mkDate (PyDate.year today) (PyDate.month bday)
                     (PyDate.day bday)) today Hv Hwf Hlt) as Hlt'.
    destruct ty as [y m d]. simpl in *. subst y m d.
    pose proof (year_step_ordinal _ _ _ Hv Hty) as Hstep.
    unfold PyDate.toordinal in *. simpl in *.
    unfold PyDate.ymd2ord in Hdoy, Hdoy' |- *.
    assert (PyDate.ymd2ord (PyDate.year today) (PyDate.month today)
              (PyDate.day today)
            <= PyDate.days_before_year (PyDate.year today + 1)) as Hend.
    { unfold PyDate.ymd2ord. rewrite days_before_year_succ. lia. }
    unfold PyDate.ymd2ord in *. lia.
Qed.

Lemma projected_days_ahead_witness :
  let today := PyDate.mkDate 2024 6 10 in
  let ty := PyDate.mkDate 2025 1 5 in
  projected (PyDate.mkDate 1990 1 5) today = Ok ty
  /\ 0 <= PyDate.sub_days ty today <= 365.
Proof.
  intros today ty. split; [reflexivity |].
  apply (projected_days_ahead (PyDate.mkDate 1990 1 5) today ty);
    reflexivity.
Defined.

Lemma greeting_date_Ok (ty gd : PyDate.date) :
  PyDate.wf ty = true -> greeting_date ty = Ok gd ->
  PyDate.wf gd = true /\ working_day gd
  /\ 0 <= PyDate.sub_days gd ty <= 2
  /\ (PyDate.weekday ty = 5 \/ PyDate.weekday ty = 6 -> PyDate.weekday gd = 0)
  /\ (working_day ty -> gd = ty).
Proof.
  intros Hwf. unfold greeting_date, working_day, PyDate.sub_days.
  assert (0 <= PyDate.weekday ty <= 6) as Hrange.
  { unfold PyDate.weekday. pose proof (Z.mod_pos_bound (PyDate.toordinal ty + 6) 7).
    lia. }
  destruct (PyDate.weekday ty =? 5) eqn:H5.
  - apply Z.eqb_eq in H5. intros [Hgd Ho]%add_days_Ok.
    unfold PyDate.weekday in *. rewrite Ho.
    repeat split; try done; try lia; Z.div_mod_to_equations; lia.
  - apply Z.eqb_neq in H5. destruct (PyDate.weekday ty =? 6) eqn:H6.
    + apply Z.eqb_eq in H6. intros [Hgd Ho]%add_days_Ok.
      unfold PyDate.weekday in *. rewrite Ho.
      repeat split; try done; try lia; Z.div_mod_to_equations; lia.
    + apply Z.eqb_neq in H6. intros [= <-].
      repeat split; try done; lia.
Qed.

Lemma upcoming_body_Some (libc : PyDate.year_style) (today : PyDate.date)
    (rec : record) (g : greeting) :
  upcoming_body libc today rec = Ok (Some g) ->
  exists b ty gd,
    birthday rec = Some b
    /\ projected (Birthday_value b) today = Ok ty
    /\ 0 <= PyDate.sub_days ty today <= 6
    /\ greeting_date ty = Ok gd
    /\ g = mkGreeting (Name_value (name rec)) (PyDate.strftime_Ymd libc gd).
Proof.
  destruct (birthday rec) as [b |] eqn:Hb;
    [| by unfold upcoming_body; rewrite Hb].
  rewrite (upcoming_body_projected libc today rec b Hb).
  destruct (projected (Birthday_value b) today) as [ty |] eqn:Hp; [| done].
  destruct (_ && _) eqn:Hw; [| done].
  apply andb_true_iff in Hw as [H0 H6]. apply Z.leb_le in H0, H6.
  destruct (greeting_date ty) as [gd |] eqn:Hgd; [| done].
  intros [= <-]. exists b, ty, gd. repeat split; done.
Qed.

(** Every entry [get_upcoming_birthdays] lists belongs to a record of the
    book with a birthday: it carries that record's name, the birthday's
    day and month fall on a date [ty] of the calendar that is today or one
    of the six days after it, and the greeting date written in the entry
    is a day from Monday to Friday: [ty] itself on a working day, the
    Monday after it when [ty] is a Saturday or a Sunday. *)
Theorem greetings_on_working_days (libc : PyDate.year_style)
    (today : PyDate.date) (book : AddressBook) (out : list greeting)
    (g : greeting) :
  PyDate.wf today = true ->
  get_upcoming_birthdays libc today book = Ok out ->
  g ∈ out ->
  exists rec b ty gd,
    rec ∈ PyDict.values book
    /\ birthday rec = Some b
    /\ greeting_name g = Name_value (name rec)
    /\ PyDate.wf ty = true
    /\ PyDate.month ty = PyDate.month (Birthday_value b)
    /\ PyDate.day ty = PyDate.day (Birthday_value b)
    /\ 0 <= PyDate.sub_days ty today <= 6
    /\ congratulation_date g = PyDate.strftime_Ymd libc gd
    /\ PyDate.wf gd = true /\ working_day gd
    /\ 0 <= PyDate.sub_days gd ty <= 2
    /\ (PyDate.weekday ty = 5 \/ PyDate.weekday ty = 6 ->
        PyDate.weekday gd = 0)
    /\ (working_day ty -> gd = ty).
Proof.
  intros Hwf Hout Hg.
  apply upcoming_in_book_order_aux in Hout as ->.
  apply list_elem_of_omap in Hg as (rec & Hin & Hentry).
  unfold entry_of in Hentry.
  destruct (upcoming_body libc today rec) as [e |] eqn:Hbody; [| done].
  subst e. apply upcoming_body_Some in Hbody
    as (b & ty & gd & Hb & Hp & Hw & Hgd & ->).
  apply projected_Ok in Hp as (Hty & Hm & Hd & _).
  destruct (greeting_date_Ok ty gd Hty Hgd) as (? & ? & ? & ? & ?).
  exists rec, b, ty, gd. repeat (split; [done |]). done.
Qed.

Lemma greetings_on_working_days_witness :
  let today := PyDate.mkDate 2024 6 10 in
  let sat := Sample.contact "Sat" [] (Some (15, 6, 1990)%Z) in
  let book := [(lit "Sat", sat)] in
  exists rec b ty gd,
    rec ∈ PyDict.values book
    /\ birthday rec = Some b
    /\ PyDate.month ty = PyDate.month (Birthday_value b)
    /\ PyDate.day ty = PyDate.day (Birthday_value b)
    /\ 0 <= PyDate.sub_days ty today <= 6
    /\ lit "2024.06.17" = PyDate.strftime_Ymd PyDate.Padded gd
    /\ working_day gd.
Proof.
  intros today sat book.
  destruct (greetings_on_working_days PyDate.Padded today book
              [mkGreeting (lit "Sat") (lit "2024.06.17")]
              (mkGreeting (lit "Sat") (lit "2024.06.17")))
    as (rec & b & ty & gd & H1 & H2 & _ & _ & H5 & H6 & H7 & H8 & _ & H10 & _).
  - reflexivity.
  - reflexivity.
  - by left.
  - by exists rec, b, ty, gd.
Defined.

Lemma replace_year_ok_iff (d : PyDate.date) (y : Z) :
  PyDate.wf d = true -> 1 <= y <= 9999 ->
  (is_ok (PyDate.replace_year d y) = true
   <-> (leap_day d -> PyDate.is_leap y = true))
  /\ (forall e, PyDate.replace_year d y = Raise e -> e = ValueError).
Proof.
  intros (Hy & Hm & Hd)%valid_inv Hrange.
  unfold PyDate.replace_year, PyDate.new, leap_day.
  split; [| intros e; destruct (PyDate.valid _ _ _); [done | by intros [= <-]]].
  destruct (PyDate.valid y _ _) eqn:Hv.
  - split; [| done]. intros _ [Hm2 Hd29].
    apply valid_inv in Hv as (_ & _ & Hd').
    unfold PyDate.days_in_month in Hd'. rewrite Hm2, Hd29 in Hd'.
    destruct (PyDate.is_leap y); [done |].
    change (PyDate.index PyDate.DAYS_IN_MONTH 2) with 28 in Hd'.
    simpl in Hd'. lia.
  - split; [done |]. intros Himp. exfalso.
    assert (PyDate.valid y (PyDate.month d) (PyDate.day d) = true);
      [| congruence].
    unfold PyDate.valid, PyDate.MINYEAR, PyDate.MAXYEAR.
    rewrite !andb_true_iff, !Z.leb_le.
    repeat split; try lia.
    unfold PyDate.days_in_month in *.
    destruct (PyDate.month d =? 2) eqn:E2.
    + apply Z.eqb_eq in E2. rewrite E2 in *.
      change (PyDate.index PyDate.DAYS_IN_MONTH 2) with 28 in *.
      destruct (Z.eq_dec (PyDate.day d) 29) as [E29 | E29].
      * rewrite Himp by done. simpl. lia.
      * destruct (PyDate.is_leap (PyDate.year d)), (PyDate.is_leap y);
          simpl in *; lia.
    + simpl in *. lia.
Qed.


(** In a leap year the 29th of February is before today from the 1st of
    March on. *)
Lemma leap_day_before (today : PyDate.date) :
  PyDate.wf today = true ->
  PyDate.lt (PyDate.mkDate (PyDate.year today) 2 29) today
  = (3 <=? PyDate.month today).
Proof.
  intros (Hy & Hm & Hd)%valid_inv. unfold PyDate.lt.
  cbn [PyDate.year PyDate.month PyDate.day].
  rewrite Z.compare_refl.
  destruct (2 ?= PyDate.month today) eqn:Hc.
  - apply Z.compare_eq in Hc. rewrite <- Hc in *.
    unfold PyDate.days_in_month in Hd.
    change (PyDate.index PyDate.DAYS_IN_MONTH 2) with 28 in Hd.
    destruct (PyDate.is_leap (PyDate.year today)); simpl in Hd.
    + by rewrite (proj2 (Z.ltb_ge _ _)) by lia.
    + by rewrite (proj2 (Z.ltb_ge _ _)) by lia.
  - rewrite Z.compare_lt_iff in Hc. symmetry. apply Z.leb_le. lia.
  - rewrite Z.compare_gt_iff in Hc. symmetry. apply Z.leb_gt. lia.
Qed.

Lemma toordinal_end_of_year (d : PyDate.date) :
  PyDate.wf d = true ->
  PyDate.toordinal d <= PyDate.days_before_year (PyDate.year d + 1).
Proof.
  intros Hwf. pose proof (day_of_year_bounds _ _ _ Hwf).
  unfold PyDate.toordinal, PyDate.ymd2ord. rewrite days_before_year_succ. lia.
Qed.

(** Before the year 9999 the greeting day always exists. *)
Lemma greeting_date_total (ty : PyDate.date) :
  PyDate.wf ty = true -> PyDate.year ty <= 9998 ->
  is_ok (greeting_date ty) = true.
Proof.
  intros Hwf Hy. pose proof (toordinal_bounds ty Hwf) as Hb.
  pose proof (toordinal_end_of_year ty Hwf) as He.
  pose proof (days_before_year_mono (PyDate.year ty + 1) 9999) as Hm.
  change (PyDate.days_before_year 9999) with 3651694 in Hm.
  unfold greeting_date, PyDate.MAXORDINAL in *.
  destruct (_ =? 5); [apply add_days_in_range; unfold PyDate.MAXORDINAL; lia |].
  destruct (_ =? 6); [apply add_days_in_range; unfold PyDate.MAXORDINAL; lia |].
  done.
Qed.

Lemma projected_returns_iff (bday today : PyDate.date) :
  PyDate.wf today = true -> PyDate.year today <= 9998 ->
  PyDate.wf bday = true ->
  (is_ok (projected bday today) = true
   <-> (leap_day bday ->
        PyDate.is_leap (PyDate.year today) = true /\ PyDate.month today <= 2))
  /\ (forall e, projected bday today = Raise e -> e = ValueError).
Proof.
  intros Hwf Hy Hb. pose proof (valid_inv _ _ _ Hwf) as (Hyt & _ & _).
  destruct (replace_year_ok_iff bday (PyDate.year today) Hb) as [H1 H1e];
    [lia |].
  destruct (replace_year_ok_iff bday (PyDate.year today + 1) Hb) as [H2 H2e];
    [lia |].
  unfold projected.
  destruct (PyDate.replace_year bday (PyDate.year today)) as [ty1 |] eqn:Hr1.
  - pose proof (proj1 H1 eq_refl) as Hleap1.
    apply new_inv in Hr1 as ->.
    destruct (PyDate.lt _ today) eqn:Hlt.
    + split; [| done]. rewrite H2. split.
      * intros Himp Hld. specialize (Hleap1 Hld). specialize (Himp Hld).
        by rewrite (is_leap_next _ Hleap1) in Himp.
      * intros Himp Hld. destruct (Himp Hld) as [_ Hmonth].
        destruct Hld as [Hm2 Hd29]. rewrite Hm2, Hd29 in Hlt.
        rewrite leap_day_before in Hlt by done.
        apply Z.leb_le in Hlt. lia.
    + split; [| done]. split; [| done]. intros _ Hld.
      split; [by apply Hleap1 |].
      destruct Hld as [Hm2 Hd29]. rewrite Hm2, Hd29 in Hlt.
      rewrite leap_day_before in Hlt by done.
      apply Z.leb_gt in Hlt. lia.
  - split; [| intros e' [= <-]; by apply H1e].
    split; [done |]. intros Himp.
    apply H1. intros Hld. by destruct (Himp Hld).
Qed.

Lemma upcoming_body_returns_iff (libc : PyDate.year_style)
    (today : PyDate.date) (rec : record) :
  PyDate.wf today = true -> PyDate.year today <= 9997 ->
  (forall b, birthday rec = Some b -> PyDate.wf (Birthday_value b) = true) ->
  (is_ok (upcoming_body libc today rec) = true
   <-> (forall b, birthday rec = Some b -> leap_day (Birthday_value b) ->
        PyDate.is_leap (PyDate.year today) = true /\ PyDate.month today <= 2))
  /\ (forall e, upcoming_body libc today rec = Raise e -> e = ValueError).
Proof.
  intros Hwf Hy Hb.
  destruct (birthday rec) as [b |] eqn:Hbd;
    [| unfold upcoming_body; rewrite Hbd; by split].
  specialize (Hb b eq_refl).
  destruct (projected_returns_iff (Birthday_value b) today Hwf) as [Hiff He];
    [lia | done |].
  rewrite (upcoming_body_projected libc today rec b Hbd).
  destruct (projected (Birthday_value b) today) as [ty |] eqn:Hp.
  - pose proof (projected_Ok _ _ _ Hp) as (Hty & _ & _ & Hyear).
    pose proof (greeting_date_total ty Hty) as Hg.
    destruct (_ && _).
    + destruct (greeting_date ty); [| by discriminate Hg; lia].
      split; [| done]. split; [| done]. intros _ b' [= <-]. by apply Hiff.
    + split; [| done]. split; [| done]. intros _ b' [= <-]. by apply Hiff.
  - split; [| intros e' [= <-]; by apply He].
    split; [done |]. intros Himp. apply Hiff. by apply Himp.
Qed.

(** When [get_upcoming_birthdays] returns: with valid birthdays and today
    before the year 9998, the call returns a list exactly when every
    birthday on a 29th of February meets a leap year that has not passed
    February yet; otherwise it raises [ValueError]. *)
Theorem upcoming_returns_iff (libc : PyDate.year_style)
    (today : PyDate.date) (book : AddressBook) :
  PyDate.wf today = true -> PyDate.year today <= 9997 ->
  birthdays_wf book ->
  (is_ok (get_upcoming_birthdays libc today book) = true
   <-> Forall (fun rec => forall b,
                 birthday rec = Some b -> leap_day (Birthday_value b) ->
                 PyDate.is_leap (PyDate.year today) = true
                 /\ PyDate.month today <= 2)
         (PyDict.values book))
  /\ (is_ok (get_upcoming_birthdays libc today book) = false ->
      get_upcoming_birthdays libc today book = Raise ValueError).
Proof.
  intros Hwf Hy Hb. unfold birthdays_wf in Hb. rewrite Forall_forall in Hb.
  assert (Forall (fun rec => is_ok (upcoming_body libc today rec) = true)
            (PyDict.values book)
          <-> Forall (fun rec => forall b,
                        birthday rec = Some b -> leap_day (Birthday_value b) ->
                        PyDate.is_leap (PyDate.year today) = true
                        /\ PyDate.month today <= 2)
                (PyDict.values book)) as <-.
  { rewrite !Forall_forall. split; intros H rec Hin.
    - by apply (upcoming_body_returns_iff libc today rec Hwf Hy (Hb rec Hin)), H.
    - by apply (upcoming_body_returns_iff libc today rec Hwf Hy (Hb rec Hin)), H. }
  unfold get_upcoming_birthdays.
  destruct (upcoming_loop libc today (PyDict.values book) []) as [out | e]
    eqn:Hloop.
  - apply upcoming_loop_ok in Hloop as [Hok _]. by split.
  - split.
    + split; [done |]. intros Hok.
      assert (upcoming_loop libc today (PyDict.values book) []
              = Ok ([] ++ omap (entry_of libc today) (PyDict.values book)))
        as Heq by by apply upcoming_loop_ok.
      congruence.
    + intros _. f_equal.
      apply (upcoming_loop_raise_kind libc today (PyDict.values book) [] e);
        [| done].
      intros r e' Hin.
      by apply (upcoming_body_returns_iff libc today r Hwf Hy (Hb r Hin)).
Qed.

Lemma upcoming_returns_iff_witness :
  let book := [(lit "Bob", Sample.contact "Bob" [] (Some (29, 2, 2000)%Z));
               (lit "Amy", Sample.contact "Amy" [] (Some (13, 6, 1990)%Z))] in
  is_ok (get_upcoming_birthdays PyDate.Padded (PyDate.mkDate 2024 2 10) book)
  = true
  /\ get_upcoming_birthdays PyDate.Padded (PyDate.mkDate 2024 3 1) book
     = Raise ValueError.
Proof.
  intros book.
  assert (birthdays_wf book) as Hb.
  { apply Forall_cons. split; [by intros b [= <-] |].
    apply Forall_cons. split; [by intros b [= <-] | done]. }
  split.
  - apply (upcoming_returns_iff PyDate.Padded (PyDate.mkDate 2024 2 10) book);
      [reflexivity | by vm_compute | exact Hb |].
    apply Forall_cons. split; [intros _ _ _; by vm_compute |].
    apply Forall_cons. split; [| done].
    intros b [= <-] [Hm _]. by vm_compute in Hm.
  - apply (upcoming_returns_iff PyDate.Padded (PyDate.mkDate 2024 3 1) book);
      [reflexivity | by vm_compute | exact Hb | reflexivity].
Defined.

(** Dates of different years are far apart. *)
Lemma earlier_year_toordinal (a d : PyDate.date) :
  PyDate.wf a = true -> PyDate.wf d = true ->
  PyDate.year d < PyDate.year a -> PyDate.toordinal d < PyDate.toordinal a.
Proof.
  intros Ha Hd Hy. apply lt_toordinal; [done | done |].
  unfold PyDate.lt. by rewrite (proj2 (Z.compare_lt_iff _ _) Hy).
Qed.

Lemma second_year_toordinal (a d : PyDate.date) :
  PyDate.wf a = true -> PyDate.wf d = true ->
  PyDate.year a + 2 <= PyDate.year d ->
  366 <= PyDate.toordinal d - PyDate.toordinal a.
Proof.
  unfold PyDate.wf, PyDate.toordinal, PyDate.ymd2ord. intros Ha Hd Hy.
  pose proof (day_of_year_bounds _ _ _ Ha) as Hdoya.
  pose proof (day_of_year_bounds _ _ _ Hd) as Hdoyd.
  pose proof (days_before_year_mono (PyDate.year a + 1) (PyDate.year d)) as H.
  rewrite days_before_year_succ in H. lia.
Qed.

(** The projected birthday is the only date with the birthday's day and
    month among today and the six days after it. *)
Lemma projected_unique (bday today ty d : PyDate.date) :
  PyDate.wf today = true ->
  projected bday today = Ok ty ->
  PyDate.wf d = true ->
  PyDate.month d = PyDate.month bday -> PyDate.day d = PyDate.day bday ->
  0 <= PyDate.sub_days d today <= 6 ->
  d = ty.
Proof.
  intros Hwf (Hty & Hm & Hd & Hcase)%projected_Ok Hwfd Hmd Hdd Hwin.
  unfold PyDate.sub_days in Hwin.
  destruct d as [yd md dd], ty as [yt mt dt]. simpl in *. subst md dd mt dt.
  assert (yd = yt -> PyDate.mkDate yd (PyDate.month bday) (PyDate.day bday)
                     = PyDate.mkDate yt (PyDate.month bday) (PyDate.day bday))
    as Hsame by (by intros ->).
  destruct (Z.lt_total yd (PyDate.year today)) as [Hlt | [Heq | Hgt]].
  - pose proof (earlier_year_toordinal today _ Hwf Hwfd Hlt). lia.
  - destruct Hcase as [[Hy Hnlt] | (Hy & Hv & Hlt)].
    + apply Hsame. lia.
    + exfalso. subst yd.
      pose proof (lt_toordinal _ today Hwfd Hwf Hlt). lia.
  - destruct (Z.le_gt_cases (PyDate.year today + 2) yd) as [Hfar | Hnear].
    + pose proof (second_year_toordinal today _ Hwf Hwfd Hfar). lia.
    + assert (yd = PyDate.year today + 1) as -> by lia.
      destruct Hcase as [[Hy Hnlt] | (Hy & Hv & Hlt)].
      * exfalso. subst yt.
        pose proof (lt_false_toordinal _ today Hty Hwf Hnlt) as Hle.
        pose proof (year_step_ordinal _ _ _ Hty Hwfd) as Hstep.
        unfold PyDate.toordinal in *. simpl in *. lia.
      * apply Hsame. lia.
Qed.

Lemma listed_iff_in_window (libc : PyDate.year_style) (today : PyDate.date)
    (book : AddressBook) (out : list greeting) (rec : record) (b : Birthday) :
  book_wf book ->
  get_upcoming_birthdays libc today book = Ok out ->
  rec ∈ PyDict.values book -> birthday rec = Some b ->
  exists ty,
    projected (Birthday_value b) today = Ok ty
    /\ ((exists g, g ∈ out /\ greeting_name g = Name_value (name rec))
        <-> 0 <= PyDate.sub_days ty today <= 6).
Proof.
  intros Hwf Hout Hin Hb.
  apply upcoming_in_book_order_aux in Hout as Hlist.
  apply upcoming_loop_ok in Hout as [Hok _].
  rewrite Forall_forall in Hok. pose proof (Hok rec Hin) as Hrec.
  pose proof (upcoming_body_projected libc today rec b Hb) as Hbody.
  destruct (projected (Birthday_value b) today) as [ty |] eqn:Hp;
    [| by rewrite Hbody in Hrec].
  exists ty. split; [done |]. subst out.
  assert (forall g, g ∈ omap (entry_of libc today) (PyDict.values book) ->
                    greeting_name g = Name_value (name rec) ->
                    entry_of libc today rec = Some g) as Hmine.
  { intros g (rec' & Hin' & Hg)%list_elem_of_omap Hname.
    rewrite (entry_of_name _ _ _ _ Hg) in Hname.
    by rewrite <- (NoDup_fmap_eq _ _ rec' rec (book_wf_names _ Hwf)
                     Hin' Hin Hname). }
  unfold entry_of in Hmine. rewrite Hbody in Hmine, Hrec.
  destruct (_ && _) eqn:Hw.
  - apply andb_true_iff in Hw as [H0 H6]. apply Z.leb_le in H0, H6.
    destruct (greeting_date ty) as [gd |] eqn:Hgd; [| done].
    split; [intros _; lia |]. intros _.
    exists (mkGreeting (Name_value (name rec)) (PyDate.strftime_Ymd libc gd)).
    split; [| done]. apply list_elem_of_omap. exists rec. split; [done |].
    unfold entry_of. by rewrite Hbody.
  - split.
    + intros (g & Hg & Hname). by apply Hmine in Hg.
    + intros [H0 H6]. apply Z.leb_le in H0, H6. by rewrite H0, H6 in Hw.
Qed.

(** Who is listed, in terms of the calendar alone: whenever
    [get_upcoming_birthdays] returns on a book with one record per name, a
    record with a birthday has an entry in the list exactly when the
    birthday's day and month fall on today or on one of the six days after
    it.  Birthdays that were earlier this year are found again in the first
    days of the next year, and no date before today is ever taken for an
    upcoming one. *)
Theorem upcoming_listed_iff_within_week (libc : PyDate.year_style)
    (today : PyDate.date) (book : AddressBook) (out : list greeting)
    (rec : record) (b : Birthday) :
  PyDate.wf today = true -> book_wf book ->
  get_upcoming_birthdays libc today book = Ok out ->
  rec ∈ PyDict.values book -> birthday rec = Some b ->
  ((exists g, g ∈ out /\ greeting_name g = Name_value (name rec))
   <-> exists d,
         PyDate.wf d = true
         /\ PyDate.month d = PyDate.month (Birthday_value b)
         /\ PyDate.day d = PyDate.day (Birthday_value b)
         /\ 0 <= PyDate.sub_days d today <= 6).
Proof.
  intros Hwf Hbook Hout Hin Hb.
  destruct (listed_iff_in_window libc today book out rec b Hbook Hout Hin Hb)
    as (ty & Hp & ->).
  split.
  - intros Hwin. exists ty.
    apply projected_Ok in Hp as (Hty & Hm & Hd & _).
    split; [done |]. split; [done |]. split; done.
  - intros (d & Hwfd & Hm & Hd & Hwin).
    by rewrite <- (projected_unique _ _ _ d Hwf Hp Hwfd Hm Hd Hwin).
Qed.

Lemma upcoming_listed_iff_within_week_witness :
  let today := PyDate.mkDate 2024 12 29 in
  let jan := Sample.contact "Jan" [] (Some (2, 1, 1990)%Z) in
  let dec := Sample.contact "Dec" [] (Some (20, 12, 1990)%Z) in
  let book := [(lit "Jan", jan); (lit "Dec", dec)] in
  let out := [mkGreeting (lit "Jan") (lit "2025.01.02")] in
  get_upcoming_birthdays PyDate.Padded today book = Ok out
  /\ (exists g, g ∈ out /\ greeting_name g = lit "Jan")
  /\ ~ (exists d, PyDate.wf d = true
                  /\ PyDate.month d = 12 /\ PyDate.day d = 20
                  /\ 0 <= PyDate.sub_days d today <= 6).
Proof.
  intros today jan dec book out.
  assert (book_wf book) as Hbook.
  { split; [apply (bool_decide_unpack _); by vm_compute |].
    by repeat constructor. }
  split; [reflexivity |]. split.
  - apply (upcoming_listed_iff_within_week PyDate.Padded today book out jan
             (mkBirthday (PyDate.mkDate 1990 1 2)));
      [reflexivity | exact Hbook | reflexivity | by left | reflexivity |].
    exists (PyDate.mkDate 2025 1 2). by vm_compute.
  - intros Hd.
    apply (upcoming_listed_iff_within_week PyDate.Padded today book out dec
             (mkBirthday (PyDate.mkDate 1990 12 20))) in Hd
      as (g & Hg & Hname);
      [| reflexivity | exact Hbook | reflexivity
       | right; by left | reflexivity].
    apply list_elem_of_singleton in Hg as ->. by vm_compute in Hname.
Defined.

End upcoming_facts.

(** ** More on records *)

Lemma remove_phone_found (s : pystr) (self : record) :
  s ∈ (Phone_value <$> phones self) ->
  exists l1 ph l2,
    phones self = l1 ++ ph :: l2 /\ Phone_value ph = s
    /\ (s ∉ Phone_value <$> l1)
    /\ remove_phone s self = (set_phones (l1 ++ l2) self, Ok tt).
Proof.
  intros Hin. unfold remove_phone, mbind, get.
  destruct (list_find (fun ph => Phone_value ph = s) (phones self))
    as [[idx ph] |] eqn:Hfind.
  - apply list_find_Some in Hfind as (Hidx & Hv & Hfirst).
    exists (take idx (phones self)), ph, (drop (S idx) (phones self)).
    split; [by rewrite take_drop_middle |]. split; [done |]. split.
    + intros (ph' & Hv' & Hin')%list_elem_of_fmap.
      apply elem_of_take in Hin' as (j & Hj & Hlt).
      by apply (Hfirst j ph' Hj Hlt).
    + unfold put. by rewrite delete_take_drop.
  - apply list_find_None in Hfind.
    apply list_elem_of_fmap in Hin as (ph & -> & Hin).
    rewrite Forall_forall in Hfind. by destruct (Hfind ph Hin).
Qed.

Lemma remove_phone_absent (s : pystr) (self : record) :
  (s ∉ Phone_value <$> phones self) -> remove_phone s self = (self, Ok tt).
Proof.
  intros Hin. unfold remove_phone, mbind, get.
  destruct (list_find (fun ph => Phone_value ph = s) (phones self))
    as [[idx ph] |] eqn:Hfind; [| done].
  apply list_find_Some in Hfind as (Hidx & Hv & _). exfalso. apply Hin.
  apply list_elem_of_fmap. exists ph. split; [done |].
  by apply list_elem_of_lookup_2 in Hidx.
Qed.

(** [remove_phone] never raises.  It takes out the first stored phone
    equal to the string and leaves the others in their order; when no
    stored phone equals it the record is unchanged; on a record whose
    numbers are pairwise different the number is gone afterwards. *)
Theorem remove_phone_spec (s : pystr) (self : record) :
  snd (remove_phone s self) = Ok tt
  /\ name (fst (remove_phone s self)) = name self
  /\ birthday (fst (remove_phone s self)) = birthday self
  /\ ((s ∉ Phone_value <$> phones self) -> fst (remove_phone s self) = self)
  /\ (s ∈ (Phone_value <$> phones self) ->
      exists l1 ph l2,
        phones self = l1 ++ ph :: l2 /\ Phone_value ph = s
        /\ (s ∉ Phone_value <$> l1)
        /\ phones (fst (remove_phone s self)) = l1 ++ l2)
  /\ (phones_unique self ->
      (s ∉ Phone_value <$> phones (fst (remove_phone s self)))
      /\ phones_unique (fst (remove_phone s self))).
Proof.
  destruct (decide (s ∈ Phone_value <$> phones self)) as [Hin | Hin].
  - destruct (remove_phone_found s self Hin)
      as (l1 & ph & l2 & Hsplit & Hv & Hl1 & Heq).
    pose proof (remove_phone_unique s self) as Hu.
    rewrite Heq in Hu |- *. simpl in Hu |- *. repeat split; try done.
    + by exists l1, ph, l2.
    + unfold phones_unique in H. rewrite Hsplit, fmap_app, fmap_cons, Hv in H.
      apply NoDup_app in H as (_ & Hdis & [Hl2 _]%NoDup_cons).
      rewrite fmap_app. intros [? | ?]%elem_of_app; [| done].
      apply (Hdis s); [done | by left].
    + by apply Hu.
  - rewrite (remove_phone_absent s self Hin). simpl.
    repeat split; try done.
Qed.

Lemma remove_phone_spec_witness :
  let ann := Sample.contact "Ann" ["1111111111"; "2222222222"] None in
  phones (fst (remove_phone (lit "2222222222") ann))
  = [mkPhone (lit "1111111111")]
  /\ fst (remove_phone (lit "3333333333") ann) = ann.
Proof.
  intros ann.
  pose proof (remove_phone_spec (lit "2222222222") ann)
    as (_ & _ & _ & _ & H1 & _).
  pose proof (remove_phone_spec (lit "3333333333") ann)
    as (_ & _ & _ & H2 & _).
  split; [| apply H2; apply (bool_decide_unpack _); by vm_compute].
  destruct H1 as (l1 & ph & l2 & Hs & Hv & Hl1 & ->);
    [apply (bool_decide_unpack _); by vm_compute |].
  destruct l1 as [| p1 [| p2 l1]].
  - injection Hs as <- <-. by vm_compute in Hv.
  - by injection Hs as <- <- <-.
  - injection Hs as _ _ Hs. by destruct l1.
Defined.

Lemma add_phone_valid_kept (s : pystr) (self : record) :
  phones_valid self -> phones_valid (fst (add_phone s self)).
Proof.
  intros Hv. destruct (add_phone_cases s self) as [-> | (_ & Hok & ->)];
    [done |].
  unfold phones_valid in *. simpl. apply Forall_app. split; [done |].
  by repeat constructor.
Qed.

(** [add_phone]: a string [Phone] rejects raises [ValueError] and changes
    nothing; an accepted one is stored afterwards, appended behind the
    phones already there unless it was stored already, in which case the
    record is unchanged; numbers stay valid and pairwise different, and a
    second call with the same string changes nothing more. *)
Theorem add_phone_spec (s : pystr) (self : record) :
  (is_ok (Phone_init s) = false -> add_phone s self = (self, Raise ValueError))
  /\ (is_ok (Phone_init s) = true ->
      snd (add_phone s self) = Ok tt
      /\ s ∈ (Phone_value <$> phones (fst (add_phone s self)))
      /\ (s ∈ (Phone_value <$> phones self) -> fst (add_phone s self) = self)
      /\ ((s ∉ Phone_value <$> phones self) ->
          phones (fst (add_phone s self)) = phones self ++ [mkPhone s]))
  /\ name (fst (add_phone s self)) = name self
  /\ birthday (fst (add_phone s self)) = birthday self
  /\ (phones_unique self -> phones_unique (fst (add_phone s self)))
  /\ (phones_valid self -> phones_valid (fst (add_phone s self)))
  /\ fst (add_phone s (fst (add_phone s self))) = fst (add_phone s self).
Proof.
  split; [apply add_phone_invalid |]. split.
  - intros Hok.
    destruct (decide (s ∈ Phone_value <$> phones self)) as [Hin | Hin].
    + rewrite (add_phone_present s self Hok Hin). by repeat split.
    + rewrite (add_phone_absent s self Hok Hin). simpl.
      repeat split; try done.
      rewrite fmap_app. apply elem_of_app. right. by left.
  - split; [by destruct (add_phone_cases s self) as [-> | (_ & _ & ->)] |].
    split; [by destruct (add_phone_cases s self) as [-> | (_ & _ & ->)] |].
    split; [apply add_phone_unique |].
    split; [apply add_phone_valid_kept |].
    by rewrite add_phone_twice.
Qed.

Lemma add_phone_spec_witness :
  let ann := Sample.contact "Ann" ["1111111111"] None in
  add_phone (lit "12") ann = (ann, Raise ValueError)
  /\ phones (fst (add_phone (lit "2222222222") ann))
     = phones ann ++ [mkPhone (lit "2222222222")]
  /\ fst (add_phone (lit "1111111111") ann) = ann.
Proof.
  intros ann.
  pose proof (add_phone_spec (lit "12") ann) as (H1 & _).
  pose proof (add_phone_spec (lit "2222222222") ann) as (_ & H2 & _).
  pose proof (add_phone_spec (lit "1111111111") ann) as (_ & H3 & _).
  split; [by apply H1 |]. split.
  - apply H2; [reflexivity | apply (bool_decide_unpack _); by vm_compute].
  - apply H3; [reflexivity | apply (bool_decide_unpack _); by vm_compute].
Defined.

(** ** Birthdays on display *)

Section display.
Local Open Scope Z_scope.

Lemma strip_no_space (x : pystr) :
  Forall (fun c => c <> SPACE) x -> strip x = x.
Proof.
  assert (forall l : pystr, Forall (fun c => c <> SPACE) l -> lstrip l = l)
    as Hl.
  { intros [| c l]; [done |]. intros [Hc _]%Forall_cons. simpl.
    by rewrite (proj2 (N.eqb_neq c SPACE)). }
  intros Hx. unfold strip. rewrite (Hl x Hx).
  rewrite Hl; [by rewrite rev_involutive |].
  by apply Forall_rev.
Qed.

Lemma digits_value_Some (x : pystr) (acc v : Z) :
  digits_value acc x = Some v ->
  Forall (fun c => is_Some (decimal_value c)) x.
Proof.
  revert acc. induction x as [| c x IH]; intros acc; simpl; [done |].
  destruct (decimal_value c) as [k |] eqn:Hk; [| done].
  intros H. constructor; [done | by apply (IH _ H)].
Qed.

Lemma ascii_digit_char (c : N) :
  is_ascii_digit c = true ->
  exists k, 0 <= k <= 9 /\ c = digit_char k.
Proof.
  unfold is_ascii_digit. intros [H1 H2]%andb_true_iff.
  apply N.leb_le in H1, H2. exists (Z.of_N c - 48). split; [lia |].
  unfold digit_char. lia.
Qed.

(** In a text of ASCII digits and full stops, what [int] reads is made of
    ASCII digits. *)
Lemma int_ascii (x : pystr) (v : Z) :
  Forall (fun c => is_ascii_digit c = true \/ c = DOT) x ->
  int x = Some v ->
  digits_value 0 x = Some v
  /\ Forall (fun c => exists k, 0 <= k <= 9 /\ c = digit_char k) x.
Proof.
  intros Hx. unfold int.
  rewrite strip_no_space.
  - destruct x as [| c x]; [done |]. intros Hv. split; [done |].
    apply digits_value_Some in Hv.
    rewrite Forall_forall in Hx, Hv. apply Forall_forall. intros c' Hc'.
    destruct (Hx c' Hc') as [Ha | ->]; [by apply ascii_digit_char |].
    by destruct (Hv DOT Hc') as [? ?].
  - eapply Forall_impl; [exact Hx |]. intros c [Ha | ->]; [| done].
    intros ->. done.
Qed.

Lemma zfill_2_int (x : pystr) (v : Z) :
  length x = 2%nat ->
  Forall (fun c => is_ascii_digit c = true \/ c = DOT) x ->
  int x = Some v -> PyDate.zfill 2 v = x.
Proof.
  intros Hlen Hx Hv. destruct (int_ascii x v Hx Hv) as [Hd Hk].
  destruct x as [| c1 [| c2 [| ? ?]]]; try done.
  apply Forall_cons in Hk as [(k1 & Hk1 & ->) Hk].
  apply Forall_cons in Hk as [(k2 & Hk2 & ->) _].
  simpl in Hd.
  rewrite (proj1 (proj2 (digit_char_facts k1 Hk1))) in Hd.
  rewrite (proj1 (proj2 (digit_char_facts k2 Hk2))) in Hd.
  injection Hd as <-. rewrite zfill_2.
  f_equal; [| f_equal]; f_equal; Z.div_mod_to_equations; lia.
Qed.

Lemma zfill_4_int (x : pystr) (v : Z) :
  length x = 4%nat ->
  Forall (fun c => is_ascii_digit c = true \/ c = DOT) x ->
  int x = Some v -> PyDate.zfill 4 v = x.
Proof.
  intros Hlen Hx Hv. destruct (int_ascii x v Hx Hv) as [Hd Hk].
  destruct x as [| c1 [| c2 [| c3 [| c4 [| ? ?]]]]]; try done.
  apply Forall_cons in Hk as [(k1 & Hk1 & ->) Hk].
  apply Forall_cons in Hk as [(k2 & Hk2 & ->) Hk].
  apply Forall_cons in Hk as [(k3 & Hk3 & ->) Hk].
  apply Forall_cons in Hk as [(k4 & Hk4 & ->) _].
  simpl in Hd.
  rewrite (proj1 (proj2 (digit_char_facts k1 Hk1))) in Hd.
  rewrite (proj1 (proj2 (digit_char_facts k2 Hk2))) in Hd.
  rewrite (proj1 (proj2 (digit_char_facts k3 Hk3))) in Hd.
  rewrite (proj1 (proj2 (digit_char_facts k4 Hk4))) in Hd.
  injection Hd as <-. rewrite zfill_4.
  repeat f_equal; Z.div_mod_to_equations; lia.
Qed.

(** A text of ten ASCII digits and full stops that parses is the text its
    date is written as. *)
Lemma strftime_strptime_strict (s : pystr) (dt : PyDate.date) :
  PyDate.strptime_dmY s = Ok dt -> strict_text s ->
  PyDate.strftime_dmY PyDate.Padded dt = s.
Proof.
  intros (d & m & y & -> & Hd & Hm & Hy & _ & Hid & Him & Hiy & _)%strptime_Ok
         [Hlen Hall].
  rewrite !length_app in Hlen. simpl in Hlen.
  rewrite !Forall_app in Hall. destruct Hall as (Had & _ & Ham & _ & Hay).
  unfold PyDate.strftime_dmY. cbn [PyDate.format_Y].
  rewrite (zfill_2_int d _), (zfill_2_int m _), (zfill_4_int y _);
    try done; lia.
Qed.
End display.

Lemma Birthday_display_roundtrip_strict (s : pystr) (b : Birthday) :
  Birthday_init s = Ok b -> strict_text s ->
  Birthday_str PyDate.Padded b = s.
Proof.
  destruct b as [dt]. unfold Birthday_init, Birthday_str.
  destruct (PyDate.strptime_dmY s) as [dt' | e] eqn:Hp; [| by destruct e].
  intros [= ->] Hs. by apply strftime_strptime_strict.
Qed.

(** [Birthday] and [Birthday.__str__] undo each other: a date of the
    calendar written by [__str__] is accepted and gives the date back, and
    an accepted text of ten ASCII digits and full stops is displayed as it
    was entered. *)
Theorem Birthday_display_roundtrip :
  (forall b, PyDate.wf (Birthday_value b) = true ->
             Birthday_init (Birthday_str PyDate.Padded b) = Ok b)
  /\ (forall s b, Birthday_init s = Ok b -> strict_text s ->
                  Birthday_str PyDate.Padded b = s)
  /\ (forall s b libc, Birthday_init s = Ok b -> strict_text s ->
                       (1000 <= PyDate.year (Birthday_value b))%Z ->
                       Birthday_str libc b = s).
Proof.
  pose proof Birthday_display_roundtrip_strict as Hback.
  split; [| split; [done |]].
  - intros [dt] Hwf. unfold Birthday_init, Birthday_str. simpl in *.
    by rewrite strptime_strftime.
  - intros s b libc Hb Hs Hy. rewrite <- (Hback s b Hb Hs).
    unfold Birthday_str, PyDate.strftime_dmY.
    by rewrite !format_Y_from_1000.
Qed.

Lemma Birthday_display_roundtrip_witness :
  Birthday_init (Birthday_str PyDate.Padded
                   (mkBirthday (PyDate.mkDate 1987 11 9)))
  = Ok (mkBirthday (PyDate.mkDate 1987 11 9))
  /\ Birthday_str PyDate.Unpadded (mkBirthday (PyDate.mkDate 1987 11 9))
     = lit "09.11.1987".
Proof.
  destruct Birthday_display_roundtrip as (H1 & _ & H3).
  split; [by apply H1 |].
  apply H3; [reflexivity | | by vm_compute].
  split; [reflexivity |].
  repeat constructor; by vm_compute.
Defined.

Lemma Birthday_init_raises (s : pystr) :
  is_ok (Birthday_init s) = false -> Birthday_init s = Raise ValueError.
Proof.
  unfold Birthday_init.
  destruct (PyDate.strptime_dmY s) as [dt | e] eqn:Hp; [done |].
  rewrite strptime_raises in Hp by (by rewrite Hp). by injection Hp as <-.
Qed.

Lemma Birthday_init_wf (s : pystr) (b : Birthday) :
  Birthday_init s = Ok b -> PyDate.wf (Birthday_value b) = true.
Proof.
  unfold Birthday_init.
  destruct (PyDate.strptime_dmY s) as [dt | e] eqn:Hp; [| by destruct e].
  intros [= <-]. by apply strptime_Ok in Hp as (? & ? & ? & ? & ? & ? & ? & ? & ? & ? & ? & ?).
Qed.

Lemma add_birthday_bad (s : pystr) (self : record) :
  is_ok (Birthday_init s) = false ->
  add_birthday s self = (self, Raise ValueError).
Proof.
  intros Hbad. unfold add_birthday, mbind, lift.
  by rewrite (Birthday_init_raises s Hbad).
Qed.

Lemma add_birthday_ok (s : pystr) (self : record) (b : Birthday) :
  Birthday_init s = Ok b ->
  add_birthday s self = (set_birthday (Some b) self, Ok tt).
Proof. intros Hb. unfold add_birthday, mbind, lift. by rewrite Hb. Qed.

(** [add_birthday]: a text [Birthday] rejects raises [ValueError] and
    leaves the record as it was, its earlier birthday included; an accepted
    one replaces whatever birthday was set by a date of the calendar; name
    and phones are never touched, and of two accepted texts the later one
    wins. *)
Theorem add_birthday_spec (s : pystr) (self : record) :
  (is_ok (Birthday_init s) = false ->
   add_birthday s self = (self, Raise ValueError))
  /\ (is_ok (Birthday_init s) = true ->
      exists b, Birthday_init s = Ok b
                /\ PyDate.wf (Birthday_value b) = true
                /\ add_birthday s self = (set_birthday (Some b) self, Ok tt))
  /\ name (fst (add_birthday s self)) = name self
  /\ phones (fst (add_birthday s self)) = phones self
  /\ (forall s2, is_ok (Birthday_init s2) = true ->
        fst (add_birthday s2 (fst (add_birthday s self)))
        = fst (add_birthday s2 self)).
Proof.
  split; [apply add_birthday_bad |].
  destruct (Birthday_init s) as [b |] eqn:Hb.
  - rewrite (add_birthday_ok s self b Hb). simpl. split_and!; try done.
    + intros _. exists b. split_and!; try done. by apply (Birthday_init_wf s).
    + intros s2 Hok2. destruct (Birthday_init s2) as [b2 |] eqn:Hb2; [| done].
      by rewrite !(add_birthday_ok s2 _ b2 Hb2).
  - rewrite (add_birthday_bad s self) by (by rewrite Hb). by split_and!.
Qed.

Lemma add_birthday_spec_witness :
  let ann := Sample.contact "Ann" [] (Some (1, 2, 1990)%Z) in
  add_birthday (lit "31.04.2023") ann = (ann, Raise ValueError)
  /\ (exists b, Birthday_init (lit "29.02.2024") = Ok b
                /\ PyDate.wf (Birthday_value b) = true
                /\ add_birthday (lit "29.02.2024") ann
                   = (set_birthday (Some b) ann, Ok tt)).
Proof.
  intros ann.
  pose proof (add_birthday_spec (lit "31.04.2023") ann) as (H1 & _).
  pose proof (add_birthday_spec (lit "29.02.2024") ann) as (_ & H2 & _).
  split; [by apply H1 | by apply H2].
Defined.

Lemma strftime_dmY_not_NOT_SET (libc : PyDate.year_style) (dt : PyDate.date) :
  PyDate.strftime_dmY libc dt <> NOT_SET.
Proof.
  unfold PyDate.strftime_dmY. rewrite zfill_2. simpl. by intros [=].
Qed.

(** [show_birthday]: the text for "not set" is returned exactly when the
    record has no birthday, so it can be told from a date; after
    [add_birthday] accepted a text of ten ASCII digits and full stops,
    [show_birthday] returns that text, and after a rejected text it
    returns what it returned before. *)
Theorem show_birthday_spec (libc : PyDate.year_style) (self : record)
    (s : pystr) :
  (show_birthday libc self = NOT_SET <-> birthday self = None)
  /\ (is_ok (Birthday_init s) = true -> strict_text s ->
      show_birthday PyDate.Padded (fst (add_birthday s self)) = s)
  /\ (is_ok (Birthday_init s) = false ->
      show_birthday libc (fst (add_birthday s self))
      = show_birthday libc self).
Proof.
  split; [| split].
  - unfold show_birthday, Birthday_str. destruct (birthday self) as [b |].
    + split; [| done]. intros H. by apply strftime_dmY_not_NOT_SET in H.
    + done.
  - intros Hok Hs. destruct (Birthday_init s) as [b |] eqn:Hb; [| done].
    rewrite (add_birthday_ok s self b Hb). unfold show_birthday. simpl.
    by apply Birthday_display_roundtrip_strict.
  - intros Hbad. by rewrite (add_birthday_bad s self Hbad).
Qed.

Lemma show_birthday_spec_witness :
  let ann := Sample.contact "Ann" [] None in
  show_birthday PyDate.Padded (fst (add_birthday (lit "09.11.1987") ann))
  = lit "09.11.1987"
  /\ show_birthday PyDate.Padded (fst (add_birthday (lit "9/11/87") ann))
     = NOT_SET.
Proof.
  intros ann.
  pose proof (show_birthday_spec PyDate.Padded ann (lit "09.11.1987"))
    as (_ & H1 & _).
  pose proof (show_birthday_spec PyDate.Padded ann (lit "9/11/87"))
    as (_ & _ & H2).
  split.
  - apply H1; [reflexivity |]. split; [reflexivity |].
    repeat constructor; by vm_compute.
  - rewrite H2; reflexivity.
Defined.

(** ** Finding and deleting *)

Lemma filter_all {A} (P : A -> Prop) `{!forall x, Decision (P x)}
    (l : list A) :
  (forall x, x ∈ l -> P x) -> filter P l = l.
Proof.
  induction l as [| a l IH]; intros Hall; [done |].
  rewrite filter_cons_True by (apply Hall; by left).
  rewrite IH; [done |]. intros x Hx. apply Hall. by right.
Qed.

Section more_dict_facts.
Context {V : Type}.
Implicit Types (k : pystr) (v : V) (d : list (pystr * V)).

Lemma del_absent k d : k ∉ PyDict.keys d -> PyDict.del k d = d.
Proof.
  induction d as [| [k' v'] d IH]; [done |].
  unfold PyDict.keys. rewrite fmap_cons.
  intros [Hne Hin]%not_elem_of_cons. simpl.
  rewrite (proj2 (eqb_neq k' k)) by done. by rewrite IH.
Qed.

Lemma keys_del k d :
  NoDup (PyDict.keys d) ->
  PyDict.keys (PyDict.del k d) = filter (fun k' => k' <> k) (PyDict.keys d).
Proof.
  induction d as [| [k' v'] d IH]; [done |].
  unfold PyDict.keys in *. rewrite fmap_cons.
  intros [Hk' Hd]%NoDup_cons. cbn [PyDict.del fst].
  destruct (eqb k' k) eqn:E.
  - apply eqb_eq in E as ->. rewrite filter_cons_False by (by intros ?).
    symmetry. apply filter_all. intros x Hx ->. done.
  - apply eqb_neq in E. rewrite filter_cons_True by done.
    rewrite fmap_cons. simpl. by rewrite IH.
Qed.

Lemma get_del_ne k k' d :
  k <> k' -> PyDict.get k' (PyDict.del k d) = PyDict.get k' d.
Proof.
  intros Hne. induction d as [| [k0 v0] d IH]; [done |]. simpl.
  destruct (eqb k0 k) eqn:E; simpl.
  - apply eqb_eq in E as ->. by rewrite (proj2 (eqb_neq k k')).
  - by rewrite IH.
Qed.

Lemma elem_get k v d :
  NoDup (PyDict.keys d) -> (k, v) ∈ d -> PyDict.get k d = Some v.
Proof.
  induction d as [| [k' v'] d IH]; [by intros _ ?%elem_of_nil |].
  unfold PyDict.keys in *. rewrite fmap_cons.
  intros [Hk' Hd]%NoDup_cons [[= -> ->] | Hin]%elem_of_cons; simpl.
  - by rewrite eqb_refl.
  - destruct (eqb k' k) eqn:E; [| by apply IH].
    apply eqb_eq in E as ->. exfalso. apply Hk'.
    by apply (list_elem_of_fmap_2 fst) in Hin.
Qed.

Lemma set_get_id k v d : PyDict.get k d = Some v -> PyDict.set k v d = d.
Proof.
  induction d as [| [k' v'] d IH]; [done |]. simpl.
  destruct (eqb k' k) eqn:E.
  - by intros [= ->].
  - intros H. by rewrite IH.
Qed.
End more_dict_facts.

(** [find] on a book with one record per name: it returns a record exactly
    when the book holds it under that name, and raises [KeyError], never
    anything else, exactly when the name is not in the book. *)
Theorem find_spec (n : pystr) (book : AddressBook) :
  NoDup (PyDict.keys book) ->
  (forall rec, find n book = Ok rec <-> (n, rec) ∈ book)
  /\ (find n book = Raise KeyError <-> n ∉ PyDict.keys book)
  /\ (forall e, find n book = Raise e -> e = KeyError).
Proof.
  intros Hnd. unfold find. split; [| split].
  - intros rec. split.
    + destruct (PyDict.get n book) as [r |] eqn:Hg; [| done].
      intros [= ->]. by apply get_Some_elem.
    + intros Hin. by rewrite (elem_get n rec book Hnd Hin).
  - rewrite <- get_None_keys. by destruct (PyDict.get n book).
  - intros e. destruct (PyDict.get n book); [done | by intros [= <-]].
Qed.

Lemma find_spec_witness :
  let ann := Sample.contact "Ann" ["1111111111"] None in
  let book := [(lit "Ann", ann); (lit "Bob", Sample.contact "Bob" [] None)] in
  find (lit "Ann") book = Ok ann /\ find (lit "Eve") book = Raise KeyError.
Proof.
  intros ann book.
  assert (NoDup (PyDict.keys book)) as Hnd
    by (apply (bool_decide_unpack _); by vm_compute).
  split.
  - apply (find_spec (lit "Ann") book Hnd). by left.
  - apply (find_spec (lit "Eve") book Hnd).
    apply (bool_decide_unpack _). by vm_compute.
Defined.

(** [delete] on a book with one record per name never raises.  It returns
    [True] exactly when the name was in the book; afterwards the name is
    not found, the other names are found as before and keep their order,
    and deleting the name again returns [False] and changes nothing. *)
Theorem delete_spec (n : pystr) (book : AddressBook) :
  NoDup (PyDict.keys book) ->
  let book' := fst (delete n book) in
  (n ∈ PyDict.keys book -> snd (delete n book) = Ok true)
  /\ ((n ∉ PyDict.keys book) -> delete n book = (book, Ok false))
  /\ find n book' = Raise KeyError
  /\ (forall other, other <> n -> find other book' = find other book)
  /\ PyDict.keys book' = filter (fun k => k <> n) (PyDict.keys book)
  /\ delete n book' = (book', Ok false).
Proof.
  intros Hnd book'.
  assert (PyDict.keys book' = filter (fun k => k <> n) (PyDict.keys book)
          /\ book' = PyDict.del n book) as [Hkeys Hdel].
  { unfold book', delete, PyDict.contains.
    destruct (PyDict.get n book) as [r |] eqn:Hg; simpl.
    - split; [by apply keys_del | done].
    - apply get_None_keys in Hg. rewrite (del_absent n book Hg).
      split; [| done]. symmetry. apply filter_all.
      intros k Hk ->. done. }
  assert (n ∉ PyDict.keys book') as Hgone.
  { rewrite Hkeys. intros [? _]%list_elem_of_filter. done. }
  split; [| split; [| split; [| split; [| split]]]].
  - intros Hin. unfold delete, PyDict.contains.
    destruct (PyDict.get n book) eqn:Hg; [done |].
    by apply get_None_keys in Hg.
  - intros Hout. unfold delete, PyDict.contains.
    by rewrite (proj2 (get_None_keys n book) Hout).
  - unfold find. by rewrite (proj2 (get_None_keys n book') Hgone).
  - intros other Hne. unfold find. rewrite Hdel. by rewrite get_del_ne.
  - done.
  - unfold delete, PyDict.contains.
    by rewrite (proj2 (get_None_keys n book') Hgone).
Qed.

Lemma delete_spec_witness :
  let ann := Sample.contact "Ann" ["1111111111"] None in
  let bob := Sample.contact "Bob" [] None in
  let book := [(lit "Ann", ann); (lit "Bob", bob)] in
  snd (delete (lit "Ann") book) = Ok true
  /\ find (lit "Bob") (fst (delete (lit "Ann") book)) = Ok bob
  /\ delete (lit "Eve") book = (book, Ok false).
Proof.
  intros ann bob book.
  assert (NoDup (PyDict.keys book)) as Hnd
    by (apply (bool_decide_unpack _); by vm_compute).
  pose proof (delete_spec (lit "Ann") book Hnd) as (H1 & _ & _ & H2 & _).
  pose proof (delete_spec (lit "Eve") book Hnd) as (_ & H3 & _).
  split; [apply H1; by left |]. split.
  - rewrite H2; [reflexivity | by vm_compute].
  - apply H3. apply (bool_decide_unpack _). by vm_compute.
Defined.

(** ** More on loading *)

Lemma load_phones_cons (s : pystr) (strs : list pystr) (self : record) :
  load_phones (s :: strs) self = load_phones strs (fst (add_phone s self)).
Proof.
  cbn [load_phones]. unfold mbind, try_except_ValueError.
  destruct (is_ok (Phone_init s)) eqn:Hok.
  - destruct (decide (s ∈ Phone_value <$> phones self)) as [Hin | Hin].
    + by rewrite (add_phone_present s self Hok Hin).
    + by rewrite (add_phone_absent s self Hok Hin).
  - by rewrite (add_phone_invalid s self Hok).
Qed.

Lemma load_phones_spec (strs : list pystr) (self : record) :
  snd (load_phones strs self) = Ok tt
  /\ name (fst (load_phones strs self)) = name self
  /\ birthday (fst (load_phones strs self)) = birthday self
  /\ (phones_valid self -> phones_valid (fst (load_phones strs self)))
  /\ (phones_unique self -> phones_unique (fst (load_phones strs self)))
  /\ (exists added,
        phones (fst (load_phones strs self)) = phones self ++ added
        /\ (Phone_value <$> added) `sublist_of` strs)
  /\ (forall v, v ∈ (Phone_value <$> phones (fst (load_phones strs self)))
                <-> v ∈ (Phone_value <$> phones self)
                    \/ (v ∈ strs /\ is_ok (Phone_init v) = true)).
Proof.
  revert self. induction strs as [| s strs IH]; intros self.
  - simpl. repeat split; try done.
    + exists []. by rewrite app_nil_r.
    + by left.
    + by intros [? | [?%elem_of_nil _]].
  - rewrite load_phones_cons.
    assert (name (fst (add_phone s self)) = name self) as Hname
      by (by destruct (add_phone_cases s self) as [-> | (_ & _ & ->)]).
    assert (birthday (fst (add_phone s self)) = birthday self) as Hbd
      by (by destruct (add_phone_cases s self) as [-> | (_ & _ & ->)]).
    pose proof (add_phone_unique s self) as Hu.
    pose proof (add_phone_valid_kept s self) as Hv.
    pose proof (add_phone_invalid s self) as Hbad.
    pose proof (add_phone_present s self) as Hpres.
    pose proof (add_phone_absent s self) as Habs.
    set (self1 := fst (add_phone s self)) in *.
    destruct (IH self1) as (Hr & Hn & Hb & Hv' & Hu' & (added & Hadded & Hsub)
                            & Hmem).
    split; [done |]. split; [congruence |]. split; [congruence |].
    split; [auto |]. split; [auto |].
    destruct (is_ok (Phone_init s)) eqn:Hok.
    + destruct (decide (s ∈ Phone_value <$> phones self)) as [Hs | Hs].
      * assert (self1 = self) as Heq
          by (unfold self1; by rewrite (Hpres eq_refl Hs)).
        rewrite Heq in Hadded, Hmem |- *. split.
        -- exists added. split; [done | by apply sublist_cons].
        -- intros v. rewrite Hmem, elem_of_cons. split; [tauto |].
           intros [? | [[-> | ?] ?]]; tauto.
      * assert (phones self1 = phones self ++ [mkPhone s]) as Heq
          by (unfold self1; by rewrite (Habs eq_refl Hs)).
        rewrite Heq in Hadded, Hmem. split.
        -- exists (mkPhone s :: added).
           rewrite Hadded, <- app_assoc. split; [done |].
           rewrite fmap_cons. simpl. by apply sublist_skip.
        -- intros v. rewrite Hmem, fmap_app, elem_of_app, elem_of_cons.
           change (Phone_value <$> [mkPhone s]) with [s].
           rewrite list_elem_of_singleton. split.
           ++ intros [[? | ->] | [? ?]]; tauto.
           ++ intros [? | [[-> | ?] ?]]; tauto.
    + assert (self1 = self) as Heq
        by (unfold self1; by rewrite (Hbad eq_refl)).
      rewrite Heq in Hadded, Hmem |- *. split.
      * exists added. split; [done | by apply sublist_cons].
      * intros v. rewrite Hmem, elem_of_cons. split; [tauto |].
        intros [? | [[-> | ?] Hvok]]; try tauto. congruence.
Qed.

(** What [load_address_book] makes of one item. *)
Lemma load_item_spec (n : pystr) (i : info) (book : AddressBook) :
  exists rec,
    load_item n i book = add_record rec book
    /\ Name_value (name rec) = n
    /\ phones_valid rec /\ phones_unique rec
    /\ (Phone_value <$> phones rec) `sublist_of` info_phones i
    /\ (forall v, v ∈ (Phone_value <$> phones rec)
                  <-> v ∈ info_phones i /\ is_ok (Phone_init v) = true)
    /\ (forall b, birthday rec = Some b ->
          PyDate.wf (Birthday_value b) = true
          /\ exists s, info_birthday i = Some s /\ Birthday_init s = Ok b)
    /\ (birthday rec = None ->
        forall s, info_birthday i = Some s -> is_ok (Birthday_init s) = false).
Proof.
  unfold load_item, Record_init, mbind.
  set (rec0 := mkRecord (mkName n) [] None).
  destruct (load_phones_spec (info_phones i) rec0)
    as (Hr & Hn & Hb & Hv & Hu & (added & Hadded & Hsub) & Hmem).
  destruct (load_phones (info_phones i) rec0) as [self1 r]. simpl in *.
  subst r.
  assert (phones_valid self1) as Hv1 by (apply Hv; constructor).
  assert (phones_unique self1) as Hu1 by (apply Hu; apply NoDup_nil_2).
  assert (forall v, v ∈ (Phone_value <$> phones self1)
                    <-> v ∈ info_phones i /\ is_ok (Phone_init v) = true)
    as Hmem1.
  { intros v. rewrite Hmem. split; [by intros [?%elem_of_nil | ?] | by right]. }
  assert ((Phone_value <$> phones self1) `sublist_of` info_phones i) as Hsub1
    by by rewrite Hadded.
  destruct (info_birthday i) as [[| c s] |] eqn:Hbs.
  - exists self1. unfold ret. rewrite Hn.
    split_and!; try done;
      try (intros b Hb'; by rewrite Hb in Hb');
      try (by intros _ s' [= <-]).
  - unfold try_except_ValueError.
    destruct (Birthday_init (c :: s)) as [b |] eqn:Hinit.
    + pose proof (Birthday_init_wf _ _ Hinit) as Hwf.
      rewrite (add_birthday_ok _ self1 b Hinit).
      exists (set_birthday (Some b) self1). simpl. rewrite Hn.
      split_and!; try done;
        try (by intros b' [= <-]).
      intros b' [= <-]. split; [done | by exists (c :: s)].
    + rewrite (add_birthday_bad _ self1) by (by rewrite Hinit).
      exists self1. rewrite Hn.
      split_and!; try done;
        try (intros b Hb'; by rewrite Hb in Hb').
      intros _ s' [= <-]. by rewrite Hinit.
  - exists self1. unfold ret. rewrite Hn.
    split_and!; try done;
      try (intros b Hb'; by rewrite Hb in Hb').
Qed.

Lemma elem_keys_set {V} (k k' : pystr) (v : V) (d : list (pystr * V)) :
  k' ∈ PyDict.keys (PyDict.set k v d) <-> k' = k \/ k' ∈ PyDict.keys d.
Proof.
  rewrite keys_set. destruct (decide (k ∈ PyDict.keys d)) as [Hin | Hin].
  - split; [by right | by intros [-> | ?]].
  - rewrite elem_of_app, list_elem_of_singleton. tauto.
Qed.

Lemma load_loop_inv (raw : list (pystr * info)) (acc : AddressBook) :
  book_wf acc -> Forall (fun kr => storable PyDate.Padded kr.2) acc ->
  snd (load_loop raw acc) = Ok tt
  /\ book_wf (fst (load_loop raw acc))
  /\ Forall (fun kr => storable PyDate.Padded kr.2) (fst (load_loop raw acc))
  /\ (forall k, k ∈ PyDict.keys (fst (load_loop raw acc))
                <-> k ∈ PyDict.keys acc \/ k ∈ PyDict.keys raw).
Proof.
  revert acc. induction raw as [| [n i] raw IH]; intros acc Hwf Hall.
  - simpl. split_and!; try done.
    intros k. split; [by left | by intros [? | ?%elem_of_nil]].
  - cbn [load_loop]. unfold mbind.
    destruct (load_item_spec n i acc)
      as (rec & -> & Hname & Hv & Hu & _ & _ & Hb & _).
    unfold add_record. rewrite Hname.
    assert (storable PyDate.Padded rec) as Hs.
    { split; [done |]. split; [done |]. unfold birthday_valid.
      destruct (birthday rec) as [b |] eqn:Hbd; [| done].
      destruct (Hb b eq_refl) as [Hwfb _]. split; [done | by left]. }
    destruct (IH (PyDict.set n rec acc)) as (Hr & Hwf' & Hall' & Hkeys).
    + rewrite <- Hname. by apply (add_record_wf rec acc).
    + by apply Forall_set.
    + split; [done |]. split; [done |]. split; [done |].
      intros k. rewrite Hkeys, elem_keys_set.
      change (PyDict.keys ((n, i) :: raw)) with (n :: PyDict.keys raw).
      rewrite elem_of_cons. tauto.
Qed.


(** [load_address_book] never raises and never yields a book it could not
    have saved: one record per name, each under its own name, with phones
    that are valid and pairwise different and a birthday, if any, that is
    a date of the calendar; the names are those of the data. *)
Theorem load_sanitises (raw : list (pystr * info)) :
  snd (load_address_book raw) = Ok tt
  /\ book_wf (fst (load_address_book raw))
  /\ Forall (fun kr => storable PyDate.Padded kr.2)
       (fst (load_address_book raw))
  /\ (forall k, k ∈ PyDict.keys (fst (load_address_book raw))
                <-> k ∈ PyDict.keys raw).
Proof.
  unfold load_address_book.
  destruct (load_loop_inv raw []) as (Hr & Hwf & Hall & Hkeys);
    [apply book_wf_nil | done |].
  split; [done |]. split; [done |]. split; [done |].
  intros k. rewrite Hkeys. split; [by intros [?%elem_of_nil | ?] | by right].
Qed.


Lemma load_sanitises_witness :
  let raw := [(lit "Ann", mkInfo [lit "1111111111"; lit "12"; lit "1111111111"]
                            (Some (lit "31.04.2023")))] in
  load_address_book raw
  = ([(lit "Ann", Sample.contact "Ann" ["1111111111"] None)], Ok tt)
  /\ (lit "Ann" ∈ PyDict.keys (fst (load_address_book raw))).
Proof.
  intros raw. split; [reflexivity |].
  apply (load_sanitises raw). by left.
Defined.


(** What was loaded survives saving and loading again unchanged, as far
    as the dictionary [save_address_book] builds is concerned (writing it
    to the file and reading it back as JSON is outside this model) and
    with a C library that writes years with four digits: loading
    normalises the data once and for all. *)
Theorem load_save_load (raw : list (pystr * info)) :
  load_address_book
    (save_address_book PyDate.Padded (fst (load_address_book raw)))
  = (fst (load_address_book raw), Ok tt).
Proof.
  destruct (load_loop_inv raw []) as (_ & [Hk Hn] & Hall & _);
    [apply book_wf_nil | done |].
  change (load_loop raw []) with (load_address_book raw) in Hk, Hn, Hall.
  set (book := fst (load_address_book raw)) in *.
  unfold load_address_book at 1. unfold save_address_book.
  rewrite save_loop_fresh by done. simpl.
  rewrite load_loop_storable; [done | done |].
  rewrite Forall_forall in Hn, Hall. apply Forall_forall. intros [k rec] Hin.
  split; [apply (Hn _ Hin) | apply (Hall _ Hin)].
Qed.

(** ** The command handlers *)

Lemma find_Ok_keys (n : pystr) (book : AddressBook) (rec : record) :
  find n book = Ok rec -> n ∈ PyDict.keys book.
Proof.
  unfold find. destruct (PyDict.get n book) eqn:Hg; [| done]. intros _.
  destruct (decide (n ∈ PyDict.keys book)) as [| Hn]; [done |].
  apply get_None_keys in Hn. congruence.
Qed.

Lemma find_Raise (n : pystr) (book : AddressBook) (e : exn) :
  find n book = Raise e -> e = KeyError /\ n ∉ PyDict.keys book.
Proof.
  unfold find. destruct (PyDict.get n book) eqn:Hg; [done |].
  intros [= <-]. split; [done | by apply get_None_keys].
Qed.

Lemma find_set_eq (n : pystr) (rec : record) (book : AddressBook) :
  find n (PyDict.set n rec book) = Ok rec.
Proof. unfold find. by rewrite get_set_eq. Qed.

Lemma find_set_ne (n n' : pystr) (rec : record) (book : AddressBook) :
  n' <> n -> find n' (PyDict.set n rec book) = find n' book.
Proof. intros Hne. unfold find. by rewrite get_set_ne. Qed.

Lemma find_set_id (n : pystr) (rec : record) (book : AddressBook) :
  find n book = Ok rec -> PyDict.set n rec book = book.
Proof.
  unfold find. destruct (PyDict.get n book) eqn:Hg; [| done].
  intros [= ->]. by apply set_get_id.
Qed.

Lemma on_record_present {A} (n : pystr) (m : method record A)
    (book : AddressBook) (rec : record) :
  find n book = Ok rec ->
  on_record n m book = (PyDict.set n (fst (m rec)) book, snd (m rec)).
Proof. intros H. unfold on_record. rewrite H. by destruct (m rec). Qed.

Lemma on_record_absent {A} (n : pystr) (m : method record A)
    (book : AddressBook) :
  find n book = Raise KeyError -> on_record n m book = (book, Raise KeyError).
Proof. intros H. unfold on_record. by rewrite H. Qed.

Lemma first_phone_dec (v : pystr) (ps : list Phone) :
  (v ∈ Phone_value <$> ps -> exists idx, first_phone v ps idx)
  /\ ((v ∉ Phone_value <$> ps) -> Forall (fun ph => Phone_value ph <> v) ps).
Proof.
  destruct (list_find (fun ph => Phone_value ph = v) ps) as [[idx ph] |] eqn:Hf.
  - apply list_find_Some in Hf as (Hl & Hv & Hfirst). split.
    + intros _. exists idx. split; [by exists ph |].
      intros j y Hy Hj. by apply (Hfirst j y).
    + intros Hn. exfalso. apply Hn. apply list_elem_of_fmap. exists ph.
      split; [done | by apply list_elem_of_lookup_2 in Hl].
  - apply list_find_None in Hf. split; [| done].
    intros (ph & -> & Hin)%list_elem_of_fmap.
    rewrite Forall_forall in Hf. by destruct (Hf ph Hin).
Qed.

(** The [add] command.  A number [Phone] rejects raises [ValueError] and
    leaves the book as it was: no contact without phones is created for a
    new name.  An accepted number is afterwards among the phones of the
    contact of that name, and no other contact is touched; a new name is
    appended to the book with that phone alone and no birthday, a known
    one keeps its place and gets the number by [add_phone]. *)
Theorem handler_add_contact_spec (name phone : pystr) (rest : list pystr)
    (book : AddressBook) :
  let r := Handlers.add_contact (name :: phone :: rest) book in
  (is_ok (Phone_init phone) = false -> r = (book, Handlers.Raises ValueError))
  /\ (is_ok (Phone_init phone) = true ->
      exists rec text,
        snd r = Handlers.Returns text
        /\ find name (fst r) = Ok rec
        /\ phone ∈ (Phone_value <$> phones rec)
        /\ (forall n, n <> name -> find n (fst r) = find n book)
        /\ (find name book = Raise KeyError ->
            rec = mkRecord (mkName name) [mkPhone phone] None
            /\ fst r = book ++ [(name, rec)]
            /\ text = Handlers.CREATED_1 ++ name ++ Handlers.CREATED_2
                      ++ phone ++ [DOT])
        /\ (forall old, find name book = Ok old ->
            rec = fst (add_phone phone old)
            /\ PyDict.keys (fst r) = PyDict.keys book
            /\ text = Handlers.ADDED_1 ++ name ++ Handlers.ADDED_2
                      ++ phone ++ [DOT])).
Proof.
  intros r. subst r. unfold Handlers.add_contact.
  destruct (find name book) as [old | e] eqn:Hfind.
  - rewrite (on_record_present _ _ _ _ Hfind). split.
    + intros Hbad. rewrite (add_phone_invalid _ old Hbad). simpl.
      by rewrite (find_set_id _ _ _ Hfind).
    + intros Hok.
      assert (snd (add_phone phone old) = Ok tt) as Hsnd.
      { destruct (decide (phone ∈ Phone_value <$> phones old)) as [Hin | Hin].
        - by rewrite (add_phone_present _ _ Hok Hin).
        - by rewrite (add_phone_absent _ _ Hok Hin). }
      rewrite Hsnd. simpl. eexists _, _. split; [done |].
      split; [apply find_set_eq |]. split.
      { destruct (decide (phone ∈ Phone_value <$> phones old)) as [Hin | Hin].
        - by rewrite (add_phone_present _ _ Hok Hin).
        - rewrite (add_phone_absent _ _ Hok Hin). simpl.
          rewrite fmap_app. apply elem_of_app. right. by left. }
      split; [intros n Hn; by apply find_set_ne |].
      split; [done |]. intros old' [= <-]. split; [done |]. split; [| done].
      apply keys_set_present. by apply (find_Ok_keys _ _ old).
  - apply find_Raise in Hfind as Hk. destruct Hk as [-> Hk].
    rewrite (on_record_absent _ _ _ Hfind).
    unfold Handlers.add_contact_new, Record_init. split.
    + intros Hbad. by rewrite (add_phone_invalid _ _ Hbad).
    + intros Hok. rewrite add_phone_absent; [| done | by intros ?%elem_of_nil].
      simpl. eexists _, _. split; [done |].
      split; [apply find_set_eq |]. split; [by left |].
      split; [intros n Hn; by apply find_set_ne |].
      split; [| done]. intros _. split; [done |]. split; [| done].
      by apply set_fresh.
Qed.

Lemma handler_add_contact_spec_witness :
  let book := Sample.book_of [Sample.contact "Ann" ["1111111111"] None] in
  Handlers.add_contact [lit "Bob"; lit "12345"] book
  = (book, Handlers.Raises ValueError)
  /\ exists rec text,
       snd (Handlers.add_contact [lit "Bob"; lit "2222222222"] book)
       = Handlers.Returns text
       /\ find (lit "Bob")
            (fst (Handlers.add_contact [lit "Bob"; lit "2222222222"] book))
          = Ok rec
       /\ lit "2222222222" ∈ (Phone_value <$> phones rec).
Proof.
  intros book. split.
  - by apply (handler_add_contact_spec (lit "Bob") (lit "12345") [] book).
  - destruct (handler_add_contact_spec (lit "Bob") (lit "2222222222") []
                book) as (_ & H).
    destruct (H eq_refl) as (rec & text & H1 & H2 & H3 & _).
    by exists rec, text.
Defined.

(** The [change] command never adds, removes or reorders contacts and
    touches no contact but the named one.  An unknown name raises
    [KeyError]; for a known contact that does not hold the old number the
    book is unchanged and the text says so, whatever the new number is;
    if it holds the old number, a new number [Phone] rejects raises
    [ValueError] with the book unchanged, and an accepted one takes the
    place of the first phone equal to the old number. *)
Theorem handler_change_phone_spec (name old_phone new_phone : pystr)
    (rest : list pystr) (book : AddressBook) :
  let r := Handlers.change_phone (name :: old_phone :: new_phone :: rest)
             book in
  PyDict.keys (fst r) = PyDict.keys book
  /\ (forall n, n <> name -> find n (fst r) = find n book)
  /\ (find name book = Raise KeyError -> r = (book, Handlers.Raises KeyError))
  /\ (forall rec, find name book = Ok rec ->
        ((old_phone ∉ Phone_value <$> phones rec) ->
         r = (book, Handlers.Returns (Handlers.AT ++ name
                                      ++ Handlers.NO_PHONE_2 ++ old_phone
                                      ++ [DOT])))
        /\ (old_phone ∈ (Phone_value <$> phones rec) ->
            is_ok (Phone_init new_phone) = false ->
            r = (book, Handlers.Raises ValueError))
        /\ (old_phone ∈ (Phone_value <$> phones rec) ->
            is_ok (Phone_init new_phone) = true ->
            exists idx,
              first_phone old_phone (phones rec) idx
              /\ find name (fst r)
                 = Ok (set_phones (<[idx := mkPhone new_phone]> (phones rec))
                         rec)
              /\ snd r = Handlers.Returns
                           (Handlers.AT ++ name ++ Handlers.CHANGED_2
                            ++ old_phone ++ Handlers.CHANGED_3 ++ new_phone
                            ++ [DOT]))).
Proof.
  intros r. subst r. unfold Handlers.change_phone.
  destruct (find name book) as [rec | e] eqn:Hfind.
  - rewrite (on_record_present _ _ _ _ Hfind).
    pose proof (find_Ok_keys _ _ _ Hfind) as Hk.
    destruct (first_phone_dec old_phone (phones rec)) as [Hyes Hno].
    destruct (decide (old_phone ∈ Phone_value <$> phones rec)) as [Hin | Hin].
    + destruct (Hyes Hin) as [idx Hidx].
      rewrite (edit_phone_found _ _ _ idx Hidx).
      destruct (Phone_init new_phone) as [p |] eqn:Hp.
      * apply Phone_init_inv in Hp as ->. simpl.
        split; [by apply keys_set_present |].
        split; [intros n Hn; by apply find_set_ne |].
        split; [done |]. intros rec' [= <-].
        split; [done |]. split; [done |]. intros _ _. exists idx.
        split; [done |]. split; [apply find_set_eq | done].
      * simpl. rewrite (find_set_id _ _ _ Hfind).
        split; [done |]. split; [done |]. split; [done |].
        intros rec' [= <-]. split; [done |]. split; [| done].
        intros _ _. unfold Phone_init in Hp.
        destruct (negb _); congruence.
    + rewrite (edit_phone_not_found _ _ _ (Hno Hin)). simpl.
      rewrite (find_set_id _ _ _ Hfind).
      split; [done |]. split; [done |]. split; [done |].
      intros rec' [= <-]. by split.
  - apply find_Raise in Hfind as Hk. destruct Hk as [-> Hk].
    rewrite (on_record_absent _ _ _ Hfind). simpl. by split_and!.
Qed.

Lemma handler_change_phone_spec_witness :
  let ann := Sample.contact "Ann" ["1111111111"; "2222222222"] None in
  let book := Sample.book_of [ann] in
  Handlers.change_phone [lit "Eve"; lit "1111111111"; lit "3333333333"] book
  = (book, Handlers.Raises KeyError)
  /\ Handlers.change_phone [lit "Ann"; lit "2222222222"; lit "33"] book
     = (book, Handlers.Raises ValueError)
  /\ fst (Handlers.change_phone [lit "Ann"; lit "4444444444"; lit "33"] book)
     = book.
Proof.
  intros ann book. split; [| split].
  - by apply (handler_change_phone_spec (lit "Eve") (lit "1111111111")
                (lit "3333333333") [] book).
  - destruct (handler_change_phone_spec (lit "Ann") (lit "2222222222")
                (lit "33") [] book) as (_ & _ & _ & H).
    destruct (H ann eq_refl) as (_ & H2 & _).
    apply H2; [apply (bool_decide_unpack _); by vm_compute | reflexivity].
  - destruct (handler_change_phone_spec (lit "Ann") (lit "4444444444")
                (lit "33") [] book) as (_ & _ & _ & H).
    destruct (H ann eq_refl) as (H1 & _).
    rewrite H1; [reflexivity | apply (bool_decide_unpack _); by vm_compute].
Defined.

(** The [add-birthday] command: an unknown name raises [KeyError], a text
    [Birthday] rejects raises [ValueError], and in both cases the book is
    as it was, an earlier birthday included.  An accepted text sets the
    birthday of the named contact only, keeping its phones and the order of
    the book, and the text returned repeats what was typed. *)
Theorem handler_add_birthday_spec (name bday_str : pystr) (rest : list pystr)
    (book : AddressBook) :
  let r := Handlers.add_birthday (name :: bday_str :: rest) book in
  (find name book = Raise KeyError -> r = (book, Handlers.Raises KeyError))
  /\ (forall rec, find name book = Ok rec ->
        is_ok (Birthday_init bday_str) = false ->
        r = (book, Handlers.Raises ValueError))
  /\ (forall rec, find name book = Ok rec ->
        is_ok (Birthday_init bday_str) = true ->
        exists b,
          Birthday_init bday_str = Ok b
          /\ PyDate.wf (Birthday_value b) = true
          /\ find name (fst r) = Ok (set_birthday (Some b) rec)
          /\ PyDict.keys (fst r) = PyDict.keys book
          /\ (forall n, n <> name -> find n (fst r) = find n book)
          /\ snd r = Handlers.Returns (Handlers.FOR ++ name
                                       ++ Handlers.BIRTHDAY_SET_2
                                       ++ bday_str)).
Proof.
  intros r. subst r. unfold Handlers.add_birthday.
  destruct (find name book) as [rec | e] eqn:Hfind.
  - rewrite (on_record_present _ _ _ _ Hfind).
    split; [done |]. split.
    + intros rec' [= <-] Hbad. rewrite (add_birthday_bad _ rec Hbad). simpl.
      by rewrite (find_set_id _ _ _ Hfind).
    + intros rec' [= <-] Hok.
      destruct (Birthday_init bday_str) as [b |] eqn:Hb; [| done].
      rewrite (add_birthday_ok _ rec b Hb). simpl. exists b.
      split; [done |]. split; [by apply (Birthday_init_wf bday_str) |].
      split; [apply find_set_eq |].
      split; [apply keys_set_present; by apply (find_Ok_keys _ _ rec) |].
      split; [intros n Hn; by apply find_set_ne | done].
  - apply find_Raise in Hfind as Hk. destruct Hk as [-> Hk].
    rewrite (on_record_absent _ _ _ Hfind). by split_and!.
Qed.

Lemma handler_add_birthday_spec_witness :
  let ann := Sample.contact "Ann" ["1111111111"] (Some (9, 11, 1987)%Z) in
  let book := Sample.book_of [ann] in
  Handlers.add_birthday [lit "Eve"; lit "01.01.2000"] book
  = (book, Handlers.Raises KeyError)
  /\ Handlers.add_birthday [lit "Ann"; lit "31.04.2023"] book
     = (book, Handlers.Raises ValueError)
  /\ exists b,
       find (lit "Ann")
         (fst (Handlers.add_birthday [lit "Ann"; lit "29.02.2024"] book))
       = Ok (set_birthday (Some b) ann).
Proof.
  intros ann book. split; [| split].
  - by apply (handler_add_birthday_spec (lit "Eve") (lit "01.01.2000") []
                book).
  - destruct (handler_add_birthday_spec (lit "Ann") (lit "31.04.2023") []
                book) as (_ & H & _).
    by apply (H ann).
  - destruct (handler_add_birthday_spec (lit "Ann") (lit "29.02.2024") []
                book) as (_ & _ & H).
    destruct (H ann eq_refl eq_refl) as (b & _ & _ & Hf & _).
    by exists b.
Defined.

(** The [show-birthday] command reads the book only.  It raises [KeyError]
    for an unknown name; for a known contact it says that no birthday is
    given exactly when the contact has none, so the answer for a date is
    never mistaken for it; and right after [add-birthday] accepted a text
    of ten ASCII digits and full stops for that contact, the birthday shown
    is that text, provided the C library writes years with four digits or
    the year is 1000 or later (a C library that does not pad shows the
    year 0999 as 999). *)
Theorem handler_show_birthday_spec (libc : PyDate.year_style)
    (name : pystr) (rest : list pystr) (book : AddressBook) :
  let not_given := Handlers.Returns (Handlers.AT ++ name
                                     ++ Handlers.NO_BIRTHDAY_2) in
  (find name book = Raise KeyError ->
   Handlers.show_birthday libc (name :: rest) book = Handlers.Raises KeyError)
  /\ (forall rec, find name book = Ok rec ->
        (Handlers.show_birthday libc (name :: rest) book = not_given
         <-> birthday rec = None)
        /\ (forall b, birthday rec = Some b ->
              Handlers.show_birthday libc (name :: rest) book
              = Handlers.Returns (Handlers.BIRTHDAY_IS_1 ++ name
                                  ++ [0x3a; 0x20]%N ++ Birthday_str libc b))
        /\ (forall s rest' b,
              Birthday_init s = Ok b -> strict_text s ->
              libc = PyDate.Padded
              \/ (1000 <= PyDate.year (Birthday_value b))%Z ->
              Handlers.show_birthday libc (name :: rest)
                (fst (Handlers.add_birthday (name :: s :: rest') book))
              = Handlers.Returns (Handlers.BIRTHDAY_IS_1 ++ name
                                  ++ [0x3a; 0x20]%N ++ s))).
Proof.
  intros not_given. subst not_given. unfold Handlers.show_birthday.
  split; [by intros -> |]. intros rec Hfind.
  assert (forall b, birthday rec = Some b ->
            (if eqb (show_birthday libc rec) NOT_SET
             then Handlers.Returns (Handlers.AT ++ name
                                    ++ Handlers.NO_BIRTHDAY_2)
             else Handlers.Returns (Handlers.BIRTHDAY_IS_1 ++ name
                                    ++ [0x3a; 0x20]%N
                                    ++ show_birthday libc rec))
            = Handlers.Returns (Handlers.BIRTHDAY_IS_1 ++ name
                                ++ [0x3a; 0x20]%N ++ Birthday_str libc b))
    as Hsome.
  { intros b Hb. unfold show_birthday. rewrite Hb.
    rewrite (proj2 (eqb_neq _ _)); [done |].
    apply strftime_dmY_not_NOT_SET. }
  rewrite Hfind. split; [| split].
  - destruct (birthday rec) as [b |] eqn:Hb.
    + rewrite (Hsome b eq_refl). split; [| done]. by intros [=].
    + unfold show_birthday. rewrite Hb. by rewrite eqb_refl.
  - intros b Hb. by apply Hsome.
  - intros s rest' b Hb Hs Hlibc. unfold Handlers.add_birthday.
    rewrite (on_record_present _ _ _ _ Hfind).
    rewrite (add_birthday_ok _ rec b Hb). simpl. rewrite find_set_eq.
    unfold show_birthday. simpl.
    assert (Birthday_str libc b = s) as Hshow.
    { rewrite <- (Birthday_display_roundtrip_strict s b Hb Hs).
      destruct Hlibc as [-> | Hy]; [done |].
      unfold Birthday_str, PyDate.strftime_dmY.
      by rewrite !format_Y_from_1000. }
    rewrite (proj2 (eqb_neq _ _)); [by rewrite Hshow |].
    apply strftime_dmY_not_NOT_SET.
Qed.

Lemma handler_show_birthday_spec_witness :
  let ann := Sample.contact "Ann" ["1111111111"] None in
  let book := Sample.book_of [ann] in
  Handlers.show_birthday PyDate.Padded [lit "Eve"] book
  = Handlers.Raises KeyError
  /\ Handlers.show_birthday PyDate.Padded [lit "Ann"] book
     = Handlers.Returns (Handlers.AT ++ lit "Ann" ++ Handlers.NO_BIRTHDAY_2)
  /\ Handlers.show_birthday PyDate.Unpadded [lit "Ann"]
       (fst (Handlers.add_birthday [lit "Ann"; lit "09.11.1987"] book))
     = Handlers.Returns (Handlers.BIRTHDAY_IS_1 ++ lit "Ann"
                         ++ [0x3a; 0x20]%N ++ lit "09.11.1987").
Proof.
  intros ann book.
  destruct (handler_show_birthday_spec PyDate.Padded (lit "Ann") [] book)
    as (_ & H).
  destruct (H ann eq_refl) as (H1 & _ & _).
  destruct (handler_show_birthday_spec PyDate.Unpadded (lit "Ann") [] book)
    as (_ & H').
  destruct (H' ann eq_refl) as (_ & _ & H3).
  split; [| split].
  - by apply (handler_show_birthday_spec PyDate.Padded (lit "Eve") [] book).
  - by apply H1.
  - apply (H3 (lit "09.11.1987") []
             (mkBirthday (PyDate.mkDate 1987 11 9))); [reflexivity | |].
    + split; [reflexivity |]. repeat constructor; by vm_compute.
    + right. by vm_compute.
Defined.

(** Without padding the year of an early birthday is shown shorter than it
    was typed. *)
Lemma handler_show_birthday_unpadded_early :
  let book := Sample.book_of [Sample.contact "Ann" [] None] in
  Handlers.show_birthday PyDate.Unpadded [lit "Ann"]
    (fst (Handlers.add_birthday [lit "Ann"; lit "01.02.0999"] book))
  = Handlers.Returns (Handlers.BIRTHDAY_IS_1 ++ lit "Ann"
                      ++ [0x3a; 0x20]%N ++ lit "01.02.999").
Proof. by vm_compute. Qed.

(** ** The command loop *)

Lemma on_record_inv {A} (n : pystr) (m : method record A)
    (book : AddressBook) :
  (forall rec, record_ok rec ->
     record_ok (fst (m rec)) /\ name (fst (m rec)) = name rec) ->
  session_inv book ->
  session_inv (fst (on_record n m book))
  /\ PyDict.keys (fst (on_record n m book)) = PyDict.keys book.
Proof.
  intros Hm [[Hk Hn] Hall].
  destruct (find n book) as [rec | e] eqn:Hfind.
  - rewrite (on_record_present _ _ _ _ Hfind). simpl.
    assert ((n, rec) ∈ book) as Hin.
    { unfold find in Hfind. destruct (PyDict.get n book) eqn:Hg; [| done].
      injection Hfind as ->. by apply get_Some_elem. }
    rewrite Forall_forall in Hn, Hall.
    destruct (Hm rec (Hall _ Hin)) as [Hok Hname].
    split; [split; [split |] |].
    + by apply NoDup_keys_set.
    + apply Forall_set; [| by apply Forall_forall]. rewrite Hname.
      apply (Hn _ Hin).
    + apply Forall_set; [done | by apply Forall_forall].
    + apply keys_set_present. by apply (find_Ok_keys _ _ rec).
  - apply find_Raise in Hfind as Hk'. destruct Hk' as [-> _].
    by rewrite (on_record_absent _ _ _ Hfind).
Qed.

Lemma add_phone_ok (s : pystr) (rec : record) :
  record_ok rec ->
  record_ok (fst (add_phone s rec))
  /\ name (fst (add_phone s rec)) = name rec.
Proof.
  intros [Hv Hb]. split; [split |].
  - by apply add_phone_valid_kept.
  - by destruct (add_phone_cases s rec) as [-> | (_ & _ & ->)].
  - by destruct (add_phone_cases s rec) as [-> | (_ & _ & ->)].
Qed.

Lemma edit_phone_ok (old_phone new_phone : pystr) (rec : record) :
  record_ok rec ->
  record_ok (fst (edit_phone old_phone new_phone rec))
  /\ name (fst (edit_phone old_phone new_phone rec)) = name rec.
Proof.
  intros [Hv Hb]. unfold edit_phone, mbind, get, lift, put, ret.
  destruct (list_find _ _) as [[idx ph] |]; [| done].
  destruct (Phone_init new_phone) as [p |] eqn:Hp; [| done]. simpl.
  split; [split |]; [| done | done].
  unfold phones_valid in *. simpl. apply Forall_insert; [done |].
  by rewrite (Phone_init_inv _ _ Hp) in Hp |- *.
Qed.

Lemma add_birthday_record_ok (s : pystr) (rec : record) :
  record_ok rec ->
  record_ok (fst (add_birthday s rec))
  /\ name (fst (add_birthday s rec)) = name rec.
Proof.
  intros [Hv Hb]. destruct (Birthday_init s) as [b |] eqn:Hinit.
  - rewrite (add_birthday_ok s rec b Hinit). simpl.
    split; [split |]; [done | | done].
    simpl. intros b' [= <-]. by apply (Birthday_init_wf s).
  - by rewrite (add_birthday_bad s rec) by (by rewrite Hinit).
Qed.

Lemma add_contact_inv (args : list pystr) (book : AddressBook) :
  session_inv book ->
  session_inv (fst (Handlers.add_contact args book))
  /\ PyDict.keys book `prefix_of`
       PyDict.keys (fst (Handlers.add_contact args book)).
Proof.
  intros Hinv. unfold Handlers.add_contact.
  destruct args as [| name [| phone rest]]; [done | done |].
  destruct (find name book) as [old | e] eqn:Hfind.
  - destruct (on_record_inv name (add_phone phone) book
                (add_phone_ok phone) Hinv) as [Hinv' Hkeys].
    rewrite (on_record_present _ _ _ _ Hfind) in Hinv', Hkeys |- *.
    simpl in Hinv', Hkeys.
    assert (snd (add_phone phone old) = Ok tt
            \/ snd (add_phone phone old) = Raise ValueError) as [-> | ->].
    { destruct (is_ok (Phone_init phone)) eqn:Hok.
      - left.
        destruct (decide (phone ∈ Phone_value <$> phones old)) as [Hin | Hin].
        + by rewrite (add_phone_present _ _ Hok Hin).
        + by rewrite (add_phone_absent _ _ Hok Hin).
      - right. by rewrite (add_phone_invalid _ _ Hok). }
    + simpl. by rewrite Hkeys.
    + simpl. by rewrite Hkeys.
  - apply find_Raise in Hfind as Hk. destruct Hk as [-> Hk].
    rewrite (on_record_absent _ _ _ Hfind).
    unfold Handlers.add_contact_new, Record_init.
    destruct (is_ok (Phone_init phone)) eqn:Hok.
    + rewrite add_phone_absent; [| done | by intros ?%elem_of_nil].
      simpl. destruct Hinv as [Hwf Hall].
      set (rec := set_phones [mkPhone phone] (mkRecord (mkName name) [] None)).
      split; [split |].
      * by apply (add_record_wf rec book).
      * apply Forall_set; [| done]. split; [| done].
        unfold phones_valid. simpl. apply Forall_cons. split; [| done].
        simpl. destruct (Phone_init phone) as [p |] eqn:Hp; [| done].
        by rewrite (Phone_init_inv _ _ Hp).
      * rewrite set_fresh by done. unfold PyDict.keys. rewrite fmap_app.
        by apply prefix_app_r.
    + by rewrite (add_phone_invalid _ _ Hok).
Qed.

Lemma change_phone_inv (args : list pystr) (book : AddressBook) :
  session_inv book ->
  session_inv (fst (Handlers.change_phone args book))
  /\ PyDict.keys book `prefix_of`
       PyDict.keys (fst (Handlers.change_phone args book)).
Proof.
  intros Hinv. unfold Handlers.change_phone.
  destruct args as [| name [| old_phone [| new_phone rest]]];
    [done | done | done |].
  destruct (on_record_inv name (edit_phone old_phone new_phone) book
              (edit_phone_ok old_phone new_phone) Hinv) as [Hinv' Hkeys].
  destruct (on_record name (edit_phone old_phone new_phone) book)
    as [book' [[|] | e]]; simpl in *; by rewrite Hkeys.
Qed.

Lemma add_birthday_inv (args : list pystr) (book : AddressBook) :
  session_inv book ->
  session_inv (fst (Handlers.add_birthday args book))
  /\ PyDict.keys book `prefix_of`
       PyDict.keys (fst (Handlers.add_birthday args book)).
Proof.
  intros Hinv. unfold Handlers.add_birthday.
  destruct args as [| name [| bday_str rest]]; [done | done |].
  destruct (on_record_inv name (add_birthday bday_str) book
              (add_birthday_record_ok bday_str) Hinv) as [Hinv' Hkeys].
  destruct (on_record name (add_birthday bday_str) book)
    as [book' [u | e]]; simpl in *; by rewrite Hkeys.
Qed.

Lemma dispatch_inv (command : pystr) (args : list pystr)
    (book : AddressBook) :
  session_inv book ->
  session_inv (dispatch command args book)
  /\ PyDict.keys book `prefix_of` PyDict.keys (dispatch command args book).
Proof.
  intros Hinv. unfold dispatch.
  destruct (eqb command (lit "add")); [by apply add_contact_inv |].
  destruct (eqb command (lit "change")); [by apply change_phone_inv |].
  destruct (eqb command (lit "add-birthday")); [by apply add_birthday_inv |].
  done.
Qed.

Lemma load_session_inv (raw : list (pystr * info)) :
  session_inv (fst (load_address_book raw)).
Proof.
  destruct (load_loop_inv raw []) as (_ & Hwf & Hall & _);
    [apply book_wf_nil | done |].
  split; [done |]. unfold load_address_book.
  eapply Forall_impl; [exact Hall |]. intros [k rec] (Hv & _ & Hb).
  split; [done |]. simpl. intros b Hbd. unfold birthday_valid in Hb.
  simpl in Hb. rewrite Hbd in Hb. by destruct Hb.
Qed.

(** A session of the command loop, started from the empty book or from
    whatever was loaded, and ended by [close] or [exit]: the book handed to
    [save_address_book] holds one record per name, each under its own name,
    only phones [Phone] accepts and only birthdays that are dates of the
    calendar, whatever was typed; and no command removes or reorders a
    contact: the names at the start are still there, in their order, before
    the names added since. *)
Theorem session_keeps_book_valid (raw : option (list (pystr * info)))
    (inputs : list (pystr * list pystr)) (saved : AddressBook) :
  let start := match raw with
               | Some raw_data => fst (load_address_book raw_data)
               | None => []
               end in
  main_loop inputs start = Some saved ->
  session_inv saved /\ PyDict.keys start `prefix_of` PyDict.keys saved.
Proof.
  intros start.
  assert (session_inv start) as Hstart.
  { destruct raw as [raw_data |]; [apply load_session_inv |].
    split; [apply book_wf_nil | done]. }
  clearbody start. revert start Hstart.
  induction inputs as [| [command args] inputs IH]; intros start Hstart;
    [done |].
  cbn [main_loop]. destruct (_ || _).
  - by intros [= <-].
  - intros Hloop.
    destruct (dispatch_inv command args start Hstart) as [Hinv Hpre].
    destruct (IH _ Hinv Hloop) as [Hsaved Hpre'].
    split; [done |]. by etrans.
Qed.

Lemma session_keeps_book_valid_witness :
  let inputs := [(lit "add", [lit "Ann"; lit "1111111111"]);
                 (lit "add", [lit "Bob"; lit "12"]);
                 (lit "change", [lit "Ann"; lit "1111111111"; lit "x"]);
                 (lit "add-birthday", [lit "Ann"; lit "29.02.2023"]);
                 (lit "exit", [])] in
  let saved := [(lit "Ann", Sample.contact "Ann" ["1111111111"] None)] in
  main_loop inputs [] = Some saved
  /\ session_inv saved.
Proof.
  intros inputs saved. split; [reflexivity |].
  by apply (session_keeps_book_valid None inputs saved).
Defined.
